(** * c-stpl: page-range partitioning, output naming, splitting and printing

    A shallow embedding of the Python sources [pdf_splitter.py],
    [file_manager.py], [printer_manager.py] and [main.py], followed by the
    properties established about them.

    Python integers are [Z]; [//] and [%] are [Z.div] and [Z.modulo] (both
    floor towards minus infinity, like Python) with the zero divisor raising
    [ZeroDivisionError]; exceptions are values of [exn] carried by [result];
    strings are [string]; a [pathlib] path is an anchor with its list of
    components (POSIX flavour); input and output are recorded as a trace of
    [IOEvent]s. *)

From Stdlib Require Import ZArith List String Ascii Bool Lia Arith.
From Stdlib Require Import DecimalString Decimal DecimalNat DecimalZ.
Import ListNotations.

Open Scope string_scope.
Open Scope list_scope.
Open Scope Z_scope.

Infix "+++" := String.append (right associativity, at level 60).

(** ** Python prelude *)

Module Py.

(** The exceptions the modules can meet. *)
Inductive exn : Type :=
| ValueError (msg : string)
| ZeroDivisionError
| IndexError
| ImportError
| CalledProcessError (msg : string)
| OSError (msg : string)
| OtherException (msg : string).

Inductive result (A : Type) : Type :=
| Ok (a : A)
| Raise (e : exn).
Arguments Ok {A} a.
Arguments Raise {A} e.

Definition bind {A B} (r : result A) (k : A -> result B) : result B :=
  match r with
  | Ok a => k a
  | Raise e => Raise e
  end.

(** [a // b] *)
Definition floordiv (a b : Z) : result Z :=
  if b =? 0 then Raise ZeroDivisionError else Ok (a / b).

(** [a % b] *)
Definition modulo (a b : Z) : result Z :=
  if b =? 0 then Raise ZeroDivisionError else Ok (a mod b).

(** [len(range(start, stop, step))] for a non-zero step. *)
Definition range_len (start stop step : Z) : Z :=
  if 0 <? step then
    if start <? stop then (stop - start - 1) / step + 1 else 0
  else
    if stop <? start then (start - stop - 1) / (- step) + 1 else 0.

Fixpoint range_items (n : nat) (start step : Z) : list Z :=
  match n with
  | O => []
  | S n' => start :: range_items n' (start + step) step
  end.

(** [range(start, stop, step)], as the list of the values it yields. *)
Definition range3 (start stop step : Z) : result (list Z) :=
  if step =? 0 then Raise (ValueError "range() arg 3 must not be zero")
  else Ok (range_items (Z.to_nat (range_len start stop step)) start step).

(** [range(start, stop)] *)
Definition range2 (start stop : Z) : list Z :=
  range_items (Z.to_nat (range_len start stop 1)) start 1.

(** [range(stop)] *)
Definition range1 (stop : Z) : list Z := range2 0 stop.

(** [len(l)] *)
Definition len {A} (l : list A) : Z := Z.of_nat (List.length l).

(** [l[i]]: a negative index counts from the end, an index out of range
    raises [IndexError]. *)
Definition getitem {A} (l : list A) (i : Z) : result A :=
  let j := if i <? 0 then i + len l else i in
  if j <? 0 then Raise IndexError
  else match nth_error l (Z.to_nat j) with
       | Some a => Ok a
       | None => Raise IndexError
       end.

(** [enumerate(l)] *)
Fixpoint enumerate_from {A} (i : Z) (l : list A) : list (Z * A) :=
  match l with
  | [] => []
  | a :: l' => (i, a) :: enumerate_from (i + 1) l'
  end.
Definition enumerate {A} (l : list A) : list (Z * A) := enumerate_from 0 l.

(** [str(z)] for an integer. *)
Definition str_int (z : Z) : string := NilZero.string_of_int (Z.to_int z).

Fixpoint zeros (n : nat) : string :=
  match n with
  | O => ""
  | S n' => String "0" (zeros n')
  end.

(** [s.zfill(width)] for a string of digits without sign. *)
Definition zfill (width : nat) (s : string) : string :=
  zeros (width - String.length s) +++ s.

(** [f"{z:03d}"]: zero padding to width 3, the sign counted in the width. *)
Definition format_03d (z : Z) : string :=
  if z <? 0 then String "-" (zfill 2 (str_int (- z)))
  else zfill 3 (str_int z).

(** [s.rfind(c)] for a single character, [None] for Python's [-1]. *)
Fixpoint rfind (c : ascii) (s : string) : option nat :=
  match s with
  | EmptyString => None
  | String a s' =>
      match rfind c s' with
      | Some i => Some (S i)
      | None => if Ascii.eqb a c then Some O else None
      end
  end.

Definition lower_ascii (a : ascii) : ascii :=
  let n := nat_of_ascii a in
  if andb (Nat.leb 65 n) (Nat.leb n 90) then ascii_of_nat (n + 32) else a.

(** [s.lower()] on ASCII text. *)
Fixpoint lower (s : string) : string :=
  match s with
  | EmptyString => EmptyString
  | String a s' => String (lower_ascii a) (lower s')
  end.

(** The line feed, Python's ['\n']. *)
Definition nl : string := String (ascii_of_nat 10) "".

(** [c.isspace()] for an ASCII character. *)
Definition isspace (c : ascii) : bool :=
  let n := nat_of_ascii c in
  orb (andb (Nat.leb 9 n) (Nat.leb n 13))
      (andb (Nat.leb 28 n) (Nat.leb n 32)).

(** [s.split(c)] for a separator of one character. *)
Fixpoint split_on (c : ascii) (s : string) : list string :=
  match s with
  | EmptyString => [EmptyString]
  | String a s' =>
      if Ascii.eqb a c then EmptyString :: split_on c s'
      else match split_on c s' with
           | x :: xs => String a x :: xs
           | [] => [String a EmptyString]
           end
  end.

(** [s.split()]: the words between runs of white space. *)
Fixpoint split_ws (s : string) : list string :=
  match s with
  | EmptyString => []
  | String a s' =>
      if isspace a then split_ws s'
      else match s' with
           | EmptyString => [String a EmptyString]
           | String b _ =>
               if isspace b then String a EmptyString :: split_ws s'
               else match split_ws s' with
                    | x :: xs => String a x :: xs
                    | [] => [String a EmptyString]
                    end
           end
  end.

(** [s.lstrip()] *)
Fixpoint lstrip (s : string) : string :=
  match s with
  | EmptyString => EmptyString
  | String a s' => if isspace a then lstrip s' else s
  end.

(** [s.rstrip()] *)
Fixpoint rstrip (s : string) : string :=
  match s with
  | EmptyString => EmptyString
  | String a s' =>
      match rstrip s' with
      | EmptyString => if isspace a then EmptyString else String a EmptyString
      | r => String a r
      end
  end.

(** [s.strip()] *)
Definition strip (s : string) : string := lstrip (rstrip s).

(** [s.startswith(p)] *)
Definition startswith (s p : string) : bool := String.prefix p s.

(** [sub in s] *)
Fixpoint contains (sub s : string) : bool :=
  orb (String.prefix sub s)
      match s with
      | EmptyString => false
      | String _ s' => contains sub s'
      end.

End Py.
Export Py.

(** ** pathlib *)

Module Pathlib.

(** A pure POSIX path: the anchor (empty or the root) and the components.
    Two paths are equal when anchor and components are, as in [pathlib]. *)
Record Path : Type := mkPath { anchor : string; parts : list string }.

Definition Path_eq_dec (p q : Path) : {p = q} + {p <> q}.
Proof.
  decide equality.
  - apply (list_eq_dec string_dec).
  - apply string_dec.
Defined.

(** [p.name] *)
Definition name (p : Path) : string := last (parts p) "".

(** [p.parent] *)
Definition parent (p : Path) : Path := mkPath (anchor p) (removelast (parts p)).

(** The split point both [suffix] and [stem] use: the last dot of the name,
    when it is neither the first nor the last character. *)
Definition suffix_index (nm : string) : option nat :=
  match rfind "." nm with
  | Some i =>
      if andb (Nat.ltb 0 i) (Nat.ltb i (String.length nm - 1)) then Some i
      else None
  | None => None
  end.

(** [p.suffix] *)
Definition suffix (p : Path) : string :=
  let nm := name p in
  match suffix_index nm with
  | Some i => substring i (String.length nm - i) nm
  | None => ""
  end.

(** [p.stem] *)
Definition stem (p : Path) : string :=
  let nm := name p in
  match suffix_index nm with
  | Some i => substring 0 i nm
  | None => nm
  end.

(** [p / nm] for a name [nm] that is a single component. *)
Definition joinpath (p : Path) (nm : string) : Path :=
  mkPath (anchor p) (parts p ++ [nm]).

Fixpoint join_parts (l : list string) : string :=
  match l with
  | [] => ""
  | [a] => a
  | a :: l' => a +++ "/" +++ join_parts l'
  end.

(** [str(p)] *)
Definition str (p : Path) : string :=
  match anchor p, parts p with
  | "", [] => "."
  | a, l => a +++ join_parts l
  end.

End Pathlib.
Export Pathlib.

Notation "p // nm" := (joinpath p nm) (at level 40, left associativity).

(** ** Input and output as a trace *)

Module IO.

(** A page object of the PDF library; only its identity matters here. *)
Inductive Page : Type := page (content : string).

(** What the program does to the outside world, in the order it does it. *)
Inductive IOEvent : Type :=
| IoPrint (line : string)
    (** [print(line)] *)
| IoProgress (current total : Z) (message : string)
    (** [progress_callback(current, total, message)] *)
| IoOpenWb (file : Path)
    (** [open(file, 'wb')] returned: the file now exists and is empty *)
| IoWrite (file : Path) (content : list Page)
    (** [writer.write(output_pdf)] returned: the file holds these pages *)
| IoRun (cmd : list string)
    (** [subprocess.run(cmd, ..., check=True)] was called *)
| IoSetDefaultPrinter (printer : string)
    (** [win32print.SetDefaultPrinter(printer)] was called *)
| IoShellExecutePrint (file : string)
    (** [win32api.ShellExecute(0, "print", file, None, ".", 0)] was called *).

(** A computation reads the history (the events before it started), emits
    new events and returns a value or raises. *)
Definition M (A : Type) : Type := list IOEvent -> list IOEvent * result A.

Definition ret {A} (a : A) : M A := fun _ => ([], Ok a).

Definition raise {A} (e : exn) : M A := fun _ => ([], Raise e).

Definition lift {A} (r : result A) : M A := fun _ => ([], r).

Definition emit (ev : IOEvent) : M unit := fun _ => ([ev], Ok tt).

Definition bind {A B} (m : M A) (k : A -> M B) : M B :=
  fun h =>
    match m h with
    | (t, Ok a) => let (t', r) := k a (h ++ t) in (t ++ t', r)
    | (t, Raise e) => (t, Raise e)
    end.

(** [try: m  except <those exceptions [catches] accepts> as e: handler e] *)
Definition try_except {A} (m : M A) (catches : exn -> bool)
    (handler : exn -> M A) : M A :=
  fun h =>
    match m h with
    | (t, Raise e) =>
        if catches e then let (t', r) := handler e (h ++ t) in (t ++ t', r)
        else (t, Raise e)
    | (t, Ok a) => (t, Ok a)
    end.

(** [except Exception] *)
Definition any_exception (e : exn) : bool := true.

Definition is_ImportError (e : exn) : bool :=
  match e with ImportError => true | _ => false end.

Definition is_CalledProcessError (e : exn) : bool :=
  match e with CalledProcessError _ => true | _ => false end.

Definition when (b : bool) (m : M unit) : M unit := if b then m else ret tt.

(** A [for] loop over a list, stopped by the first exception. *)
Fixpoint for_each {A} (l : list A) (body : A -> M unit) : M unit :=
  match l with
  | [] => ret tt
  | a :: l' => bind (body a) (fun _ => for_each l' body)
  end.

(** [str(e)] *)
Definition exn_str (e : exn) : string :=
  match e with
  | ValueError msg => msg
  | ZeroDivisionError => "integer division or modulo by zero"
  | IndexError => "list index out of range"
  | ImportError => "No module named 'win32api'"
  | CalledProcessError msg => msg
  | OSError msg => msg
  | OtherException msg => msg
  end.

End IO.
Export IO.

Notation "x <- m ;; k" := (IO.bind m (fun x => k))
  (at level 61, m at next level, right associativity).
Notation "m ;;; k" := (IO.bind m (fun _ => k))
  (at level 61, right associativity).

(** ** file_manager.py *)

Module FileManager.

Record t : Type := mk {
  input_file : Path;
  output_dir : Path;
  base_name : string
}.

(** [FileManager.__init__] *)
Definition init (input_file : Path) (output_dir : option Path) : t :=
  mk input_file
     (match output_dir with Some d => d | None => parent input_file end)
     (stem input_file).

(** [FileManager.generate_output_filenames] *)
Definition generate_output_filenames (self : t) (total_pages pages_per_split : Z)
    : result (list Path) :=
  Py.bind (floordiv (total_pages + pages_per_split - 1) pages_per_split)
    (fun num_splits =>
       Ok (map (fun i =>
                  let filename :=
                    base_name self +++ "_part_" +++ format_03d (i + 1) +++ ".pdf" in
                  output_dir self // filename)
               (range1 num_splits))).

(** [FileManager.get_split_ranges] *)
Definition get_split_ranges (self : t) (total_pages pages_per_split : Z)
    : result (list (Z * Z)) :=
  Py.bind (range3 0 total_pages pages_per_split)
    (fun starts =>
       Ok (map (fun start =>
                  let end_ := Z.min (start + pages_per_split - 1) (total_pages - 1) in
                  (start + 1, end_ + 1))
               starts)).

(** The name tried for [original_path] at a counter value. *)
Definition renamed (original_path : Path) (counter : Z) : Path :=
  let stem := stem original_path in
  let suffix := suffix original_path in
  let new_name := stem +++ "_" +++ str_int counter +++ suffix in
  parent original_path // new_name.

(** The [while file_path.exists()] loop of [handle_filename_conflicts];
    [fuel] bounds the number of times the condition is tested, and [None]
    says the loop was still running when the fuel ran out. *)
Fixpoint resolve_loop (fuel : nat) (exists_ : Path -> bool)
    (original_path file_path : Path) (counter : Z) : option Path :=
  match fuel with
  | O => None
  | S fuel' =>
      if exists_ file_path then
        resolve_loop fuel' exists_ original_path
          (renamed original_path counter) (counter + 1)
      else Some file_path
  end.

(** [FileManager.handle_filename_conflicts], against the storage predicate
    [exists_] ([Path.exists]). *)
Fixpoint handle_filename_conflicts (fuel : nat) (exists_ : Path -> bool)
    (output_files : list Path) : option (list Path) :=
  match output_files with
  | [] => Some []
  | file_path :: rest =>
      match resolve_loop fuel exists_ file_path file_path 1 with
      | None => None
      | Some confirmed =>
          match handle_filename_conflicts fuel exists_ rest with
          | None => None
          | Some confirmed_files => Some (confirmed :: confirmed_files)
          end
      end
  end.

(** A storage snapshot: the finite list of the paths that exist. *)
Definition exists_in (storage : list Path) (p : Path) : bool :=
  if in_dec Path_eq_dec p storage then true else false.

(** What a path is on the disk. *)
Inductive Kind : Type := RegularFile | Directory.

(** [FileManager.validate_input]; [kind_of] says what exists at a path. *)
Definition validate_input (kind_of : Path -> option Kind) (self : t) : M bool :=
  match kind_of (input_file self) with
  | None =>
      emit (IoPrint ("Error: Input file '" +++ str (input_file self)
                       +++ "' does not exist.")) ;;;
      ret false
  | Some Directory =>
      emit (IoPrint ("Error: '" +++ str (input_file self)
                       +++ "' is not a file.")) ;;;
      ret false
  | Some RegularFile =>
      when (negb (String.eqb (lower (suffix (input_file self))) ".pdf"))
        (emit (IoPrint ("Warning: '" +++ str (input_file self)
                          +++ "' may not be a PDF file."))) ;;;
      ret true
  end.

(** [FileManager.cleanup_temp_files]: [disk] lists the paths that exist,
    [unlink_error] says for which paths [Path.unlink] raises, and the result
    is what was printed and the paths that exist afterwards. *)
Fixpoint cleanup_temp_files (unlink_error : Path -> option exn)
    (file_list : list Path) (disk : list Path) : list IOEvent * list Path :=
  match file_list with
  | [] => ([], disk)
  | file_path :: rest =>
      if exists_in disk file_path then
        match unlink_error file_path with
        | None =>
            let (t, disk') :=
              cleanup_temp_files unlink_error rest
                (remove Path_eq_dec file_path disk) in
            (IoPrint ("Cleaned up temporary file: " +++ str file_path) :: t,
             disk')
        | Some e =>
            let (t, disk') := cleanup_temp_files unlink_error rest disk in
            (IoPrint ("Warning: Could not remove temporary file "
                        +++ str file_path +++ ": " +++ exn_str e) :: t,
             disk')
        end
      else cleanup_temp_files unlink_error rest disk
  end.

(** What [Path.mkdir(parents=True, exist_ok=True)] does. *)
Inductive MkdirResult : Type :=
| MkdirDone
| MkdirPermissionError
| MkdirRaises (e : exn).

(** [FileManager.create_output_directory] *)
Definition create_output_directory (mkdir : MkdirResult) (self : t) : M bool :=
  match mkdir with
  | MkdirDone => ret true
  | MkdirPermissionError =>
      emit (IoPrint ("Error: Permission denied creating directory '"
                       +++ str (output_dir self) +++ "'")) ;;;
      ret false
  | MkdirRaises e =>
      emit (IoPrint ("Error creating output directory: " +++ exn_str e)) ;;;
      ret false
  end.

End FileManager.

(** ** pdf_splitter.py *)

Module PDFSplitter.

(** What [pypdf.PdfReader] gives the splitter: [pages[i]] returns a page or
    raises (a damaged object, say), and the encryption flag. *)
Record PdfReader : Type := mkReader {
  pages : list (result Page);
  is_encrypted_flag : bool
}.

Record t : Type := mk {
  input_file : Path;
  reader : option PdfReader;
  total_pages : Z
}.

(** The storage the splitter writes to: whether [open(file, 'wb')] and
    [writer.write] succeed for a file. *)
Record Storage : Type := mkStorage {
  open_wb : Path -> result unit;
  write : Path -> list Page -> result unit
}.

(** [PDFSplitter.__init__] *)
Definition init (input_file : Path) : t := mk input_file None 0.

(** [PDFSplitter.load_pdf]; [opened] is what [PdfReader(str(input_file))]
    returns or raises. *)
Definition load_pdf (opened : result PdfReader) (self : t) : M (bool * t) :=
  match opened with
  | Ok r =>
      let self' := mk (input_file self) (Some r) (len (pages r)) in
      if total_pages self' =? 0 then
        emit (IoPrint ("Error: PDF file '" +++ str (input_file self)
                         +++ "' has no pages.")) ;;;
        ret (false, self')
      else
        emit (IoPrint ("Successfully loaded PDF: "
                         +++ str_int (total_pages self') +++ " pages")) ;;;
        ret (true, self')
  | Raise e =>
      emit (IoPrint ("Error loading PDF file '" +++ str (input_file self)
                       +++ "': " +++ exn_str e)) ;;;
      ret (false, self)
  end.

(** [PDFSplitter.get_total_pages] *)
Definition get_total_pages (self : t) : Z := total_pages self.

(** [PDFSplitter.validate_split_parameters] *)
Definition validate_split_parameters (self : t) (pages_per_split : Z)
    : bool * string :=
  if pages_per_split <=? 0 then
    (false, "Pages per split must be greater than 0")
  else if pages_per_split >=? total_pages self then
    (false, "Pages per split (" +++ str_int pages_per_split
              +++ ") should be less than total pages ("
              +++ str_int (total_pages self) +++ ")")
  else (true, "").

(** [PDFSplitter._get_page_ranges] *)
Definition _get_page_ranges (self : t) (pages_per_split : Z)
    : result (list (Z * Z)) :=
  Py.bind (range3 0 (total_pages self) pages_per_split)
    (fun starts =>
       Ok (map (fun start =>
                  let end_ :=
                    Z.min (start + pages_per_split - 1) (total_pages self - 1) in
                  (start + 1, end_ + 1))
               starts)).

(** The dictionary [calculate_split_info] returns. *)
Record SplitInfo : Type := mkInfo {
  info_total_pages : Z;
  info_pages_per_split : Z;
  num_splits : Z;
  last_split_pages : Z;
  ranges : list (Z * Z)
}.

(** [PDFSplitter.calculate_split_info] *)
Definition calculate_split_info (self : t) (pages_per_split : Z)
    : result SplitInfo :=
  Py.bind (floordiv (total_pages self + pages_per_split - 1) pages_per_split)
    (fun num_splits =>
  Py.bind (modulo (total_pages self) pages_per_split)
    (fun last_split_pages =>
       let last_split_pages :=
         if last_split_pages =? 0 then pages_per_split else last_split_pages in
  Py.bind (_get_page_ranges self pages_per_split)
    (fun ranges =>
       Ok (mkInfo (total_pages self) pages_per_split num_splits
                  last_split_pages ranges)))).

(** The inner loop of [split_pdf]: [self.reader.pages[page_num]] for
    [page_num] in [range(start_page - 1, end_page)], in order. *)
Fixpoint add_pages (r : PdfReader) (page_nums : list Z) : result (list Page) :=
  match page_nums with
  | [] => Ok []
  | page_num :: rest =>
      Py.bind (Py.bind (getitem (pages r) page_num) (fun p => p))
        (fun p => Py.bind (add_pages r rest) (fun ps => Ok (p :: ps)))
  end.

Definition created_line (output_file : Path) (start_page end_page : Z) : string :=
  "Created: " +++ str output_file +++ " (pages " +++ str_int start_page
    +++ "-" +++ str_int end_page +++ ")".

(** One turn of the [for i, (start_page, end_page) in enumerate(ranges)]
    loop of [split_pdf]. *)
Definition split_range (st : Storage) (r : PdfReader) (n_ranges : Z)
    (output_files : list Path) (progress_callback : bool)
    (item : Z * (Z * Z)) : M unit :=
  let '(i, (start_page, end_page)) := item in
  when progress_callback
    (emit (IoProgress (i + 1) n_ranges ("Creating part " +++ str_int (i + 1)))) ;;;
  writer <- lift (add_pages r (range2 (start_page - 1) end_page)) ;;
  output_file <- lift (getitem output_files i) ;;
  lift (open_wb st output_file) ;;;
  emit (IoOpenWb output_file) ;;;
  lift (write st output_file writer) ;;;
  emit (IoWrite output_file writer) ;;;
  emit (IoPrint (created_line output_file start_page end_page)).

(** [PDFSplitter.split_pdf]; [progress_callback] says whether a callback
    was passed: a call of it is recorded as an event and taken to return. *)
Definition split_pdf (st : Storage) (self : t) (pages_per_split : Z)
    (output_files : list Path) (progress_callback : bool) : M bool :=
  match reader self with
  | None =>
      emit (IoPrint "Error: PDF not loaded. Call load_pdf() first.") ;;;
      ret false
  | Some r =>
      try_except
        (ranges <- lift (_get_page_ranges self pages_per_split) ;;
         for_each (enumerate ranges)
           (split_range st r (len ranges) output_files progress_callback) ;;;
         ret true)
        any_exception
        (fun e =>
           emit (IoPrint ("Error during PDF splitting: " +++ exn_str e)) ;;;
           ret false)
  end.

(** [PDFSplitter.is_encrypted] *)
Definition is_encrypted (self : t) : bool :=
  match reader self with
  | Some r => is_encrypted_flag r
  | None => false
  end.

(** [PDFSplitter.extract_page_range] *)
Definition extract_page_range (st : Storage) (self : t)
    (start_page end_page : Z) (output_file : Path) : M bool :=
  match reader self with
  | None =>
      emit (IoPrint "Error: PDF not loaded. Call load_pdf() first.") ;;;
      ret false
  | Some r =>
      try_except
        (if orb (orb (start_page <? 1) (end_page >? total_pages self))
                (start_page >? end_page)
         then
           emit (IoPrint ("Error: Invalid page range " +++ str_int start_page
                            +++ "-" +++ str_int end_page)) ;;;
           ret false
         else
           writer <- lift (add_pages r (range2 (start_page - 1) end_page)) ;;
           lift (open_wb st output_file) ;;;
           emit (IoOpenWb output_file) ;;;
           lift (write st output_file writer) ;;;
           emit (IoWrite output_file writer) ;;;
           emit (IoPrint ("Extracted pages " +++ str_int start_page +++ "-"
                            +++ str_int end_page +++ " to: "
                            +++ str output_file)) ;;;
           ret true)
        any_exception
        (fun e =>
           emit (IoPrint ("Error extracting page range: " +++ exn_str e)) ;;;
           ret false)
  end.

(** The line [preview_split] prints for the range at index [i]. *)
Definition preview_line (item : Z * (Z * Z)) : string :=
  let '(i, (start, end_)) := item in
  "  Part " +++ format_03d (i + 1) +++ ": pages " +++ str_int start +++ "-"
    +++ str_int end_ +++ " (" +++ str_int (end_ - start + 1) +++ " pages)".

(** [PDFSplitter.preview_split]; nothing catches what
    [calculate_split_info] raises. *)
Definition preview_split (self : t) (pages_per_split : Z) : M unit :=
  match reader self with
  | None =>
      emit (IoPrint "Error: PDF not loaded. Call load_pdf() first.")
  | Some _ =>
      split_info <- lift (calculate_split_info self pages_per_split) ;;
      emit (IoPrint (nl +++ "--- Split Preview ---")) ;;;
      emit (IoPrint ("Input file: " +++ str (input_file self))) ;;;
      emit (IoPrint ("Total pages: " +++ str_int (info_total_pages split_info))) ;;;
      emit (IoPrint ("Pages per split: "
                       +++ str_int (info_pages_per_split split_info))) ;;;
      emit (IoPrint ("Number of output files: "
                       +++ str_int (num_splits split_info))) ;;;
      emit (IoPrint ("Last file will have: "
                       +++ str_int (last_split_pages split_info) +++ " pages")) ;;;
      emit (IoPrint (nl +++ "Page ranges:")) ;;;
      for_each (enumerate (ranges split_info))
        (fun item => emit (IoPrint (preview_line item))) ;;;
      emit (IoPrint ("--- End Preview ---" +++ nl))
  end.

End PDFSplitter.

(** ** printer_manager.py *)

Module PrinterManager.

(** A Python [dict] with string keys: the entries in insertion order, and
    [d[k] = v] replaces the value of a key already present in place. *)
Definition dict (V : Type) : Type := list (string * V).

Fixpoint dict_set {V} (d : dict V) (k : string) (v : V) : dict V :=
  match d with
  | [] => [(k, v)]
  | (k', v') :: d' =>
      if String.eqb k' k then (k', v) :: d' else (k', v') :: dict_set d' k v
  end.



Record t : Type := mk { system : string }.

(** The outside world of the printer: which files exist, whether the
    [win32api] and [win32print] modules can be imported, and what an external
    call (a subprocess or a Windows API call) answers given the events before
    it. *)
Record World : Type := mkWorld {
  file_exists : Path -> bool;
  win32_importable : bool;
  respond : list IOEvent -> IOEvent -> result unit
}.

(** An external call: recorded, then answered by the world. *)
Definition call (w : World) (ev : IOEvent) : M unit :=
  fun h => ([ev], respond w h ev).

(** [if printer_name:] *)
Definition given (printer_name : option string) : bool :=
  match printer_name with
  | Some s => negb (String.eqb s "")
  | None => false
  end.

(** [printer_name or 'default'] *)
Definition or_default (printer_name : option string) : string :=
  match printer_name with
  | Some s => if String.eqb s "" then "default" else s
  | None => "default"
  end.

Definition printer_args (printer_name : option string) : list string :=
  match printer_name with
  | Some s => if String.eqb s "" then [] else ["-P"; s]
  | None => []
  end.

(** The [-o key=value] arguments, in the order of the dictionary. *)
Definition option_args (print_options : option (dict string)) : list string :=
  match print_options with
  | Some opts =>
      flat_map (fun kv => ["-o"; fst kv +++ "=" +++ snd kv]) opts
  | None => []
  end.

(** The command [_print_mac] and [_print_linux] build. *)
Definition lpr_cmd (file_path : Path) (printer_name : option string)
    (print_options : option (dict string)) : list string :=
  ["lpr"] ++ printer_args printer_name ++ option_args print_options
    ++ [str file_path].

(** [PrinterManager._print_mac] *)
Definition _print_mac (w : World) (file_path : Path)
    (printer_name : option string) (print_options : option (dict string))
    : M (bool * string) :=
  try_except
    (call w (IoRun (lpr_cmd file_path printer_name print_options)) ;;;
     ret (true, "Sent to printer: " +++ or_default printer_name))
    is_CalledProcessError
    (fun e => ret (false, "Mac print failed: " +++ exn_str e)).

(** [PrinterManager._print_linux] *)
Definition _print_linux (w : World) (file_path : Path)
    (printer_name : option string) (print_options : option (dict string))
    : M (bool * string) :=
  try_except
    (call w (IoRun (lpr_cmd file_path printer_name print_options)) ;;;
     ret (true, "Sent to printer: " +++ or_default printer_name))
    is_CalledProcessError
    (fun e => ret (false, "Linux print failed: " +++ exn_str e)).

Definition powershell_cmd (file_path : Path) : list string :=
  ["powershell"; "-Command";
   "Start-Process -FilePath '" +++ str file_path +++ "' -Verb Print"].

(** [PrinterManager._print_windows] *)
Definition _print_windows (w : World) (file_path : Path)
    (printer_name : option string) (print_options : option (dict string))
    : M (bool * string) :=
  try_except
    (lift (if win32_importable w then Ok tt else Raise ImportError) ;;;
     when (given printer_name)
       (call w (IoSetDefaultPrinter (or_default printer_name))) ;;;
     call w (IoShellExecutePrint (str file_path)) ;;;
     ret (true, "Sent to printer: " +++ or_default printer_name))
    is_ImportError
    (fun _ =>
       try_except
         (call w (IoRun (powershell_cmd file_path)) ;;;
          ret (true, "Sent to printer via PowerShell"))
         is_CalledProcessError
         (fun e => ret (false, "PowerShell print failed: " +++ exn_str e))).

(** [PrinterManager.print_file] *)
Definition print_file (w : World) (self : t) (file_path : Path)
    (printer_name : option string) (print_options : option (dict string))
    : M (bool * string) :=
  if negb (file_exists w file_path) then
    ret (false, "File not found: " +++ str file_path)
  else if negb (String.eqb (lower (suffix file_path)) ".pdf") then
    ret (false, "Only PDF files are supported for printing")
  else
    try_except
      (if String.eqb (system self) "Windows" then
         _print_windows w file_path printer_name print_options
       else if String.eqb (system self) "Darwin" then
         _print_mac w file_path printer_name print_options
       else if String.eqb (system self) "Linux" then
         _print_linux w file_path printer_name print_options
       else ret (false, "Printing not supported on " +++ system self))
      any_exception
      (fun e => ret (false, "Print error: " +++ exn_str e)).

(** The check mark and the cross of the two report lines, as UTF-8. *)
Definition check_mark : string :=
  String (ascii_of_nat 226) (String (ascii_of_nat 156)
    (String (ascii_of_nat 147) "")).
Definition cross_mark : string :=
  String (ascii_of_nat 226) (String (ascii_of_nat 156)
    (String (ascii_of_nat 151) "")).

Definition report_line (file_path : Path) (outcome : bool * string) : string :=
  if fst outcome then check_mark +++ " Printed: " +++ name file_path
  else cross_mark +++ " Failed: " +++ name file_path +++ " - " +++ snd outcome.

(** The [for i, file_path in enumerate(file_paths)] loop of
    [print_multiple_files], with the dictionary [results] passed along. *)
Fixpoint print_loop (w : World) (self : t) (n_files : Z)
    (printer_name : option string) (print_options : option (dict string))
    (progress_callback : bool) (items : list (Z * Path))
    (results : dict (bool * string)) : M (dict (bool * string)) :=
  match items with
  | [] => ret results
  | (i, file_path) :: rest =>
      when progress_callback
        (emit (IoProgress (i + 1) n_files ("Printing " +++ name file_path))) ;;;
      outcome <- print_file w self file_path printer_name print_options ;;
      let results := dict_set results (str file_path) outcome in
      emit (IoPrint (report_line file_path outcome)) ;;;
      print_loop w self n_files printer_name print_options progress_callback
        rest results
  end.

(** [PrinterManager.print_multiple_files]; as in [split_pdf], a call of the
    progress callback is recorded and taken to return. *)
Definition print_multiple_files (w : World) (self : t)
    (file_paths : list Path) (printer_name : option string)
    (print_options : option (dict string)) (progress_callback : bool)
    : M (dict (bool * string)) :=
  print_loop w self (len file_paths) printer_name print_options
    progress_callback (enumerate file_paths) [].

(** What the listing and status commands meet outside: whether
    [win32print] can be imported, what [win32print.EnumPrinters] returns
    (the names, the third component of each entry) or raises, what
    [win32print.GetDefaultPrinter] returns or raises, and the standard
    output [subprocess.run] captures for a command, or what it raises. *)
Record Shell : Type := mkShell {
  win32print_importable : bool;
  enum_printers : list IOEvent -> result (list string);
  default_printer_win32 : list IOEvent -> result string;
  run_stdout : list IOEvent -> list string -> result string
}.

(** [subprocess.run(cmd, capture_output=True, text=True, check=True).stdout] *)
Definition run (sh : Shell) (cmd : list string) : M string :=
  fun h => ([IoRun cmd], run_stdout sh h cmd).

(** [import win32print] *)
Definition import_win32print (sh : Shell) : M unit :=
  lift (if win32print_importable sh then Ok tt else Raise ImportError).

(** The loop of [_list_mac_printers] and [_list_linux_printers] over the
    lines of the output of [lpstat -p]. *)
Fixpoint collect_printers (lines : list string) : result (list string) :=
  match lines with
  | [] => Ok []
  | line :: rest =>
      if startswith line "printer " then
        Py.bind (getitem (split_ws line) 1)
          (fun printer_name =>
             Py.bind (collect_printers rest)
               (fun printers => Ok (printer_name :: printers)))
      else collect_printers rest
  end.

(** [PrinterManager._list_mac_printers] *)
Definition _list_mac_printers (sh : Shell) : M (list string) :=
  try_except
    (stdout <- run sh ["lpstat"; "-p"] ;;
     lift (collect_printers (split_on (ascii_of_nat 10) stdout)))
    is_CalledProcessError
    (fun e =>
       emit (IoPrint ("Error getting Mac printers: " +++ exn_str e)) ;;;
       ret []).

(** [PrinterManager._list_linux_printers] *)
Definition _list_linux_printers (sh : Shell) : M (list string) :=
  try_except
    (stdout <- run sh ["lpstat"; "-p"] ;;
     lift (collect_printers (split_on (ascii_of_nat 10) stdout)))
    is_CalledProcessError
    (fun e =>
       emit (IoPrint ("Error getting Linux printers: " +++ exn_str e)) ;;;
       ret []).

(** [[line.strip() for line in lines if line.strip()]] *)
Definition stripped_lines (lines : list string) : list string :=
  map strip (filter (fun line => negb (String.eqb (strip line) "")) lines).

(** [PrinterManager._list_windows_printers] *)
Definition _list_windows_printers (sh : Shell) : M (list string) :=
  try_except
    (import_win32print sh ;;;
     (fun h => ([], enum_printers sh h)))
    is_ImportError
    (fun _ =>
       try_except
         (stdout <- run sh ["powershell"; "-Command";
                            "Get-Printer | Select-Object -ExpandProperty Name"] ;;
          ret (stripped_lines (split_on (ascii_of_nat 10) stdout)))
         is_CalledProcessError
         (fun e =>
            emit (IoPrint ("Error getting Windows printers via PowerShell: "
                             +++ exn_str e)) ;;;
            ret [])).

(** [PrinterManager.list_printers] *)
Definition list_printers (sh : Shell) (self : t) : M (list string) :=
  try_except
    (if String.eqb (system self) "Windows" then _list_windows_printers sh
     else if String.eqb (system self) "Darwin" then _list_mac_printers sh
     else if String.eqb (system self) "Linux" then _list_linux_printers sh
     else
       emit (IoPrint ("Unsupported operating system: " +++ system self)) ;;;
       ret [])
    any_exception
    (fun e =>
       emit (IoPrint ("Error listing printers: " +++ exn_str e)) ;;;
       ret []).

(** The loop of [_get_unix_default_printer] over the lines of the output of
    [lpstat -d]. *)
Fixpoint find_default (lines : list string) : result (option string) :=
  match lines with
  | [] => Ok None
  | line :: rest =>
      if contains "system default destination:" line then
        Py.bind (getitem (split_on ":" line) (-1))
          (fun last_part => Ok (Some (strip last_part)))
      else find_default rest
  end.

(** [PrinterManager._get_unix_default_printer] *)
Definition _get_unix_default_printer (sh : Shell) : M (option string) :=
  try_except
    (stdout <- run sh ["lpstat"; "-d"] ;;
     lift (find_default (split_on (ascii_of_nat 10) stdout)))
    is_CalledProcessError
    (fun _ => ret None).

(** [PrinterManager._get_windows_default_printer] *)
Definition _get_windows_default_printer (sh : Shell) : M (option string) :=
  try_except
    (import_win32print sh ;;;
     nm <- (fun h => ([], default_printer_win32 sh h)) ;;
     ret (Some nm))
    is_ImportError
    (fun _ =>
       try_except
         (stdout <- run sh
            ["powershell"; "-Command";
             "Get-WmiObject -Query 'SELECT * FROM Win32_Printer WHERE Default = True' | Select-Object -ExpandProperty Name"] ;;
          ret (Some (strip stdout)))
         is_CalledProcessError
         (fun _ => ret None)).

(** [PrinterManager.get_default_printer] *)
Definition get_default_printer (sh : Shell) (self : t) : M (option string) :=
  try_except
    (if String.eqb (system self) "Windows" then
       _get_windows_default_printer sh
     else if orb (String.eqb (system self) "Darwin")
                 (String.eqb (system self) "Linux") then
       _get_unix_default_printer sh
     else ret None)
    any_exception
    (fun e =>
       emit (IoPrint ("Error getting default printer: " +++ exn_str e)) ;;;
       ret None).

(** The dictionary [check_printer_status] returns. *)
Record Status : Type := mkStatus {
  status_name : string;
  status_available : bool;
  status_text : string
}.

(** [PrinterManager.check_printer_status]; nothing catches an exception
    other than [CalledProcessError]. *)
Definition check_printer_status (sh : Shell) (self : t) (printer_name : string)
    : M Status :=
  try_except
    (if orb (String.eqb (system self) "Darwin")
            (String.eqb (system self) "Linux") then
       stdout <- run sh ["lpstat"; "-p"; printer_name] ;;
       if contains "disabled" (lower stdout) then
         ret (mkStatus printer_name false "disabled")
       else if contains "idle" (lower stdout) then
         ret (mkStatus printer_name true "idle")
       else ret (mkStatus printer_name true "unknown")
     else ret (mkStatus printer_name true "unknown"))
    is_CalledProcessError
    (fun _ => ret (mkStatus printer_name false "not found")).

(** [PrinterManager.get_system_type] *)
Definition get_system_type (self : t) : string := system self.

(** [PrinterManager.get_print_options_help] *)
Definition get_print_options_help : dict string :=
  [("sides", "one-sided, two-sided-long-edge, two-sided-short-edge");
   ("media", "a4, letter, legal, etc.");
   ("orientation", "portrait, landscape");
   ("quality", "draft, normal, high");
   ("copies", "number of copies (1, 2, 3, etc.)");
   ("page-ranges", "1-5, 1,3,5, etc.");
   ("finishings",
    "staple-top-left, staple-top-right, staple-bottom-left, staple-bottom-right, staple-dual-left, staple-dual-top, staple-none")].

End PrinterManager.

(** ** main.py *)

Module Main.

(** The error of unpacking a list into [key, value]. *)
Definition unpack2 (parts : list string) : result (string * string) :=
  match parts with
  | [key; value] => Ok (key, value)
  | [] | [_] => Raise (ValueError "not enough values to unpack (expected 2)")
  | _ => Raise (ValueError "too many values to unpack (expected 2)")
  end.

(** The loop of [main] over the options of [--print-options]. *)
Fixpoint parse_options (options : list string)
    (print_options : PrinterManager.dict string)
    : result (PrinterManager.dict string) :=
  match options with
  | [] => Ok print_options
  | option :: rest =>
      Py.bind (unpack2 (split_on "=" option))
        (fun kv =>
           parse_options rest
             (PrinterManager.dict_set print_options (strip (fst kv))
                (strip (snd kv))))
  end.

Definition is_ValueError (e : exn) : bool :=
  match e with ValueError _ => true | _ => false end.

(** The parsing of [args.print_options] in [main] (lines 168 to 176). *)
Definition parse_print_options (arg : option string)
    : M (PrinterManager.dict string) :=
  match arg with
  | None => ret []
  | Some a =>
      if String.eqb a "" then ret []
      else
        try_except
          (lift (parse_options (split_on "," a) []))
          is_ValueError
          (fun _ =>
             emit (IoPrint
                     "Warning: Invalid print options format. Using defaults.") ;;;
             ret [])
  end.

(** The arguments [argparse] hands to [main]; a path is given in normal
    form, so that its text is [str] of it, and an input file or an output
    directory that is absent or empty is [None]. *)
Record Args : Type := mkArgs {
  input_file : option Path;
  pages : Z;
  output : option Path;
  print_ : bool;
  printer : option string;
  preview : bool;
  list_printers : bool;
  print_options : option string;
  force : bool;
  verbose : bool
}.

(** What [main] meets outside: what exists at a path, what opening the PDF
    gives, the size of the input file as [f"{size:.2f}"] writes it (or what
    [stat] raises) and the title of the metadata when there is one, what
    [mkdir] does, the output paths that exist before the split, the storage
    the splitter writes to, what [input] returns, [platform.system()], and
    the services of the printer manager. *)
Record Env : Type := mkEnv {
  kind_of : Path -> option FileManager.Kind;
  opened_pdf : result PDFSplitter.PdfReader;
  file_size_text : result string;
  title : option string;
  mkdir : FileManager.MkdirResult;
  existing : list Path;
  storage : PDFSplitter.Storage;
  input : list IOEvent -> string -> result string;
  platform_system : string;
  shell : PrinterManager.Shell;
  win32_importable : bool;
  respond : list IOEvent -> IOEvent -> result unit
}.

(** [str(b)] for a boolean. *)
Definition str_bool (b : bool) : string := if b then "True" else "False".

(** [sep.join(l)] *)
Fixpoint join_str (sep : string) (l : list string) : string :=
  match l with
  | [] => ""
  | [x] => x
  | x :: l' => x +++ sep +++ join_str sep l'
  end.

(** [pathlib.Path(s).name] for the text of a path in normal form. *)
Definition name_of_text (s : string) : string :=
  if String.eqb s "." then ""
  else match rfind "/" s with
       | Some i => substring (S i) (String.length s - S i) s
       | None => s
       end.

(** [input(prompt)] *)
Definition read_input (env : Env) (prompt : string) : M string :=
  fun h => ([], input env h prompt).

(** The events so far. *)
Definition history : M (list IOEvent) := fun h => ([], Ok h).

(** The files a trace opened for writing: they exist from then on. *)
Fixpoint created (t : list IOEvent) : list Path :=
  match t with
  | [] => []
  | IoOpenWb f :: t' => f :: created t'
  | _ :: t' => created t'
  end.

(** [print_available_printers] *)
Definition print_available_printers (env : Env) : M unit :=
  let printer_manager := PrinterManager.mk (platform_system env) in
  emit (IoPrint ("System: " +++ PrinterManager.get_system_type printer_manager)) ;;;
  printers <- PrinterManager.list_printers (shell env) printer_manager ;;
  match printers with
  | [] => emit (IoPrint "No printers found or unable to list printers.")
  | _ =>
      emit (IoPrint (nl +++ "Available printers (" +++ str_int (len printers)
                       +++ "):")) ;;;
      for_each (enumerate_from 1 printers)
        (fun item => emit (IoPrint ("  " +++ str_int (fst item) +++ ". "
                                      +++ snd item))) ;;;
      default_printer <-
        PrinterManager.get_default_printer (shell env) printer_manager ;;
      when (PrinterManager.given default_printer)
        (emit (IoPrint (nl +++ "Default printer: "
                          +++ PrinterManager.or_default default_printer))) ;;;
      emit (IoPrint (nl +++ "Print options (use with --print-options):")) ;;;
      for_each PrinterManager.get_print_options_help
        (fun item => emit (IoPrint ("  " +++ fst item +++ ": " +++ snd item)))
  end.

(** The lines [main] prints first when [--verbose] is given. *)
Definition verbose_header (args : Args) (input_path : Path) : M unit :=
  emit (IoPrint ("Input file: " +++ str input_path)) ;;;
  emit (IoPrint ("Pages per split: " +++ str_int (pages args))) ;;;
  emit (IoPrint ("Output directory: "
                   +++ match output args with
                       | Some d => str d
                       | None => "same as input"
                       end)) ;;;
  emit (IoPrint ("Print enabled: " +++ str_bool (print_ args))) ;;;
  emit (IoPrint ("Preview mode: " +++ str_bool (preview args))).

(** The lines about the PDF [main] prints when [--verbose] is given, from
    what [get_pdf_info] returns. *)
Definition pdf_information (env : Env) (pdf_splitter : PDFSplitter.t) : M unit :=
  size <- lift (file_size_text env) ;;
  emit (IoPrint (nl +++ "PDF Information:")) ;;;
  emit (IoPrint ("  Pages: " +++ str_int (PDFSplitter.total_pages pdf_splitter))) ;;;
  emit (IoPrint ("  Size: " +++ size +++ " MB")) ;;;
  emit (IoPrint ("  Encrypted: "
                   +++ str_bool (PDFSplitter.is_encrypted pdf_splitter))) ;;;
  match title env with
  | Some t =>
      when (negb (String.eqb t "Unknown")) (emit (IoPrint ("  Title: " +++ t)))
  | None => ret tt
  end.

(** [response not in ['y', 'yes']] *)
Definition declined (response : string) : bool :=
  negb (orb (String.eqb response "y") (String.eqb response "yes")).

(** The question [main] asks when output files exist and [--force] is not
    given; the answer says whether to go on. *)
Definition confirm_overwrite (env : Env) (output_files : list Path) : M bool :=
  let existing_files :=
    filter (FileManager.exists_in (existing env)) output_files in
  match existing_files with
  | [] => ret true
  | _ =>
      emit (IoPrint (nl +++ "Warning: " +++ str_int (len existing_files)
                       +++ " output files already exist:")) ;;;
      for_each (firstn 5 existing_files)
        (fun f => emit (IoPrint ("  " +++ str f))) ;;;
      when (len existing_files >? 5)
        (emit (IoPrint ("  ... and " +++ str_int (len existing_files - 5)
                          +++ " more"))) ;;;
      response <- read_input env (nl +++ "Overwrite existing files? (y/N): ") ;;
      let response := lower (strip response) in
      if declined response then
        emit (IoPrint "Operation cancelled.") ;;; ret false
      else ret true
  end.

(** [sum(1 for success, _ in results.values() if success)] *)
Definition count_successful (results : PrinterManager.dict (bool * string)) : Z :=
  len (filter (fun entry => fst (snd entry)) results).

(** The printing part of [main]: [None] when the user cancels, otherwise
    the number of successful prints. *)
Definition print_outputs (env : Env) (args : Args) (output_files : list Path)
    : M (option Z) :=
  emit (IoPrint (nl +++ "Initializing printer...")) ;;;
  let printer_manager := PrinterManager.mk (platform_system env) in
  print_options <- parse_print_options (print_options args) ;;
  go_on <-
    (if PrinterManager.given (printer args) then
       available_printers <-
         PrinterManager.list_printers (shell env) printer_manager ;;
       if existsb (String.eqb (PrinterManager.or_default (printer args)))
                  available_printers
       then ret true
       else
         emit (IoPrint ("Warning: Printer '"
                          +++ PrinterManager.or_default (printer args)
                          +++ "' not found.")) ;;;
         emit (IoPrint ("Available printers: "
                          +++ join_str ", " available_printers)) ;;;
         response <- read_input env "Continue with default printer? (y/N): " ;;
         let response := lower (strip response) in
         if declined response then
           emit (IoPrint "Printing cancelled.") ;;; ret false
         else ret true
     else ret true) ;;
  if negb go_on then ret None
  else
    emit (IoPrint ("Printing " +++ str_int (len output_files) +++ " files...")) ;;;
    h <- history ;;
    let world :=
      PrinterManager.mkWorld
        (FileManager.exists_in (existing env ++ created h))
        (win32_importable env) (respond env) in
    results <-
      PrinterManager.print_multiple_files world printer_manager output_files
        (printer args) (Some print_options) (verbose args) ;;
    let successful_prints := count_successful results in
    emit (IoPrint (nl +++ PrinterManager.check_mark +++ " Successfully sent "
                     +++ str_int successful_prints +++ "/"
                     +++ str_int (len output_files) +++ " files to printer")) ;;;
    when (successful_prints <? len output_files)
      (emit (IoPrint (nl +++ "Failed prints:")) ;;;
       for_each (filter (fun entry => negb (fst (snd entry))) results)
         (fun entry =>
            emit (IoPrint ("  " +++ name_of_text (fst entry) +++ ": "
                             +++ snd (snd entry))))) ;;;
    ret (Some successful_prints).

(** [main], from the parsed arguments to the exit status; [parser.error]
    ends the program with status 2.  The loop of
    [handle_filename_conflicts] is given fuel beyond the number of existing
    output paths, which is enough for it to return. *)
Definition main (env : Env) (args : Args) : M Z :=
  if list_printers args then
    print_available_printers env ;;; ret 0
  else
    match input_file args with
    | None => ret 2
    | Some input_path =>
        match kind_of env input_path with
        | None =>
            emit (IoPrint ("Error: Input file '" +++ str input_path
                             +++ "' does not exist.")) ;;;
            ret 1
        | Some _ =>
            when (verbose args) (verbose_header args input_path) ;;;
            let file_manager := FileManager.init input_path (output args) in
            let pdf_splitter := PDFSplitter.init input_path in
            valid_input <- FileManager.validate_input (kind_of env) file_manager ;;
            if negb valid_input then ret 1
            else
              emit (IoPrint "Loading PDF file...") ;;;
              loaded <- PDFSplitter.load_pdf (opened_pdf env) pdf_splitter ;;
              let pdf_splitter := snd loaded in
              if negb (fst loaded) then ret 1
              else
                when (verbose args) (pdf_information env pdf_splitter) ;;;
                let validation :=
                  PDFSplitter.validate_split_parameters pdf_splitter
                    (pages args) in
                if negb (fst validation) then
                  emit (IoPrint ("Error: " +++ snd validation)) ;;; ret 1
                else if preview args then
                  PDFSplitter.preview_split pdf_splitter (pages args) ;;; ret 0
                else
                  created_dir <-
                    FileManager.create_output_directory (mkdir env)
                      file_manager ;;
                  if negb created_dir then ret 1
                  else
                    let total_pages :=
                      PDFSplitter.get_total_pages pdf_splitter in
                    output_files <-
                      lift (FileManager.generate_output_filenames file_manager
                              total_pages (pages args)) ;;
                    go_on <- (if force args then ret true
                              else confirm_overwrite env output_files) ;;
                    if negb go_on then ret 0
                    else
                      match FileManager.handle_filename_conflicts
                              (S (S (List.length (existing env))))
                              (FileManager.exists_in (existing env))
                              output_files with
                      | None =>
                          raise (OtherException
                                   "handle_filename_conflicts is still running")
                      | Some output_files =>
                          emit (IoPrint (nl +++ "Splitting PDF into "
                                           +++ str_int (len output_files)
                                           +++ " files...")) ;;;
                          success <-
                            PDFSplitter.split_pdf (storage env) pdf_splitter
                              (pages args) output_files (verbose args) ;;
                          if negb success then
                            emit (IoPrint "PDF splitting failed.") ;;; ret 1
                          else
                            emit (IoPrint (nl +++ PrinterManager.check_mark
                                             +++ " Successfully created "
                                             +++ str_int (len output_files)
                                             +++ " PDF files")) ;;;
                            sent <-
                              (if print_ args
                               then print_outputs env args output_files
                               else ret (Some 0)) ;;
                            match sent with
                            | None => ret 0
                            | Some successful_prints =>
                                emit (IoPrint (nl +++ "--- Summary ---")) ;;;
                                emit (IoPrint ("Input file: "
                                                 +++ str input_path)) ;;;
                                emit (IoPrint ("Output files: "
                                                 +++ str_int (len output_files))) ;;;
                                emit (IoPrint
                                        ("Output directory: "
                                           +++ str (FileManager.output_dir
                                                      file_manager))) ;;;
                                when (print_ args)
                                  (emit (IoPrint
                                           ("Print jobs sent: "
                                              +++ str_int successful_prints
                                              +++ "/"
                                              +++ str_int (len output_files)))) ;;;
                                ret 0
                            end
                      end
        end
    end.

(** The [if __name__ == "__main__"] block: the exit status of the program.
    An exception [main] lets out is reported and gives status 1; the
    traceback goes to the standard error stream and is no event here, and
    nothing here interrupts the program from the keyboard. *)
Definition program (env : Env) (args : Args) : M Z :=
  try_except (main env args) any_exception
    (fun e =>
       emit (IoPrint (nl +++ "Unexpected error: " +++ exn_str e)) ;;;
       ret 1).

End Main.

(** ** Vocabulary of the properties *)

Module Spec.

(** The ranges [rs] tile the interval from [lo] to [hi]: the first starts
    at [lo], each is non-empty, each next one starts one past the end of
    the one before, and the last ends at [hi]. *)
Fixpoint tiles (lo : Z) (rs : list (Z * Z)) (hi : Z) : Prop :=
  match rs with
  | [] => lo = hi + 1
  | (a, b) :: rest => a = lo /\ a <= b /\ tiles (b + 1) rest hi
  end.

(** The body of the loop both range computations share. *)
Definition range_of (total cap start : Z) : Z * Z :=
  (start + 1, Z.min (start + cap - 1) (total - 1) + 1).

(** What both range computations return for a positive cap. *)
Definition plan (total cap : Z) : list (Z * Z) :=
  map (range_of total cap)
      (range_items (Z.to_nat (range_len 0 total cap)) 0 cap).

(** The number of pages of a range. *)
Definition range_size (r : Z * Z) : Z := snd r - fst r + 1.

(** Decimal digits. *)
Definition is_digit (c : ascii) : bool :=
  andb (Nat.leb 48 (nat_of_ascii c)) (Nat.leb (nat_of_ascii c) 57).

Fixpoint all_digits (s : string) : Prop :=
  match s with
  | EmptyString => True
  | String c s' => is_digit c = true /\ all_digits s'
  end.

(** The string is empty or starts with a character that is no digit. *)
Definition no_digit_ahead (s : string) : Prop :=
  match s with
  | EmptyString => True
  | String c _ => is_digit c = false
  end.

(** Reading a string of digits, leading zeros allowed. *)
Definition decode (s : string) : option Z :=
  option_map Z.of_uint (NilEmpty.uint_of_string s).

(** The stem of the [i]-th generated name. *)
Definition part_stem (fm : FileManager.t) (i : Z) : string :=
  FileManager.base_name fm +++ "_part_" +++ format_03d i.

(** The [i]-th generated output path, [i] counted from 1. *)
Definition generated (fm : FileManager.t) (i : Z) : Path :=
  FileManager.output_dir fm
    // (FileManager.base_name fm +++ "_part_" +++ format_03d i +++ ".pdf").

(** [r] is what conflict resolution makes of [p] against the predicate
    [exists_]: [p] itself when it does not exist, and otherwise the renamed
    path of the least counter, from 1, that does not exist. *)
Definition resolved_from (exists_ : Path -> bool) (p r : Path) : Prop :=
  (exists_ p = false /\ r = p) \/
  (exists_ p = true /\
   exists k, 1 <= k /\ r = FileManager.renamed p k /\ exists_ r = false /\
             forall j, 1 <= j < k -> exists_ (FileManager.renamed p j) = true).

(** [p] is the [i]-th generated path or a renaming of it. *)
Definition in_family (fm : FileManager.t) (i : Z) (p : Path) : Prop :=
  p = generated fm i \/
  exists k, 1 <= k /\ p = FileManager.renamed (generated fm i) k.

(** The file manager and the paths of the worked examples. *)
Definition doc_manager : FileManager.t :=
  FileManager.init (mkPath "" ["in"; "doc.pdf"]) (Some (mkPath "" ["out"])).
Definition doc_part (nm : string) : Path := mkPath "" ["out"; nm].

(** The files a trace wrote completely, in order. *)
Fixpoint written (t : list IOEvent) : list Path :=
  match t with
  | [] => []
  | IoWrite f _ :: t' => f :: written t'
  | _ :: t' => written t'
  end.

(** The turns of the splitting loop for which a progress event was emitted. *)
Fixpoint progressed (t : list IOEvent) : list Z :=
  match t with
  | [] => []
  | IoProgress current _ _ :: t' => current :: progressed t'
  | _ :: t' => progressed t'
  end.

(** What one turn of the splitting loop emits and how it ends; the turn
    does not look at the history. *)
Definition turn (st : PDFSplitter.Storage) (r : PDFSplitter.PdfReader)
    (n_ranges : Z) (output_files : list Path) (progress_callback : bool)
    (item : Z * (Z * Z)) : list IOEvent * result unit :=
  PDFSplitter.split_range st r n_ranges output_files progress_callback item [].

(** A document of [n] readable pages. *)
Definition good_pages (n : nat) : list (result Page) :=
  map (fun i => Ok (page (str_int i))) (range1 (Z.of_nat n)).

(** A loaded document of 20 pages. *)
Definition doc20 : PDFSplitter.t :=
  PDFSplitter.mk (mkPath "" ["in"; "doc.pdf"])
    (Some (PDFSplitter.mkReader (good_pages 20) false)) 20.

(** The same document with a ninth page that cannot be read, so that
    extraction fails for the second of the three ranges of a cap of 8. *)
Definition doc20_damaged : PDFSplitter.t :=
  PDFSplitter.mk (mkPath "" ["in"; "doc.pdf"])
    (Some (PDFSplitter.mkReader
             (good_pages 8 ++ [Raise (OtherException "damaged page")]
                ++ good_pages 11)
             false)) 20.

(** A storage that accepts every write. *)
Definition sound_storage : PDFSplitter.Storage :=
  PDFSplitter.mkStorage (fun _ => Ok tt) (fun _ _ => Ok tt).

Definition three_parts : list Path :=
  [doc_part "doc_part_001.pdf"; doc_part "doc_part_002.pdf";
   doc_part "doc_part_003.pdf"].

(** The lines a trace printed, in order. *)
Fixpoint printed (t : list IOEvent) : list string :=
  match t with
  | [] => []
  | IoPrint line :: t' => line :: printed t'
  | _ :: t' => printed t'
  end.

(** The commands a trace submitted to [subprocess.run], in order. *)
Fixpoint submitted (t : list IOEvent) : list (list string) :=
  match t with
  | [] => []
  | IoRun cmd :: t' => cmd :: submitted t'
  | _ :: t' => submitted t'
  end.

(** [print_file] hands a path to the platform when the file exists and has
    the suffix [.pdf] in any letter case. *)
Definition printable (w : PrinterManager.World) (p : Path) : bool :=
  andb (PrinterManager.file_exists w p) (String.eqb (lower (suffix p)) ".pdf").

(** The dictionary built by assigning, in order, each outcome to the key of
    its path. *)
Definition assign_all (paths : list Path) (outcomes : list (bool * string))
    (results : PrinterManager.dict (bool * string))
    : PrinterManager.dict (bool * string) :=
  fold_left (fun d po => PrinterManager.dict_set d (str (fst po)) (snd po))
            (combine paths outcomes) results.

(** A Linux print service that rejects the job for [out/doc_part_002.pdf]
    and accepts every other one; all three parts exist. *)
Definition linux : PrinterManager.t := PrinterManager.mk "Linux".
Definition rejecting_second : PrinterManager.World :=
  PrinterManager.mkWorld
    (fun _ => true) false
    (fun _ ev =>
       match ev with
       | IoRun cmd =>
           if String.eqb (last cmd "") "out/doc_part_002.pdf"
           then Raise (CalledProcessError "lpr returned non-zero exit status 1")
           else Ok tt
       | _ => Ok tt
       end).

End Spec.
Export Spec.

(** ** Further vocabulary *)

Module Observe.

(** The files a trace wrote completely, with what was written, in order. *)
Fixpoint writes (t : list IOEvent) : list (Path * list Page) :=
  match t with
  | [] => []
  | IoWrite f content :: t' => (f, content) :: writes t'
  | _ :: t' => writes t'
  end.

(** The files a trace opened for writing, in order. *)
Fixpoint opened (t : list IOEvent) : list Path :=
  match t with
  | [] => []
  | IoOpenWb f :: t' => f :: opened t'
  | _ :: t' => opened t'
  end.

(** Pages [start] to [stop], counted from 1 and both included, of a list. *)
Definition slice {A} (l : list A) (start stop : Z) : list A :=
  firstn (Z.to_nat (stop - start + 1)) (skipn (Z.to_nat (start - 1)) l).

(** A loaded splitter over the readable pages [ps]. *)
Definition loaded (input_file : Path) (ps : list Page) : PDFSplitter.t :=
  PDFSplitter.mk input_file
    (Some (PDFSplitter.mkReader (map Ok ps) false)) (len ps).

(** The storage accepts every file. *)
Definition accepts_all (st : PDFSplitter.Storage) : Prop :=
  (forall f, PDFSplitter.open_wb st f = Ok tt) /\
  (forall f w, PDFSplitter.write st f w = Ok tt).

(** The number of pages the ranges of a list hold together. *)
Definition pages_in (rs : list (Z * Z)) : Z :=
  fold_right Z.add 0 (map range_size rs).

(** The lines [preview_split] prints for a split plan, in order. *)
Definition preview_lines (self : PDFSplitter.t) (info : PDFSplitter.SplitInfo)
    : list string :=
  [nl +++ "--- Split Preview ---";
   "Input file: " +++ str (PDFSplitter.input_file self);
   "Total pages: " +++ str_int (PDFSplitter.info_total_pages info);
   "Pages per split: " +++ str_int (PDFSplitter.info_pages_per_split info);
   "Number of output files: " +++ str_int (PDFSplitter.num_splits info);
   "Last file will have: " +++ str_int (PDFSplitter.last_split_pages info)
     +++ " pages";
   nl +++ "Page ranges:"]
  ++ map PDFSplitter.preview_line (enumerate (PDFSplitter.ranges info))
  ++ ["--- End Preview ---" +++ nl].

(** The name of the platform in the message [_print_mac] or [_print_linux]
    returns when [lpr] fails. *)
Definition lpr_platform (system : string) : string :=
  if String.eqb system "Darwin" then "Mac" else "Linux".

(** What [print_file] answers on Linux and macOS for a printable path, given
    what [subprocess.run] did. *)
Definition lpr_outcome (system : string) (printer_name : option string)
    (ran : result unit) : bool * string :=
  match ran with
  | Ok _ => (true, "Sent to printer: " +++ PrinterManager.or_default printer_name)
  | Raise (CalledProcessError msg) =>
      (false, lpr_platform system +++ " print failed: " +++ msg)
  | Raise e => (false, "Print error: " +++ exn_str e)
  end.



(** The character occurs in the string. *)
Fixpoint has_char (c : ascii) (s : string) : bool :=
  match s with
  | EmptyString => false
  | String a s' => orb (Ascii.eqb a c) (has_char c s')
  end.


(** [sep.join(l)] for a separator of one character. *)
Fixpoint join (c : ascii) (l : list string) : string :=
  match l with
  | [] => EmptyString
  | [x] => x
  | x :: l' => x +++ String c (join c l')
  end.

(** The line feed as a character. *)
Definition LF : ascii := ascii_of_nat 10.






End Observe.
Export Observe.

(** ** What a computation does to files *)

Module Effects.

(** Every event a computation emits satisfies [P], whatever came before
    the computation and however it ends. *)
Definition within {A} (P : IOEvent -> Prop) (m : M A) : Prop :=
  forall h, Forall P (fst (m h)).

(** The events that create or fill a file. *)
Definition touches_file (ev : IOEvent) : bool :=
  match ev with
  | IoOpenWb _ | IoWrite _ _ => true
  | _ => false
  end.

(** An event that touches no file. *)
Definition harmless (ev : IOEvent) : Prop := touches_file ev = false.

(** A trace and a computation that touch no file. *)
Definition quiet (t : list IOEvent) : Prop := Forall harmless t.
Definition silent {A} (m : M A) : Prop := within harmless m.

(** An event that creates or fills a file does so at a path [allowed]
    holds for. *)
Definition keeps_to (allowed : Path -> Prop) (ev : IOEvent) : Prop :=
  match ev with
  | IoOpenWb f | IoWrite f _ => allowed f
  | _ => True
  end.

(** A computation that never raises. *)
Definition total {A} (m : M A) : Prop := forall h, exists a, snd (m h) = Ok a.

(** A computation that never raises and returns a value [R] holds for. *)
Definition yields {A} (m : M A) (R : A -> Prop) : Prop :=
  forall h, exists a, snd (m h) = Ok a /\ R a.

(** What a computation did to files and how it ended. *)
Definition outcome {A} (m : M A) (h : list IOEvent)
    : list Path * list (Path * list Page) * result A :=
  (opened (fst (m h)), writes (fst (m h)), snd (m h)).

(** A path that nothing occupies in a snapshot of the storage. *)
Definition free (storage : list Path) (p : Path) : Prop :=
  FileManager.exists_in storage p = false.

(** A run of [main] that gets past its checks: an input file is named and
    is a regular file, the PDF opens with the reader [r], the cap is
    positive and below the page count, and with [--verbose] the size of the
    input file can be read. *)
Definition validated (env : Main.Env) (args : Main.Args) (p : Path)
    (r : PDFSplitter.PdfReader) : Prop :=
  Main.list_printers args = false /\
  Main.input_file args = Some p /\
  Main.kind_of env p = Some FileManager.RegularFile /\
  Main.opened_pdf env = Ok r /\
  0 < Main.pages args < len (PDFSplitter.pages r) /\
  (Main.verbose args = true -> exists size, Main.file_size_text env = Ok size).

(** The splitter [load_pdf] leaves for the input file [p] and the reader
    [r]. *)
Definition splitter_of (p : Path) (r : PDFSplitter.PdfReader) : PDFSplitter.t :=
  PDFSplitter.mk p (Some r) (len (PDFSplitter.pages r)).

(** An unencrypted document of the readable pages [ps]. *)
Definition readable (ps : list Page) : PDFSplitter.PdfReader :=
  PDFSplitter.mkReader (map Ok ps) false.

(** What [main] checks before it creates a file: the run is not one of
    [--list-printers] or [--preview], the input file is named and is a
    regular file, the PDF opens, the cap is positive and below the page
    count, and the output directory is there. *)
Definition checks_passed (env : Main.Env) (args : Main.Args) : Prop :=
  Main.list_printers args = false /\
  Main.preview args = false /\
  exists p r,
    Main.input_file args = Some p /\
    Main.kind_of env p = Some FileManager.RegularFile /\
    Main.opened_pdf env = Ok r /\
    0 < Main.pages args < len (PDFSplitter.pages r) /\
    Main.mkdir env = FileManager.MkdirDone.

(** The names [main] asks the file manager for, for a document of
    [total_pages] pages. *)
Definition requested (args : Main.Args) (p : Path) (total_pages : Z)
    : result (list Path) :=
  FileManager.generate_output_filenames
    (FileManager.init p (Main.output args)) total_pages (Main.pages args).

(** The paths [main] hands to the splitter. *)
Definition resolved (env : Main.Env) (args : Main.Args) (p : Path)
    (total_pages : Z) : option (list Path) :=
  match requested args p total_pages with
  | Ok gen =>
      FileManager.handle_filename_conflicts
        (S (S (List.length (Main.existing env))))
        (FileManager.exists_in (Main.existing env)) gen
  | Raise _ => None
  end.

(** The question about existing files lets the run go on: [--force] is
    given, or the user gives an answer that is [y] or [yes] once stripped
    and put in lower case. *)
Definition goes_on (env : Main.Env) (args : Main.Args) (answer : string)
    : Prop :=
  Main.force args = true \/
  ((forall h prompt, Main.input env h prompt = Ok answer) /\
   Main.declined (lower (strip answer)) = false).

(** A desk with a document at [in/doc.pdf], the first part already
    present in [out], a user who gives one answer to every question, a
    Linux system without printers, and a print service that answers
    [respond]. *)
Definition desk_of (r : PDFSplitter.PdfReader)
    (respond : list IOEvent -> IOEvent -> result unit) (answer : string)
    : Main.Env :=
  Main.mkEnv
    (fun p => if Path_eq_dec p (mkPath "" ["in"; "doc.pdf"])
              then Some FileManager.RegularFile else None)
    (Ok r) (Ok "0.25") None FileManager.MkdirDone
    [doc_part "doc_part_001.pdf"] sound_storage
    (fun _ _ => Ok answer) "Linux"
    (PrinterManager.mkShell false (fun _ => Ok []) (fun _ => Ok "")
       (fun _ _ => Ok ""))
    false respond.

(** The twenty pages of the worked examples. *)
Definition twenty : list Page := map (fun i => page (str_int i)) (range1 20).

(** The desk with the document of twenty readable pages, a user who
    answers [n] and a print service that accepts every job. *)
Definition desk : Main.Env :=
  desk_of (readable twenty) (fun _ _ => Ok tt) "n".

(** The same desk with a user who answers [Y]. *)
Definition desk_yes : Main.Env :=
  desk_of (readable twenty) (fun _ _ => Ok tt) " Y ".

(** The same desk with a print service that rejects every job. *)
Definition desk_no_printing : Main.Env :=
  desk_of (readable twenty)
    (fun _ _ => Raise (CalledProcessError "lpr: no default destination")) "n".

(** The same desk with a document whose ninth page cannot be read. *)
Definition desk_damaged : Main.Env :=
  desk_of (PDFSplitter.mkReader
             (good_pages 8 ++ [Raise (OtherException "damaged page")]
                ++ good_pages 11) false)
    (fun _ _ => Ok tt) "n".

(** [in/doc.pdf --pages 8 --output out], with the switches [--print],
    [--preview], [--list-printers] and [--force] as given. *)
Definition desk_args (print_ preview list_printers force : bool) : Main.Args :=
  Main.mkArgs (Some (mkPath "" ["in"; "doc.pdf"])) 8 (Some (mkPath "" ["out"]))
    print_ None preview list_printers None force false.

(** The same with [--print --printer HP --force]. *)
Definition desk_args_printer : Main.Args :=
  Main.mkArgs (Some (mkPath "" ["in"; "doc.pdf"])) 8 (Some (mkPath "" ["out"]))
    true (Some "HP") false false None true false.

End Effects.
Export Effects.

(** * Properties *)

(** ** Ranges *)

Section Ranges.

Lemma range_items_length n s step : List.length (range_items n s step) = n.
Proof. revert s; induction n; intros; simpl; auto. Qed.

Lemma range_items_nth n s step k :
  (k < n)%nat ->
  nth_error (range_items n s step) k = Some (s + Z.of_nat k * step).
Proof.
  revert s k; induction n as [|n IH]; intros s k Hk; [lia|].
  destruct k as [|k]; cbn [nth_error range_items].
  - f_equal; lia.
  - rewrite IH by lia. rewrite Nat2Z.inj_succ. f_equal; ring.
Qed.

Lemma range_len_pos total cap :
  0 < cap -> 0 < total ->
  range_len 0 total cap = (total + cap - 1) / cap.
Proof.
  intros Hc Ht. unfold range_len.
  destruct (Z.ltb_spec 0 cap); [|lia].
  destruct (Z.ltb_spec 0 total); [|lia].
  replace (total + cap - 1) with (total - 1 + 1 * cap) by lia.
  replace (total - 0 - 1) with (total - 1) by lia.
  now rewrite Z.div_add by lia.
Qed.

Lemma ceil_bounds total cap :
  0 < cap -> 0 < total ->
  let n := (total + cap - 1) / cap in
  0 < n /\ (n - 1) * cap < total <= n * cap.
Proof.
  intros Hc Ht n.
  assert (Hn : n = (total - 1) / cap + 1).
  { unfold n. replace (total + cap - 1) with (total - 1 + 1 * cap) by lia.
    now rewrite Z.div_add by lia. }
  pose proof (Z.div_pos (total - 1) cap ltac:(lia) Hc).
  pose proof (Z.mul_div_le (total - 1) cap Hc).
  pose proof (Z.mul_succ_div_gt (total - 1) cap Hc).
  nia.
Qed.

Lemma tiles_range_items total cap n s :
  0 < cap ->
  s + Z.of_nat n * cap < total <= s + (Z.of_nat n + 1) * cap ->
  tiles (s + 1) (map (range_of total cap) (range_items (S n) s cap)) total.
Proof.
  intros Hc. revert s. induction n as [|n IH]; intros s Hs.
  - simpl. unfold range_of. repeat split; lia.
  - change (range_items (S (S n)) s cap)
      with (s :: range_items (S n) (s + cap) cap).
    rewrite map_cons. unfold range_of at 1. cbn [tiles].
    split; [reflexivity|]. split; [lia|].
    replace (Z.min (s + cap - 1) (total - 1) + 1 + 1) with (s + cap + 1) by lia.
    apply IH. lia.
Qed.

Lemma tiles_le lo rs hi : tiles lo rs hi -> lo <= hi + 1.
Proof.
  revert lo; induction rs as [|[a b] rs IH]; intros lo H; simpl in H.
  - lia.
  - destruct H as (-> & Hab & H). apply IH in H. lia.
Qed.

Lemma tiles_cover lo rs hi :
  tiles lo rs hi ->
  forall p, lo <= p <= hi <-> exists r, In r rs /\ fst r <= p <= snd r.
Proof.
  revert lo; induction rs as [|[a b] rs IH]; intros lo H p; simpl in H.
  - split; [lia|]. intros (r & [] & _).
  - destruct H as (-> & Hab & H).
    pose proof (tiles_le _ _ _ H) as Hle.
    specialize (IH _ H p). split.
    + intros Hp. destruct (Z_le_gt_dec p b).
      * exists (lo, b). simpl. split; [now left | lia].
      * destruct IH as [IH _]. destruct IH as (r & Hr & Hpr); [lia|].
        exists r. split; [now right | assumption].
    + intros (r & [<- | Hr] & Hpr); simpl in Hpr.
      * lia.
      * destruct IH as [_ IH].
        assert (b + 1 <= p <= hi) by (apply IH; eauto). lia.
Qed.

Lemma tiles_nth_bounds lo rs hi i r :
  tiles lo rs hi -> nth_error rs i = Some r ->
  lo <= fst r /\ fst r <= snd r /\ snd r <= hi.
Proof.
  revert lo i; induction rs as [|[a b] rs IH]; intros lo i H Hi.
  - destruct i; discriminate.
  - simpl in H. destruct H as (-> & Hab & H).
    pose proof (tiles_le _ _ _ H).
    destruct i as [|i]; simpl in Hi.
    + injection Hi as <-. simpl. lia.
    + specialize (IH _ _ H Hi). lia.
Qed.

Lemma tiles_disjoint lo rs hi :
  tiles lo rs hi ->
  forall i j ri rj p,
    nth_error rs i = Some ri -> nth_error rs j = Some rj ->
    fst ri <= p <= snd ri -> fst rj <= p <= snd rj -> i = j.
Proof.
  revert lo; induction rs as [|[a b] rs IH]; intros lo H i j ri rj p Hi Hj Hpi Hpj.
  - destruct i; discriminate.
  - simpl in H. destruct H as (-> & Hab & H).
    destruct i as [|i], j as [|j]; simpl in Hi, Hj.
    + reflexivity.
    + injection Hi as <-. simpl in Hpi.
      pose proof (tiles_nth_bounds _ _ _ _ _ H Hj). lia.
    + injection Hj as <-. simpl in Hpj.
      pose proof (tiles_nth_bounds _ _ _ _ _ H Hi). lia.
    + f_equal. eapply IH; eauto.
Qed.

(** Adjacent ranges: the next one starts one past the end of this one. *)
Lemma tiles_adjacent lo rs hi :
  tiles lo rs hi ->
  forall i ri rj,
    nth_error rs i = Some ri -> nth_error rs (S i) = Some rj ->
    fst rj = snd ri + 1.
Proof.
  revert lo; induction rs as [|[a b] rs IH]; intros lo H i ri rj Hi Hj.
  - destruct i; discriminate.
  - simpl in H. destruct H as (-> & Hab & H).
    destruct i as [|i]; simpl in Hi, Hj.
    + injection Hi as <-. destruct rs as [|[c d] rs]; [discriminate|].
      injection Hj as <-. simpl in *. lia.
    + eapply IH; eauto.
Qed.

Lemma _get_page_ranges_plan self cap :
  0 < cap ->
  PDFSplitter._get_page_ranges self cap
  = Ok (plan (PDFSplitter.total_pages self) cap).
Proof.
  intros Hc. unfold PDFSplitter._get_page_ranges, range3.
  destruct (Z.eqb_spec cap 0); [lia|]. reflexivity.
Qed.

Lemma get_split_ranges_plan fm total cap :
  0 < cap ->
  FileManager.get_split_ranges fm total cap = Ok (plan total cap).
Proof.
  intros Hc. unfold FileManager.get_split_ranges, range3.
  destruct (Z.eqb_spec cap 0); [lia|]. reflexivity.
Qed.

Lemma plan_length total cap :
  0 < cap -> 0 < total -> len (plan total cap) = (total + cap - 1) / cap.
Proof.
  intros Hc Ht. unfold plan, len.
  rewrite length_map, range_items_length, range_len_pos by assumption.
  destruct (ceil_bounds total cap Hc Ht) as [Hn _]. lia.
Qed.

Lemma plan_tiles total cap :
  0 < cap -> 0 < total -> tiles 1 (plan total cap) total.
Proof.
  intros Hc Ht. unfold plan. rewrite range_len_pos by assumption.
  destruct (ceil_bounds total cap Hc Ht) as [Hn Hb].
  set (n := (total + cap - 1) / cap) in *.
  replace (Z.to_nat n) with (S (Z.to_nat (n - 1))) by lia.
  apply (tiles_range_items total cap (Z.to_nat (n - 1)) 0 Hc).
  rewrite Z2Nat.id by lia. lia.
Qed.

Lemma plan_nth total cap k :
  0 < cap -> 0 < total -> 0 <= k < (total + cap - 1) / cap ->
  nth_error (plan total cap) (Z.to_nat k)
  = Some (k * cap + 1, Z.min ((k + 1) * cap) total).
Proof.
  intros Hc Ht Hk. unfold plan.
  rewrite nth_error_map, range_items_nth.
  - simpl. unfold range_of. rewrite Z2Nat.id by lia. f_equal. f_equal; lia.
  - rewrite range_len_pos by assumption. lia.
Qed.

End Ranges.

(** ** The partition plan *)

(** C1. For a document of [total] pages and a cap with [0 < cap < total],
    both range computations return the same ordered list of 1-indexed
    inclusive ranges; the ranges are contiguous (each starts one past the
    end of the one before), every page of 1..total lies in a range and in
    one only, and there are ceil(total / cap) of them.  For 20 pages and a
    cap of 8 the list is (1,8), (9,16), (17,20). *)
Theorem page_ranges_partition
    (input_file : Path) (reader : option PDFSplitter.PdfReader)
    (fm : FileManager.t) (total cap : Z) :
  0 < total -> 0 < cap < total ->
  exists rs,
    PDFSplitter._get_page_ranges (PDFSplitter.mk input_file reader total) cap
      = Ok rs /\
    FileManager.get_split_ranges fm total cap = Ok rs /\
    len rs = (total + cap - 1) / cap /\
    (len rs - 1) * cap < total <= len rs * cap /\
    tiles 1 rs total /\
    (forall i ri rj,
        nth_error rs i = Some ri -> nth_error rs (S i) = Some rj ->
        fst rj = snd ri + 1) /\
    (forall p, 1 <= p <= total <-> exists r, In r rs /\ fst r <= p <= snd r) /\
    (forall i j ri rj p,
        nth_error rs i = Some ri -> nth_error rs j = Some rj ->
        fst ri <= p <= snd ri -> fst rj <= p <= snd rj -> i = j) /\
    PDFSplitter._get_page_ranges (PDFSplitter.mk input_file reader 20) 8
      = Ok [(1, 8); (9, 16); (17, 20)] /\
    FileManager.get_split_ranges fm 20 8 = Ok [(1, 8); (9, 16); (17, 20)].
Proof.
  intros Ht [Hc Hlt]. exists (plan total cap).
  pose proof (plan_tiles total cap Hc Ht) as Htiles.
  pose proof (plan_length total cap Hc Ht) as Hlen.
  pose proof (ceil_bounds total cap Hc Ht) as [_ Hb].
  split; [now rewrite _get_page_ranges_plan|].
  split; [now rewrite get_split_ranges_plan|].
  split; [assumption|].
  split; [rewrite Hlen; exact Hb|].
  split; [assumption|].
  split; [exact (tiles_adjacent _ _ _ Htiles)|].
  split; [exact (tiles_cover _ _ _ Htiles)|].
  split; [exact (tiles_disjoint _ _ _ Htiles)|].
  split; reflexivity.
Qed.

Lemma page_ranges_partition_witness :
  0 < 9 /\ 0 < 3 < 9 /\
  exists rs,
    PDFSplitter._get_page_ranges
      (PDFSplitter.mk (mkPath "" ["doc.pdf"]) None 9) 3 = Ok rs /\
    rs = [(1, 3); (4, 6); (7, 9)].
Proof.
  split; [lia|]. split; [lia|].
  destruct (page_ranges_partition (mkPath "" ["doc.pdf"]) None
              (FileManager.init (mkPath "" ["doc.pdf"]) None) 9 3)
    as (rs & H & _); [lia | lia |].
  exists rs. split; [exact H|].
  vm_compute in H. now injection H.
Defined.

(** C6. For [0 < cap < total], every range of the plan but the last has
    exactly [cap] pages, the last has between 1 and [cap], and
    [calculate_split_info] reports as [last_split_pages] the size of the last
    range: [total mod cap], or [cap] when that remainder is 0. *)
Theorem range_sizes
    (input_file : Path) (reader : option PDFSplitter.PdfReader)
    (total cap : Z) :
  0 < total -> 0 < cap < total ->
  exists info,
    PDFSplitter.calculate_split_info
      (PDFSplitter.mk input_file reader total) cap = Ok info /\
    PDFSplitter._get_page_ranges (PDFSplitter.mk input_file reader total) cap
      = Ok (PDFSplitter.ranges info) /\
    PDFSplitter.num_splits info = len (PDFSplitter.ranges info) /\
    (forall i r,
        nth_error (PDFSplitter.ranges info) i = Some r ->
        Z.of_nat i < len (PDFSplitter.ranges info) - 1 ->
        range_size r = cap) /\
    (exists r,
        nth_error (PDFSplitter.ranges info)
                  (Z.to_nat (len (PDFSplitter.ranges info) - 1)) = Some r /\
        1 <= range_size r <= cap /\
        PDFSplitter.last_split_pages info = range_size r) /\
    PDFSplitter.last_split_pages info
      = (if total mod cap =? 0 then cap else total mod cap).
Proof.
  intros Ht [Hc Hlt].
  pose proof (plan_length total cap Hc Ht) as Hlen.
  pose proof (ceil_bounds total cap Hc Ht) as [Hn Hb].
  set (n := (total + cap - 1) / cap) in *.
  unfold PDFSplitter.calculate_split_info, floordiv, modulo.
  rewrite _get_page_ranges_plan by assumption.
  cbn [PDFSplitter.total_pages].
  destruct (Z.eqb_spec cap 0); [lia|]. cbn [Py.bind].
  eexists. split; [reflexivity|]. cbn [PDFSplitter.ranges
    PDFSplitter.num_splits PDFSplitter.last_split_pages].
  split; [reflexivity|].
  split; [now rewrite Hlen|].
  split.
  - intros i r Hi Hlast. rewrite Hlen in Hlast.
    rewrite <- (Nat2Z.id i) in Hi.
    rewrite plan_nth in Hi by (fold n; lia).
    injection Hi as <-. unfold range_size; simpl. nia.
  - assert (Hmod : total mod cap = total - cap * (total / cap))
      by (rewrite Z.mod_eq by lia; reflexivity).
    pose proof (Z.mod_pos_bound total cap Hc) as Hmb.
    assert (Hsize : range_size ((n - 1) * cap + 1, Z.min ((n - 1 + 1) * cap) total)
                    = if total mod cap =? 0 then cap else total mod cap).
    { unfold range_size; cbn [fst snd].
      set (q := total / cap) in *. set (m := total mod cap) in *.
      destruct (Z.eqb_spec m 0) as [E|E].
      - assert (n = q) by nia. subst n. nia.
      - assert (n = q + 1) by nia. nia. }
    split.
    + eexists. split.
      * rewrite Hlen. apply plan_nth; fold n; lia.
      * rewrite Hsize. destruct (Z.eqb_spec (total mod cap) 0); lia.
    + reflexivity.
Qed.

Lemma range_sizes_witness :
  0 < 20 /\ 0 < 8 < 20 /\
  exists info,
    PDFSplitter.calculate_split_info
      (PDFSplitter.mk (mkPath "" ["doc.pdf"]) None 20) 8 = Ok info /\
    PDFSplitter.last_split_pages info = 4.
Proof.
  split; [lia|]. split; [lia|].
  destruct (range_sizes (mkPath "" ["doc.pdf"]) None 20 8)
    as (info & H & _); [lia | lia |].
  exists info. split; [exact H|].
  vm_compute in H. injection H as <-. reflexivity.
Defined.



(** ** Parameter validation *)

(** C2. For a loaded document ([total_pages > 0]),
    [validate_split_parameters] answers invalid, with a message, when
    [pages_per_split <= 0] and when [pages_per_split >= total_pages], and
    valid, with the empty message, when [0 < pages_per_split < total_pages];
    so it accepts exactly the caps strictly between 0 and the page count. *)
Theorem validate_split_parameters_exact
    (self : PDFSplitter.t) (pages_per_split : Z) :
  0 < PDFSplitter.total_pages self ->
  (pages_per_split <= 0 \/ pages_per_split >= PDFSplitter.total_pages self ->
   fst (PDFSplitter.validate_split_parameters self pages_per_split) = false /\
   snd (PDFSplitter.validate_split_parameters self pages_per_split) <> "") /\
  (0 < pages_per_split < PDFSplitter.total_pages self ->
   PDFSplitter.validate_split_parameters self pages_per_split = (true, "")) /\
  (fst (PDFSplitter.validate_split_parameters self pages_per_split) = true <->
   0 < pages_per_split < PDFSplitter.total_pages self).
Proof.
  intros Ht. unfold PDFSplitter.validate_split_parameters.
  destruct (Z.leb_spec pages_per_split 0) as [H0|H0];
    [|destruct (Z.geb_spec pages_per_split (PDFSplitter.total_pages self))
        as [H1|H1]]; cbn [fst snd].
  all: repeat split; intros; try discriminate; try lia.
Qed.

Lemma validate_split_parameters_exact_witness :
  0 < 20 /\
  PDFSplitter.validate_split_parameters
    (PDFSplitter.mk (mkPath "" ["doc.pdf"]) None 20) 8 = (true, "") /\
  fst (PDFSplitter.validate_split_parameters
         (PDFSplitter.mk (mkPath "" ["doc.pdf"]) None 20) 20) = false.
Proof.
  split; [lia|].
  destruct (validate_split_parameters_exact
              (PDFSplitter.mk (mkPath "" ["doc.pdf"]) None 20) 8)
    as (_ & H & _); [simpl; lia|].
  destruct (validate_split_parameters_exact
              (PDFSplitter.mk (mkPath "" ["doc.pdf"]) None 20) 20)
    as (H' & _ & _); [simpl; lia|].
  split; [apply H; simpl; lia | apply H'; simpl; lia].
Defined.

(** ** Strings, decimal numbers and paths *)

Section Strings.

Lemma append_length (s t : string) :
  String.length (s +++ t) = (String.length s + String.length t)%nat.
Proof. induction s; simpl; auto. Qed.

Lemma append_assoc (s t u : string) : (s +++ t) +++ u = s +++ t +++ u.
Proof. induction s; simpl; congruence. Qed.

Lemma append_inv_head (s t t' : string) : s +++ t = s +++ t' -> t = t'.
Proof. induction s; simpl; intros H; [assumption|]. injection H as H. auto. Qed.

Lemma append_inv_tail (s s' t : string) : s +++ t = s' +++ t -> s = s'.
Proof.
  revert s'. induction s as [|c s IH]; intros [|c' s'] H; simpl in H.
  - reflexivity.
  - apply (f_equal String.length) in H. simpl in H.
    rewrite append_length in H. lia.
  - apply (f_equal String.length) in H. simpl in H.
    rewrite append_length in H. lia.
  - injection H as -> H. f_equal. now apply IH.
Qed.

Lemma rfind_append (c : ascii) (s t : string) :
  rfind c (s +++ t)
  = match rfind c t with
    | Some i => Some (String.length s + i)%nat
    | None => rfind c s
    end.
Proof.
  induction s as [|a s IH]; simpl.
  - now destruct (rfind c t).
  - rewrite IH. now destruct (rfind c t).
Qed.

Lemma substring_append_left (s t : string) :
  substring 0 (String.length s) (s +++ t) = s.
Proof. induction s; simpl; [now destruct t | congruence]. Qed.

Lemma substring_append_right (s t : string) :
  substring (String.length s) (String.length t) (s +++ t) = t.
Proof.
  induction s; simpl; [|assumption].
  induction t; simpl; congruence.
Qed.

(** A name [s.pdf] with a non-empty [s] splits at its last dot. *)
Lemma suffix_index_pdf (s : string) :
  s <> "" -> suffix_index (s +++ ".pdf") = Some (String.length s).
Proof.
  intros Hs. unfold suffix_index. rewrite rfind_append. simpl rfind.
  rewrite append_length. simpl String.length.
  replace (String.length s + 0)%nat with (String.length s) by lia.
  destruct s as [|a s]; [congruence|]. simpl String.length.
  replace (Nat.ltb 0 (S (String.length s))) with true
    by (symmetry; apply Nat.ltb_lt; lia).
  replace (Nat.ltb (S (String.length s)) (S (String.length s) + 4 - 1)) with true
    by (symmetry; apply Nat.ltb_lt; lia).
  reflexivity.
Qed.

Lemma name_joinpath (d : Path) (nm : string) : name (d // nm) = nm.
Proof. unfold name, joinpath; simpl. apply last_last. Qed.

Lemma parent_joinpath (d : Path) (nm : string) : parent (d // nm) = d.
Proof.
  unfold parent, joinpath; simpl. rewrite removelast_last. now destruct d.
Qed.

Lemma joinpath_inj (d d' : Path) (nm nm' : string) :
  d // nm = d' // nm' -> nm = nm'.
Proof.
  unfold joinpath. intros H. injection H as _ H.
  now apply app_inj_tail in H.
Qed.

Lemma stem_pdf (d : Path) (s : string) :
  s <> "" -> stem (d // (s +++ ".pdf")) = s.
Proof.
  intros Hs. unfold stem. rewrite name_joinpath, suffix_index_pdf by assumption.
  apply substring_append_left.
Qed.

Lemma suffix_pdf (d : Path) (s : string) :
  s <> "" -> suffix (d // (s +++ ".pdf")) = ".pdf".
Proof.
  intros Hs. unfold suffix. rewrite name_joinpath, suffix_index_pdf by assumption.
  rewrite append_length.
  replace (String.length s + String.length ".pdf" - String.length s)%nat
    with (String.length ".pdf") by lia.
  apply substring_append_right.
Qed.

Lemma digits_prefix_unique (a a' t t' : string) :
  all_digits a -> all_digits a' -> no_digit_ahead t -> no_digit_ahead t' ->
  a +++ t = a' +++ t' -> a = a' /\ t = t'.
Proof.
  revert a'. induction a as [|c a IH]; intros [|c' a'] Ha Ha' Ht Ht' H;
    simpl in H.
  - auto.
  - subst t. simpl in Ht, Ha'. destruct Ha'. congruence.
  - subst t'. simpl in Ht', Ha. destruct Ha. congruence.
  - injection H as -> H. destruct Ha as [_ Ha], Ha' as [_ Ha'].
    destruct (IH a' Ha Ha' Ht Ht' H) as [-> ->]. auto.
Qed.

Lemma string_of_uint_digits (d : Decimal.uint) :
  all_digits (NilEmpty.string_of_uint d).
Proof. induction d; simpl; auto. Qed.

Lemma zeros_digits (n : nat) : all_digits (zeros n).
Proof. induction n; simpl; auto. Qed.

Lemma all_digits_append (s t : string) :
  all_digits s -> all_digits t -> all_digits (s +++ t).
Proof. induction s; simpl; intuition. Qed.

(** For a non-negative integer [str] is the decimal writing of a numeral
    that reads back as the integer. *)
Lemma str_int_nonneg (z : Z) :
  0 <= z ->
  exists d, str_int z = NilEmpty.string_of_uint d /\ Z.of_uint d = z.
Proof.
  intros Hz. destruct z as [|p|p]; [| |lia].
  - exists (D0 Nil). split; reflexivity.
  - exists (Pos.to_uint p). split.
    + unfold str_int. simpl.
      pose proof (DecimalPos.Unsigned.to_uint_nonnil p).
      now destruct (Pos.to_uint p).
    + unfold Z.of_uint. now rewrite DecimalPos.Unsigned.of_to.
Qed.

Lemma decode_zeros (n : nat) (d : Decimal.uint) :
  decode (zeros n +++ NilEmpty.string_of_uint d) = Some (Z.of_uint d).
Proof.
  unfold decode. induction n as [|n IH]; simpl.
  - now rewrite NilEmpty.usu.
  - destruct (NilEmpty.uint_of_string (zeros n +++ NilEmpty.string_of_uint d));
      simpl in *; [|discriminate].
    injection IH as <-. reflexivity.
Qed.

Lemma str_int_digits (z : Z) : 0 <= z -> all_digits (str_int z).
Proof.
  intros Hz. destruct (str_int_nonneg z Hz) as (d & -> & _).
  apply string_of_uint_digits.
Qed.

Lemma str_int_inj (z z' : Z) :
  0 <= z -> 0 <= z' -> str_int z = str_int z' -> z = z'.
Proof.
  intros Hz Hz' H.
  destruct (str_int_nonneg z Hz) as (d & E & <-).
  destruct (str_int_nonneg z' Hz') as (d' & E' & <-).
  pose proof (decode_zeros 0 d) as D. pose proof (decode_zeros 0 d') as D'.
  simpl in D, D'. rewrite <- E in D. rewrite <- E' in D'. congruence.
Qed.

Lemma format_03d_digits (z : Z) : 0 <= z -> all_digits (format_03d z).
Proof.
  intros Hz. unfold format_03d. destruct (Z.ltb_spec z 0); [lia|].
  apply all_digits_append; [apply zeros_digits | now apply str_int_digits].
Qed.

Lemma format_03d_inj (z z' : Z) :
  0 <= z -> 0 <= z' -> format_03d z = format_03d z' -> z = z'.
Proof.
  intros Hz Hz' H. unfold format_03d, zfill in H.
  destruct (Z.ltb_spec z 0); [lia|]. destruct (Z.ltb_spec z' 0); [lia|].
  destruct (str_int_nonneg z Hz) as (d & E & <-).
  destruct (str_int_nonneg z' Hz') as (d' & E' & <-).
  rewrite E, E' in H.
  pose proof (decode_zeros (3 - String.length (NilEmpty.string_of_uint d)) d) as D.
  pose proof (decode_zeros (3 - String.length (NilEmpty.string_of_uint d')) d') as D'.
  congruence.
Qed.

End Strings.

(** ** Output names *)

Section Names.

Lemma range_items_In n s x :
  In x (range_items n s 1) -> s <= x < s + Z.of_nat n.
Proof.
  revert s; induction n as [|n IH]; intros s H; [destruct H|].
  cbn [range_items] in H. destruct H as [<- | H]; [lia|].
  apply IH in H. lia.
Qed.

Lemma range_items_NoDup n s : NoDup (range_items n s 1).
Proof.
  revert s; induction n as [|n IH]; intros s; cbn [range_items]; constructor.
  - intros H. apply range_items_In in H. lia.
  - apply IH.
Qed.

Lemma range_len_unit n : range_len 0 n 1 = Z.max 0 n.
Proof.
  unfold range_len. change (0 <? 1) with true. cbv iota.
  destruct (Z.ltb_spec 0 n); cbv iota; [|lia].
  rewrite Z.div_1_r. lia.
Qed.

Lemma range1_length n : len (range1 n) = Z.max 0 n.
Proof.
  unfold range1, range2, len.
  rewrite range_items_length, range_len_unit. lia.
Qed.

Lemma range1_In n x : In x (range1 n) -> 0 <= x < n.
Proof.
  unfold range1, range2. rewrite range_len_unit. intros H.
  apply range_items_In in H. lia.
Qed.

Lemma range1_nth n k :
  0 <= k < n -> nth_error (range1 n) (Z.to_nat k) = Some k.
Proof.
  intros Hk. unfold range1, range2. rewrite range_len_unit.
  rewrite range_items_nth by lia. f_equal. lia.
Qed.

Lemma map_NoDup_on {A B} (f : A -> B) (l : list A) :
  (forall x y, In x l -> In y l -> f x = f y -> x = y) ->
  NoDup l -> NoDup (map f l).
Proof.
  intros Hinj Hnd. induction Hnd as [|a l Ha Hnd IH]; simpl; constructor.
  - intros Hin. apply in_map_iff in Hin. destruct Hin as (y & Hy & Hyl).
    assert (y = a) by (apply Hinj; simpl; auto). subst y. contradiction.
  - apply IH. intros x y Hx Hy. apply Hinj; simpl; auto.
Qed.

Variable fm : FileManager.t.

Lemma part_stem_nonempty i : part_stem fm i <> "".
Proof.
  unfold part_stem. intros H. apply (f_equal String.length) in H.
  rewrite append_length in H. simpl in H. lia.
Qed.

Lemma generated_stem_form i :
  generated fm i = FileManager.output_dir fm // (part_stem fm i +++ ".pdf").
Proof.
  unfold generated, part_stem. now rewrite !append_assoc.
Qed.

Lemma generated_parts i :
  parent (generated fm i) = FileManager.output_dir fm /\
  stem (generated fm i) = part_stem fm i /\
  suffix (generated fm i) = ".pdf".
Proof.
  rewrite generated_stem_form. pose proof (part_stem_nonempty i).
  now rewrite parent_joinpath, stem_pdf, suffix_pdf.
Qed.

Lemma renamed_generated i k :
  FileManager.renamed (generated fm i) k
  = FileManager.output_dir fm
      // (part_stem fm i +++ "_" +++ str_int k +++ ".pdf").
Proof.
  unfold FileManager.renamed.
  destruct (generated_parts i) as (-> & -> & ->). reflexivity.
Qed.

Lemma generate_output_filenames_ok total pps :
  pps <> 0 ->
  FileManager.generate_output_filenames fm total pps
  = Ok (map (fun i => generated fm (i + 1)) (range1 ((total + pps - 1) / pps))).
Proof.
  intros Hp. unfold FileManager.generate_output_filenames, floordiv.
  destruct (Z.eqb_spec pps 0); [contradiction|]. reflexivity.
Qed.

(** A path belongs to the family of one index only. *)
Lemma in_family_inj i j p :
  0 <= i -> 0 <= j -> in_family fm i p -> in_family fm j p -> i = j.
Proof.
  intros Hi Hj Fi Fj.
  assert (forall n, 0 <= n -> in_family fm n p ->
            exists x, no_digit_ahead x /\
              p = FileManager.output_dir fm
                    // (FileManager.base_name fm +++ "_part_" +++ format_03d n +++ x))
    as Hform.
  { intros n Hn [-> | (k & Hk & ->)].
    - exists ".pdf". split; reflexivity.
    - exists ("_" +++ str_int k +++ ".pdf"). split; [reflexivity|].
      rewrite renamed_generated. unfold part_stem. now rewrite !append_assoc. }
  destruct (Hform i Hi Fi) as (x & Hx & E).
  destruct (Hform j Hj Fj) as (y & Hy & E').
  rewrite E in E'. apply joinpath_inj in E'.
  apply append_inv_head in E'. simpl in E'.
  injection E' as E'.
  apply digits_prefix_unique in E'; auto using format_03d_digits.
  destruct E' as [E' _]. now apply format_03d_inj.
Qed.

End Names.

(** ** Conflict resolution *)

Section Resolve.

Lemma renamed_inj (p : Path) (k k' : Z) :
  0 <= k -> 0 <= k' ->
  FileManager.renamed p k = FileManager.renamed p k' -> k = k'.
Proof.
  intros Hk Hk' H. unfold FileManager.renamed in H.
  apply joinpath_inj, append_inv_head in H. simpl in H. injection H as H.
  apply append_inv_tail in H. now apply str_int_inj.
Qed.

Lemma renamed_parts (p : Path) (k : Z) :
  parent (FileManager.renamed p k) = parent p /\
  name (FileManager.renamed p k) = stem p +++ "_" +++ str_int k +++ suffix p.
Proof.
  unfold FileManager.renamed. now rewrite parent_joinpath, name_joinpath.
Qed.

Variable exists_ : Path -> bool.

(** What the loop returns, when it returns: the path it was at when that
    does not exist, and otherwise the renamed path of the least counter,
    from the current one, that does not exist. *)
Lemma resolve_loop_sound fuel original file_path counter r :
  FileManager.resolve_loop fuel exists_ original file_path counter = Some r ->
  (exists_ file_path = false /\ r = file_path) \/
  (exists_ file_path = true /\
   exists k, counter <= k /\ r = FileManager.renamed original k /\
             exists_ r = false /\
             forall j, counter <= j < k ->
                       exists_ (FileManager.renamed original j) = true).
Proof.
  revert file_path counter.
  induction fuel as [|fuel IH]; intros file_path counter H; [discriminate|].
  cbn [FileManager.resolve_loop] in H.
  destruct (exists_ file_path) eqn:E.
  - right. split; [reflexivity|].
    apply IH in H. destruct H as [[E' ->] | [E' (k & Hk & -> & Hr & Hall)]].
    + exists counter. repeat split; auto; try lia.
    + exists k. repeat split; auto; try lia.
      intros j Hj. destruct (Z.eq_dec j counter) as [->|]; [assumption|].
      apply Hall. lia.
  - left. injection H as <-. auto.
Qed.

Lemma resolve_loop_more_fuel fuel fuel' original file_path counter r :
  (fuel <= fuel')%nat ->
  FileManager.resolve_loop fuel exists_ original file_path counter = Some r ->
  FileManager.resolve_loop fuel' exists_ original file_path counter = Some r.
Proof.
  revert fuel' file_path counter.
  induction fuel as [|fuel IH]; intros fuel' file_path counter Hle H;
    [discriminate|].
  destruct fuel' as [|fuel']; [lia|].
  cbn [FileManager.resolve_loop] in *.
  destruct (exists_ file_path); [|assumption].
  apply IH; [lia | assumption].
Qed.

Lemma handle_filename_conflicts_sound fuel files rs :
  FileManager.handle_filename_conflicts fuel exists_ files = Some rs ->
  Forall2 (resolved_from exists_) files rs.
Proof.
  revert rs. induction files as [|p files IH]; intros rs H;
    cbn [FileManager.handle_filename_conflicts] in H.
  - injection H as <-. constructor.
  - destruct (FileManager.resolve_loop fuel exists_ p p 1) as [r|] eqn:E;
      [|discriminate].
    destruct (FileManager.handle_filename_conflicts fuel exists_ files)
      as [rs'|]; [|discriminate].
    injection H as <-. constructor; [|now apply IH].
    apply resolve_loop_sound in E. exact E.
Qed.

End Resolve.

Section ResolveSnapshot.

Variable storage : list Path.

Lemma exists_in_true p : FileManager.exists_in storage p = true <-> In p storage.
Proof.
  unfold FileManager.exists_in.
  destruct (in_dec Path_eq_dec p storage); split; auto; discriminate.
Qed.

(** Against a finite snapshot the loop ends: each further turn needs one
    more existing renamed path, and different counters give different
    paths. *)
Lemma resolve_loop_terminates_in fuel original file_path counter l :
  0 <= counter ->
  (forall k, counter <= k ->
             FileManager.exists_in storage (FileManager.renamed original k) = true ->
             In (FileManager.renamed original k) l) ->
  (List.length l + 2 <= fuel)%nat ->
  exists r,
    FileManager.resolve_loop fuel (FileManager.exists_in storage)
      original file_path counter = Some r.
Proof.
  revert file_path counter l.
  induction fuel as [|fuel IH]; intros file_path counter l Hc Hl Hfuel; [lia|].
  cbn [FileManager.resolve_loop].
  destruct (FileManager.exists_in storage file_path); [|eauto].
  destruct (FileManager.exists_in storage (FileManager.renamed original counter))
    eqn:E.
  - assert (Hin : In (FileManager.renamed original counter) l)
      by (apply Hl; [lia | assumption]).
    apply (IH _ _ (remove Path_eq_dec (FileManager.renamed original counter) l)).
    + lia.
    + intros k Hk Ek. apply in_in_remove.
      * intros Heq. apply renamed_inj in Heq; lia.
      * apply Hl; [lia | assumption].
    + pose proof (remove_length_lt Path_eq_dec l _ Hin). lia.
  - destruct fuel as [|fuel]; [lia|].
    cbn [FileManager.resolve_loop]. rewrite E. eauto.
Qed.

Lemma resolve_loop_terminates fuel p :
  (List.length storage + 2 <= fuel)%nat ->
  exists r,
    FileManager.resolve_loop fuel (FileManager.exists_in storage) p p 1 = Some r.
Proof.
  intros Hfuel.
  apply (resolve_loop_terminates_in fuel p p 1 storage); [lia | | assumption].
  intros k _ Ek. now apply exists_in_true.
Qed.

Lemma handle_filename_conflicts_terminates fuel files :
  (List.length storage + 2 <= fuel)%nat ->
  exists rs,
    FileManager.handle_filename_conflicts fuel (FileManager.exists_in storage)
      files = Some rs.
Proof.
  intros Hfuel. induction files as [|p files [rs IH]];
    cbn [FileManager.handle_filename_conflicts]; [eauto|].
  destruct (resolve_loop_terminates fuel p Hfuel) as [r ->].
  rewrite IH. eauto.
Qed.

End ResolveSnapshot.

Section ResolveGenerated.

Variable fm : FileManager.t.
Variable exists_ : Path -> bool.

Lemma resolved_in_family i r :
  resolved_from exists_ (generated fm i) r -> in_family fm i r.
Proof.
  intros [[_ ->] | [_ (k & Hk & -> & _)]]; [now left | right; eauto].
Qed.

Lemma resolved_generated_NoDup (idx : list Z) (rs : list Path) :
  (forall i, In i idx -> 0 <= i) ->
  NoDup idx ->
  Forall2 (resolved_from exists_) (map (generated fm) idx) rs ->
  NoDup rs.
Proof.
  intros Hpos Hnd. revert rs.
  induction Hnd as [|i idx Hi Hnd IH]; intros rs HF; simpl in HF.
  - inversion HF. constructor.
  - inversion HF as [|p r ps rs' Hr HF' E1 E2]; subst.
    constructor.
    + intros Hin.
      assert (Hfam : exists j, In j idx /\ in_family fm j r).
      { clear - HF' Hin. revert rs' HF' Hin.
        induction idx as [|j idx IH']; intros rs' HF' Hin; simpl in HF'.
        - inversion HF'; subst. destruct Hin.
        - inversion HF' as [|p r' ps rs'' Hr' HF'' E1 E2]; subst.
          destruct Hin as [-> | Hin].
          + exists j. split; [now left | now apply resolved_in_family].
          + destruct (IH' _ HF'' Hin) as (j' & Hj' & Hf).
            exists j'. split; [now right | assumption]. }
      destruct Hfam as (j & Hj & Hf).
      apply resolved_in_family in Hr.
      assert (i = j) by (apply (in_family_inj fm i j r); auto;
                         apply Hpos; simpl; auto).
      subst j. contradiction.
    + apply IH; [|assumption]. intros j Hj. apply Hpos. now right.
Qed.

End ResolveGenerated.

(** ** Claims about output names *)

(** C8, as the claim states it, fails: the first name generated for the
    base name [doc] is [doc_part_001.pdf], not [doc_part_001]. *)
Lemma generated_name_without_extension_refuted :
  ~ (forall (fm : FileManager.t) (total pps : Z) (l : list Path) (i : Z),
        FileManager.generate_output_filenames fm total pps = Ok l ->
        1 <= i <= len l ->
        nth_error l (Z.to_nat (i - 1))
        = Some (FileManager.output_dir fm
                  // (FileManager.base_name fm +++ "_part_" +++ format_03d i))).
Proof.
  intros H.
  assert (Hi : 1 <= 1 <= len [doc_part "doc_part_001.pdf";
                              doc_part "doc_part_002.pdf";
                              doc_part "doc_part_003.pdf"])
    by (unfold len; simpl; lia).
  specialize (H doc_manager 20 8 _ 1 eq_refl Hi).
  vm_compute in H.
  discriminate H.
Qed.

(** C8, amended. Name generation is positional: for a cap other than 0,
    with n = (total + cap - 1) // cap, the list has max(0, n) paths, the
    i-th (1 <= i <= n) is [{base_name}_part_{i:03d}.pdf] in [output_dir],
    its stem is [{base_name}_part_{i:03d}], and the list has no
    duplicates. *)
Theorem generated_names_positional
    (fm : FileManager.t) (total pps : Z) :
  pps <> 0 ->
  exists l,
    FileManager.generate_output_filenames fm total pps = Ok l /\
    len l = Z.max 0 ((total + pps - 1) / pps) /\
    (forall i, 1 <= i <= (total + pps - 1) / pps ->
       nth_error l (Z.to_nat (i - 1))
       = Some (FileManager.output_dir fm
                 // (FileManager.base_name fm +++ "_part_" +++ format_03d i
                       +++ ".pdf")) /\
       parent (generated fm i) = FileManager.output_dir fm /\
       stem (generated fm i)
       = FileManager.base_name fm +++ "_part_" +++ format_03d i /\
       suffix (generated fm i) = ".pdf") /\
    NoDup l.
Proof.
  intros Hp. eexists. split; [now apply generate_output_filenames_ok|].
  split; [|split].
  - unfold len. rewrite length_map. apply range1_length.
  - intros i Hi. split; [|apply generated_parts].
    rewrite nth_error_map, range1_nth by lia. simpl. unfold generated.
    now replace (i - 1 + 1) with i by lia.
  - apply map_NoDup_on.
    + intros x y Hx Hy E. apply range1_In in Hx, Hy.
      assert (x + 1 = y + 1); [|lia].
      apply (in_family_inj fm (x + 1) (y + 1) (generated fm (x + 1)));
        try lia; [now left | rewrite E; now left].
    + apply range_items_NoDup.
Qed.

Lemma generated_names_positional_witness :
  8 <> 0 /\
  exists l,
    FileManager.generate_output_filenames doc_manager 20 8 = Ok l /\
    l = [doc_part "doc_part_001.pdf"; doc_part "doc_part_002.pdf";
         doc_part "doc_part_003.pdf"].
Proof.
  split; [lia|].
  destruct (generated_names_positional doc_manager 20 8) as (l & H & _); [lia|].
  exists l. split; [exact H|]. vm_compute in H. now injection H.
Defined.

(** C5. Against a storage snapshot, and with fuel for the loop beyond the
    size of the snapshot, conflict resolution returns one path for each
    proposed path, in order: the proposed path itself when it does not
    exist; otherwise the path whose name is the original stem, [_], the
    counter and the original suffix, in the same directory, for the least
    counter from 1 for which that path does not exist.  An existing
    [doc_part_001.pdf] becomes [doc_part_001_1.pdf], and
    [doc_part_001_2.pdf] when that exists too. *)
Theorem conflicts_resolved_by_counter
    (storage : list Path) (files : list Path) (fuel : nat) :
  (List.length storage + 2 <= fuel)%nat ->
  (exists rs,
     FileManager.handle_filename_conflicts fuel
       (FileManager.exists_in storage) files = Some rs /\
     Forall2 (resolved_from (FileManager.exists_in storage)) files rs) /\
  (forall p k,
     parent (FileManager.renamed p k) = parent p /\
     name (FileManager.renamed p k)
     = stem p +++ "_" +++ str_int k +++ suffix p) /\
  FileManager.handle_filename_conflicts 3
    (FileManager.exists_in [doc_part "doc_part_001.pdf"])
    [doc_part "doc_part_001.pdf"; doc_part "doc_part_002.pdf"]
  = Some [doc_part "doc_part_001_1.pdf"; doc_part "doc_part_002.pdf"] /\
  FileManager.handle_filename_conflicts 4
    (FileManager.exists_in
       [doc_part "doc_part_001.pdf"; doc_part "doc_part_001_1.pdf"])
    [doc_part "doc_part_001.pdf"]
  = Some [doc_part "doc_part_001_2.pdf"].
Proof.
  intros Hfuel. split; [|split; [|split]].
  - destruct (handle_filename_conflicts_terminates storage fuel files Hfuel)
      as [rs Hrs].
    exists rs. split; [assumption|].
    now apply handle_filename_conflicts_sound in Hrs.
  - apply renamed_parts.
  - reflexivity.
  - reflexivity.
Qed.

Lemma conflicts_resolved_by_counter_witness :
  (List.length [doc_part "doc_part_001.pdf"] + 2 <= 3)%nat /\
  exists rs,
    FileManager.handle_filename_conflicts 3
      (FileManager.exists_in [doc_part "doc_part_001.pdf"])
      [doc_part "doc_part_001.pdf"] = Some rs /\
    Forall2 (resolved_from (FileManager.exists_in [doc_part "doc_part_001.pdf"]))
      [doc_part "doc_part_001.pdf"] rs.
Proof.
  split; [simpl; lia|].
  apply (conflicts_resolved_by_counter [doc_part "doc_part_001.pdf"]
           [doc_part "doc_part_001.pdf"] 3).
  simpl; lia.
Defined.

(** C4. For the names [generate_output_filenames] produces and any storage
    snapshot, conflict resolution (with fuel beyond the size of the
    snapshot) returns a list of as many paths with no two equal, whichever
    of the generated names the snapshot already holds; and whatever the
    existence predicate, a list it returns for generated names has no two
    equal paths. *)
Theorem resolved_names_distinct
    (fm : FileManager.t) (total pps : Z) (gen : list Path)
    (storage : list Path) (fuel : nat) :
  FileManager.generate_output_filenames fm total pps = Ok gen ->
  (List.length storage + 2 <= fuel)%nat ->
  (exists rs,
     FileManager.handle_filename_conflicts fuel
       (FileManager.exists_in storage) gen = Some rs /\
     List.length rs = List.length gen /\
     NoDup rs) /\
  (forall (exists_ : Path -> bool) (n : nat) (rs : list Path),
     FileManager.handle_filename_conflicts n exists_ gen = Some rs ->
     NoDup rs).
Proof.
  intros Hgen Hfuel.
  assert (Hp : pps <> 0).
  { intros ->. unfold FileManager.generate_output_filenames, floordiv in Hgen.
    discriminate Hgen. }
  rewrite generate_output_filenames_ok in Hgen by assumption.
  injection Hgen as <-.
  assert (Hany : forall (exists_ : Path -> bool) (n : nat) (rs : list Path),
             FileManager.handle_filename_conflicts n exists_
               (map (fun i => generated fm (i + 1))
                    (range1 ((total + pps - 1) / pps))) = Some rs ->
             NoDup rs).
  { intros exists_ n rs Hrs. apply handle_filename_conflicts_sound in Hrs.
    rewrite <- (map_map (fun i => i + 1) (generated fm)) in Hrs.
    apply (resolved_generated_NoDup fm exists_) in Hrs; [assumption| |].
    - intros i Hi. apply in_map_iff in Hi. destruct Hi as (x & <- & Hx).
      apply range1_In in Hx. lia.
    - apply map_NoDup_on; [intros; lia | apply range_items_NoDup]. }
  split; [|exact Hany].
  destruct (handle_filename_conflicts_terminates storage fuel
              (map (fun i => generated fm (i + 1))
                   (range1 ((total + pps - 1) / pps))) Hfuel) as [rs Hrs].
  exists rs. split; [assumption|]. split; [|now apply Hany in Hrs].
  apply handle_filename_conflicts_sound in Hrs.
  symmetry. eapply Forall2_length; eassumption.
Qed.

Lemma resolved_names_distinct_witness :
  exists rs,
    FileManager.handle_filename_conflicts 4
      (FileManager.exists_in
         [doc_part "doc_part_001.pdf"; doc_part "doc_part_002.pdf"])
      [doc_part "doc_part_001.pdf"; doc_part "doc_part_002.pdf";
       doc_part "doc_part_003.pdf"] = Some rs /\
    List.length rs = 3%nat /\ NoDup rs.
Proof.
  exact (proj1 (resolved_names_distinct doc_manager 20 8
                  [doc_part "doc_part_001.pdf"; doc_part "doc_part_002.pdf";
                   doc_part "doc_part_003.pdf"]
                  [doc_part "doc_part_001.pdf"; doc_part "doc_part_002.pdf"]
                  4 eq_refl (le_n 4))).
Defined.

(** ** The splitting loop *)

Section SplitLoop.

Lemma written_app t t' : written (t ++ t') = written t ++ written t'.
Proof.
  induction t as [|ev t IH]; simpl; [reflexivity|].
  destruct ev; simpl; now rewrite ?IH.
Qed.

Lemma progressed_app t t' : progressed (t ++ t') = progressed t ++ progressed t'.
Proof.
  induction t as [|ev t IH]; simpl; [reflexivity|].
  destruct ev; simpl; now rewrite ?IH.
Qed.

Variable st : PDFSplitter.Storage.
Variable r : PDFSplitter.PdfReader.
Variable n_ranges : Z.
Variable progress_callback : bool.

(** One turn, step by step: the progress event, the pages, the output path,
    the opening of the file, the writing, the report. *)
Lemma split_range_unfold outs i s e h :
  PDFSplitter.split_range st r n_ranges outs progress_callback (i, (s, e)) h
  = let prog := if progress_callback
                then [IoProgress (i + 1) n_ranges
                        ("Creating part " +++ str_int (i + 1))]
                else [] in
    match PDFSplitter.add_pages r (range2 (s - 1) e) with
    | Raise x => (prog, Raise x)
    | Ok w =>
        match getitem outs i with
        | Raise x => (prog, Raise x)
        | Ok f =>
            match PDFSplitter.open_wb st f with
            | Raise x => (prog, Raise x)
            | Ok _ =>
                match PDFSplitter.write st f w with
                | Raise x => (prog ++ [IoOpenWb f], Raise x)
                | Ok _ =>
                    (prog ++ [IoOpenWb f; IoWrite f w;
                              IoPrint (PDFSplitter.created_line f s e)],
                     Ok tt)
                end
            end
        end
    end.
Proof.
  unfold PDFSplitter.split_range, IO.bind, when, lift, emit, ret.
  destruct progress_callback;
    destruct (PDFSplitter.add_pages r (range2 (s - 1) e)); simpl; try reflexivity;
    destruct (getitem outs i); simpl; try reflexivity;
    destruct (PDFSplitter.open_wb st a0); simpl; try reflexivity;
    destruct (PDFSplitter.write st a0 a); simpl; reflexivity.
Qed.

Lemma split_range_turn outs item h :
  PDFSplitter.split_range st r n_ranges outs progress_callback item h
  = turn st r n_ranges outs progress_callback item.
Proof.
  destruct item as [i [s e]]. unfold turn. now rewrite !split_range_unfold.
Qed.

(** A turn that ends well wrote the file at its index and no other. *)
Lemma turn_ok_written outs i s e :
  snd (turn st r n_ranges outs progress_callback (i, (s, e))) = Ok tt ->
  exists f, getitem outs i = Ok f /\
            written (fst (turn st r n_ranges outs progress_callback (i, (s, e))))
            = [f].
Proof.
  unfold turn. rewrite split_range_unfold. cbv zeta.
  destruct (PDFSplitter.add_pages r (range2 (s - 1) e)); [|discriminate].
  destruct (getitem outs i) as [f|]; [|discriminate].
  destruct (PDFSplitter.open_wb st f); [|discriminate].
  destruct (PDFSplitter.write st f a); [|discriminate].
  intros _. exists f. split; [reflexivity|].
  cbn [fst]. rewrite written_app. now destruct progress_callback.
Qed.

(** A turn that raises wrote no file. *)
Lemma turn_raise_written outs item x :
  snd (turn st r n_ranges outs progress_callback item) = Raise x ->
  written (fst (turn st r n_ranges outs progress_callback item)) = [].
Proof.
  destruct item as [i [s e]]. unfold turn. rewrite split_range_unfold. cbv zeta.
  destruct (PDFSplitter.add_pages r (range2 (s - 1) e));
    [|now destruct progress_callback].
  destruct (getitem outs i) as [f|]; [|now destruct progress_callback].
  destruct (PDFSplitter.open_wb st f); [|now destruct progress_callback].
  destruct (PDFSplitter.write st f a); [discriminate|].
  intros _. cbn [fst]. rewrite written_app. now destruct progress_callback.
Qed.

(** The progress events of a turn carry its number. *)
Lemma turn_progressed outs i s e :
  progressed (fst (turn st r n_ranges outs progress_callback (i, (s, e))))
  = if progress_callback then [i + 1] else [].
Proof.
  unfold turn. rewrite split_range_unfold. cbv zeta.
  destruct (PDFSplitter.add_pages r (range2 (s - 1) e));
    [|now destruct progress_callback].
  destruct (getitem outs i) as [f|]; [|now destruct progress_callback].
  destruct (PDFSplitter.open_wb st f); [|now destruct progress_callback].
  destruct (PDFSplitter.write st f a); cbn [fst]; rewrite progressed_app;
    now destruct progress_callback.
Qed.

(** A turn whose index has no output path cannot end well. *)
Lemma turn_without_output outs i s e :
  len outs <= i ->
  snd (turn st r n_ranges outs progress_callback (i, (s, e))) <> Ok tt.
Proof.
  intros Hi. unfold turn. rewrite split_range_unfold. cbv zeta.
  destruct (PDFSplitter.add_pages r (range2 (s - 1) e)); [|discriminate].
  assert (E : getitem outs i = Raise IndexError).
  { unfold getitem, len in *.
    destruct (Z.ltb_spec i 0); [lia|].
    destruct (Z.ltb_spec i 0); [lia|].
    destruct (nth_error outs (Z.to_nat i)) eqn:N; [|reflexivity].
    assert (nth_error outs (Z.to_nat i) <> None) as N' by congruence.
    apply nth_error_Some in N'. lia. }
  rewrite E. discriminate.
Qed.

(** The loop over [items]: the turns run in order until one raises. *)
Lemma for_each_turns outs items h :
  for_each items
    (PDFSplitter.split_range st r n_ranges outs progress_callback) h
  = match items with
    | [] => ([], Ok tt)
    | item :: rest =>
        match turn st r n_ranges outs progress_callback item with
        | (t, Ok _) =>
            let (t', res) :=
              for_each rest
                (PDFSplitter.split_range st r n_ranges outs progress_callback)
                (h ++ t) in
            (t ++ t', res)
        | (t, Raise x) => (t, Raise x)
        end
    end.
Proof.
  destruct items as [|item rest]; [reflexivity|].
  cbn [for_each]. unfold IO.bind at 1. now rewrite split_range_turn.
Qed.

Lemma for_each_all_ok outs items h :
  Forall (fun item =>
            snd (turn st r n_ranges outs progress_callback item) = Ok tt) items ->
  for_each items
    (PDFSplitter.split_range st r n_ranges outs progress_callback) h
  = (flat_map (fun item =>
                 fst (turn st r n_ranges outs progress_callback item)) items,
     Ok tt).
Proof.
  intros Hok. revert h. induction Hok as [|item rest Hitem Hok IH]; intros h.
  - reflexivity.
  - rewrite for_each_turns.
    destruct (turn st r n_ranges outs progress_callback item) as [t res] eqn:E.
    cbn [snd] in Hitem. subst res. rewrite IH.
    cbn [flat_map]. now rewrite E.
Qed.

Lemma for_each_abort outs pre item post x h :
  Forall (fun item =>
            snd (turn st r n_ranges outs progress_callback item) = Ok tt) pre ->
  snd (turn st r n_ranges outs progress_callback item) = Raise x ->
  for_each (pre ++ item :: post)
    (PDFSplitter.split_range st r n_ranges outs progress_callback) h
  = (flat_map (fun item =>
                 fst (turn st r n_ranges outs progress_callback item)) pre
       ++ fst (turn st r n_ranges outs progress_callback item),
     Raise x).
Proof.
  intros Hok Hx. revert h. induction Hok as [|y pre Hy Hok IH]; intros h.
  - rewrite app_nil_l, for_each_turns.
    destruct (turn st r n_ranges outs progress_callback item) as [t res].
    cbn [snd] in Hx. subst res. reflexivity.
  - rewrite <- app_comm_cons, for_each_turns.
    destruct (turn st r n_ranges outs progress_callback y) as [t res] eqn:E.
    cbn [snd] in Hy. subst res. rewrite IH.
    cbn [flat_map]. rewrite E. cbn [fst]. now rewrite app_assoc.
Qed.

(** A loop that ends well ran every turn well. *)
Lemma for_each_ok_inv outs items h t :
  for_each items
    (PDFSplitter.split_range st r n_ranges outs progress_callback) h
  = (t, Ok tt) ->
  Forall (fun item =>
            snd (turn st r n_ranges outs progress_callback item) = Ok tt) items.
Proof.
  revert h t. induction items as [|item rest IH]; intros h t H; [constructor|].
  rewrite for_each_turns in H.
  destruct (turn st r n_ranges outs progress_callback item) as [t1 [[]|x]] eqn:E;
    [|discriminate].
  destruct (for_each rest _ (h ++ t1)) as [t2 res] eqn:E2.
  injection H as _ ->. constructor; [now rewrite E | eauto].
Qed.

(** The loop always ends, well or by the first exception. *)
Lemma turns_outcome outs (items : list (Z * (Z * Z))) :
  (Forall (fun item =>
             snd (turn st r n_ranges outs progress_callback item) = Ok tt) items)
  \/
  (exists pre item post x,
      items = pre ++ item :: post /\
      Forall (fun item =>
                snd (turn st r n_ranges outs progress_callback item) = Ok tt) pre /\
      snd (turn st r n_ranges outs progress_callback item) = Raise x).
Proof.
  induction items as [|item rest IH]; [left; constructor|].
  destruct (snd (turn st r n_ranges outs progress_callback item)) as [[]|x] eqn:E.
  - destruct IH as [IH | (pre & y & post & x & -> & Hpre & Hy)].
    + left. constructor; assumption.
    + right. exists (item :: pre), y, post, x. repeat split; auto.
  - right. exists [], item, rest, x. repeat split; auto.
Qed.

Lemma flat_map_written_ok outs (items : list (Z * (Z * Z))) :
  Forall (fun item =>
            snd (turn st r n_ranges outs progress_callback item) = Ok tt) items ->
  Forall2 (fun item f => getitem outs (fst item) = Ok f) items
    (written (flat_map (fun item =>
                          fst (turn st r n_ranges outs progress_callback item))
                       items)).
Proof.
  induction 1 as [|[i [s e]] rest Hitem Hok IH]; cbn [flat_map].
  - constructor.
  - rewrite written_app.
    destruct (turn_ok_written outs i s e Hitem) as (f & Hf & ->).
    constructor; assumption.
Qed.

End SplitLoop.

Section Enumerate.

Context {A : Type}.

Lemma enumerate_from_app i (l l' : list A) :
  enumerate_from i (l ++ l')
  = enumerate_from i l ++ enumerate_from (i + len l) l'.
Proof.
  revert i; induction l as [|a l IH]; intros i.
  - unfold len; simpl. now replace (i + 0) with i by lia.
  - rewrite <- app_comm_cons. cbn [enumerate_from]. rewrite IH.
    rewrite <- app_comm_cons. do 3 f_equal. unfold len; cbn [List.length]. lia.
Qed.

Lemma enumerate_from_length i (l : list A) :
  List.length (enumerate_from i l) = List.length l.
Proof. revert i; induction l; intros; simpl; auto. Qed.

Lemma enumerate_from_In i (l : list A) j a :
  In (j, a) (enumerate_from i l) -> i <= j < i + len l.
Proof.
  revert i; induction l as [|b l IH]; intros i H; [destruct H|].
  unfold len in *. cbn [enumerate_from List.length] in *.
  destruct H as [H | H]; [injection H as <- _; lia|].
  apply IH in H. lia.
Qed.

(** Written paths that answer the items of an enumeration are the first
    elements of the list of output paths. *)
Lemma enumerate_from_getitem (outs : list Path) (l : list A) :
  forall (k : nat) (ws : list Path),
    Forall2 (fun item f => getitem outs (fst item) = Ok f)
            (enumerate_from (Z.of_nat k) l) ws ->
    ws = firstn (List.length l) (skipn k outs).
Proof.
  induction l as [|a l IH]; intros k ws HF.
  - inversion HF. reflexivity.
  - cbn [enumerate_from] in HF. inversion HF as [|x f xs fs Hf HF' E1 E2]; subst.
    cbn [fst] in Hf. cbn [List.length].
    unfold getitem in Hf.
    destruct (Z.ltb_spec (Z.of_nat k) 0); [lia|].
    destruct (Z.ltb_spec (Z.of_nat k) 0); [lia|].
    rewrite Nat2Z.id in Hf.
    destruct (nth_error outs k) as [f'|] eqn:N; [|discriminate].
    injection Hf as ->.
    apply nth_error_split in N. destruct N as (l1 & l2 & -> & Hl1).
    replace (Z.of_nat k + 1) with (Z.of_nat (S k)) in HF' by lia.
    rewrite (IH (S k) fs HF'). subst k.
    replace (skipn (List.length l1) (l1 ++ f :: l2)) with (f :: l2)
      by (now rewrite skipn_app, skipn_all, Nat.sub_diag).
    replace (skipn (S (List.length l1)) (l1 ++ f :: l2)) with l2.
    + reflexivity.
    + rewrite skipn_app, skipn_all2 by lia.
      now replace (S (List.length l1) - List.length l1)%nat with 1%nat by lia.
Qed.

Lemma enumerate_getitem_firstn (outs : list Path) (l : list A) (ws : list Path) :
  Forall2 (fun item f => getitem outs (fst item) = Ok f) (enumerate l) ws ->
  ws = firstn (List.length l) outs.
Proof. intros HF. exact (enumerate_from_getitem outs l 0%nat ws HF). Qed.

End Enumerate.

(** ** Claims about the split operation *)

Section SplitPdf.

Variable st : PDFSplitter.Storage.
Variable progress_callback : bool.

Lemma split_pdf_unfold self r pps outs rs h :
  PDFSplitter.reader self = Some r ->
  PDFSplitter._get_page_ranges self pps = Ok rs ->
  PDFSplitter.split_pdf st self pps outs progress_callback h
  = match for_each (enumerate rs)
            (PDFSplitter.split_range st r (len rs) outs progress_callback) h with
    | (t, Ok _) => (t, Ok true)
    | (t, Raise x) =>
        (t ++ [IoPrint ("Error during PDF splitting: " +++ exn_str x)], Ok false)
    end.
Proof.
  intros Hr Hrs. unfold PDFSplitter.split_pdf. rewrite Hr.
  unfold try_except, IO.bind, lift, ret, emit, any_exception. rewrite Hrs.
  rewrite app_nil_r. cbn [app].
  destruct (for_each (enumerate rs) _ h) as [t [[]|x]].
  - now rewrite app_nil_r.
  - reflexivity.
Qed.

Lemma turn_same_output r n outs outs' i s e :
  getitem outs i = getitem outs' i ->
  turn st r n outs progress_callback (i, (s, e))
  = turn st r n outs' progress_callback (i, (s, e)).
Proof.
  intros H. unfold turn. rewrite !split_range_unfold. now rewrite H.
Qed.

Lemma for_each_same_outputs r n outs outs' items h :
  (forall i range, In (i, range) items -> getitem outs i = getitem outs' i) ->
  for_each items (PDFSplitter.split_range st r n outs progress_callback) h
  = for_each items (PDFSplitter.split_range st r n outs' progress_callback) h.
Proof.
  revert h. induction items as [|[i [s e]] rest IH]; intros h H; [reflexivity|].
  rewrite !(for_each_turns st r n progress_callback _ (_ :: _)).
  rewrite (turn_same_output r n outs outs' i s e)
    by (apply (H i (s, e)); now left).
  destruct (turn st r n outs' progress_callback (i, (s, e))) as [t [[]|x]];
    [|reflexivity].
  rewrite IH; [reflexivity|]. intros j range Hj. apply (H j range). now right.
Qed.

Lemma getitem_firstn (outs : list Path) (n : nat) (i : Z) :
  0 <= i < Z.of_nat n -> (n <= List.length outs)%nat ->
  getitem outs i = getitem (firstn n outs) i.
Proof.
  intros Hi Hn. unfold getitem.
  destruct (Z.ltb_spec i 0); [lia|]. destruct (Z.ltb_spec i 0); [lia|].
  rewrite nth_error_firstn.
  destruct (Nat.ltb_spec (Z.to_nat i) n); [reflexivity | lia].
Qed.

Lemma progressed_turns r n outs (items : list (Z * (Z * Z))) c :
  In c (progressed
          (flat_map (fun item => fst (turn st r n outs progress_callback item))
                    items)) ->
  exists i range, In (i, range) items /\ c = i + 1.
Proof.
  induction items as [|[i [s e]] rest IH]; cbn [flat_map]; [intros []|].
  rewrite progressed_app, turn_progressed. intros H.
  apply in_app_or in H. destruct H as [H | H].
  - exists i, (s, e). split; [now left|].
    destruct progress_callback; [|destruct H].
    destruct H as [<- | []]. reflexivity.
  - destruct (IH H) as (j & range & Hj & ->).
    exists j, range. split; [now right | reflexivity].
Qed.

End SplitPdf.

(** C3, as the claim states it, fails: with the ninth page unreadable,
    that is extraction failing for the second of three ranges, the
    operation answers [False] having written the first part only; the
    third range is never processed and there is no list of outcomes. *)
Lemma split_stops_at_failed_range :
  PDFSplitter.split_pdf sound_storage doc20_damaged 8 three_parts false []
  = ([IoOpenWb (doc_part "doc_part_001.pdf");
      IoWrite (doc_part "doc_part_001.pdf")
        [page "0"; page "1"; page "2"; page "3";
         page "4"; page "5"; page "6"; page "7"];
      IoPrint "Created: out/doc_part_001.pdf (pages 1-8)";
      IoPrint "Error during PDF splitting: damaged page"],
     Ok false)
  /\ ~ In (doc_part "doc_part_003.pdf")
          (written (fst (PDFSplitter.split_pdf sound_storage doc20_damaged 8
                           three_parts false []))).
Proof.
  split; [vm_compute; reflexivity|].
  vm_compute. intros [H | []]. discriminate H.
Qed.

(** C3, amended. A failure while one range is processed aborts the split:
    when the ranges before it were processed well and its own turn raises,
    [split_pdf] answers [False], the files written are those of the ranges
    before it (the first output paths, in order), no later range is started,
    and the last line printed reports the exception. *)
Theorem split_aborts_at_first_failure
    (st : PDFSplitter.Storage) (self : PDFSplitter.t)
    (r : PDFSplitter.PdfReader) (pps : Z) (outs : list Path) (cb : bool)
    (h : list IOEvent) (pre : list (Z * Z)) (range : Z * Z)
    (post : list (Z * Z)) (x : exn) :
  PDFSplitter.reader self = Some r ->
  PDFSplitter._get_page_ranges self pps = Ok (pre ++ range :: post) ->
  Forall (fun item =>
            snd (turn st r (len (pre ++ range :: post)) outs cb item) = Ok tt)
         (enumerate pre) ->
  snd (turn st r (len (pre ++ range :: post)) outs cb (len pre, range))
    = Raise x ->
  exists trace,
    PDFSplitter.split_pdf st self pps outs cb h = (trace, Ok false) /\
    written trace = firstn (List.length pre) outs /\
    (forall c, In c (progressed trace) -> 1 <= c <= len pre + 1) /\
    last trace (IoPrint "")
    = IoPrint ("Error during PDF splitting: " +++ exn_str x).
Proof.
  intros Hr Hrs Hpre Hx.
  rewrite (split_pdf_unfold st cb self r pps outs _ h Hr Hrs).
  unfold enumerate. rewrite enumerate_from_app. cbn [enumerate_from].
  replace (0 + len pre) with (len pre) by lia.
  rewrite (for_each_abort st r _ cb outs _ _ _ x h Hpre Hx).
  eexists. split; [reflexivity|]. split; [|split].
  - rewrite !written_app. rewrite (turn_raise_written st r _ cb outs _ x Hx).
    cbn [written]. rewrite !app_nil_r.
    apply enumerate_getitem_firstn. now apply flat_map_written_ok.
  - intros c Hc. rewrite !progressed_app in Hc. cbn [progressed] in Hc.
    rewrite app_nil_r in Hc. apply in_app_or in Hc. destruct Hc as [Hc | Hc].
    + apply progressed_turns in Hc. destruct Hc as (i & rg & Hi & ->).
      apply enumerate_from_In in Hi. lia.
    + destruct range as [s e]. rewrite turn_progressed in Hc.
      destruct cb; [|destruct Hc]. destruct Hc as [<- | []].
      unfold len. lia.
  - apply last_last.
Qed.

Lemma split_aborts_at_first_failure_witness :
  exists trace,
    PDFSplitter.split_pdf sound_storage doc20_damaged 8 three_parts true []
    = (trace, Ok false) /\
    written trace = [doc_part "doc_part_001.pdf"].
Proof.
  destruct (split_aborts_at_first_failure sound_storage doc20_damaged
              (PDFSplitter.mkReader
                 (good_pages 8 ++ [Raise (OtherException "damaged page")]
                    ++ good_pages 11) false)
              8 three_parts true [] [(1, 8)] (9, 16) [(17, 20)]
              (OtherException "damaged page"))
    as (trace & H & Hw & _).
  - reflexivity.
  - reflexivity.
  - repeat constructor.
  - reflexivity.
  - exists trace. split; [exact H | exact Hw].
Defined.

(** C7, as the claim states it, fails both ways: with a surplus output path
    the operation answers [True] as it does without it, ignoring the path;
    with one output path for three ranges it writes the first part, and only
    then answers [False] on the index error. *)
Lemma split_length_mismatch_not_refused :
  PDFSplitter.split_pdf sound_storage doc20 8
    (three_parts ++ [doc_part "surplus.pdf"]) false []
  = PDFSplitter.split_pdf sound_storage doc20 8 three_parts false []
  /\ snd (PDFSplitter.split_pdf sound_storage doc20 8
            (three_parts ++ [doc_part "surplus.pdf"]) false []) = Ok true
  /\ written (fst (PDFSplitter.split_pdf sound_storage doc20 8
                     [doc_part "doc_part_001.pdf"] false []))
     = [doc_part "doc_part_001.pdf"]
  /\ snd (PDFSplitter.split_pdf sound_storage doc20 8
            [doc_part "doc_part_001.pdf"] false []) = Ok false
  /\ last (fst (PDFSplitter.split_pdf sound_storage doc20 8
                  [doc_part "doc_part_001.pdf"] false [])) (IoPrint "")
     = IoPrint "Error during PDF splitting: list index out of range".
Proof. repeat split; vm_compute; reflexivity. Qed.

(** C7, amended. [split_pdf] does not compare the number of output paths
    with the number of ranges.  With at least as many paths as ranges the
    paths beyond the ranges are ignored: the operation behaves as on the
    list cut to the number of ranges.  With fewer paths than ranges it
    answers [False], and when the ranges that have a path are processed
    well it has by then written every output path. *)
Theorem split_without_length_check
    (st : PDFSplitter.Storage) (self : PDFSplitter.t)
    (r : PDFSplitter.PdfReader) (pps : Z) (outs : list Path) (cb : bool)
    (h : list IOEvent) (rs : list (Z * Z)) :
  PDFSplitter.reader self = Some r ->
  PDFSplitter._get_page_ranges self pps = Ok rs ->
  ((List.length rs <= List.length outs)%nat ->
   PDFSplitter.split_pdf st self pps outs cb h
   = PDFSplitter.split_pdf st self pps (firstn (List.length rs) outs) cb h) /\
  ((List.length outs < List.length rs)%nat ->
   exists trace,
     PDFSplitter.split_pdf st self pps outs cb h = (trace, Ok false) /\
     (Forall (fun item => snd (turn st r (len rs) outs cb item) = Ok tt)
             (enumerate (firstn (List.length outs) rs)) ->
      written trace = outs)).
Proof.
  intros Hr Hrs. split.
  - intros Hle.
    rewrite !(split_pdf_unfold st cb self r pps _ rs h Hr Hrs).
    rewrite (for_each_same_outputs st cb r (len rs) outs
               (firstn (List.length rs) outs)); [reflexivity|].
    intros i range Hi. apply enumerate_from_In in Hi.
    apply getitem_firstn; [unfold len in Hi; lia | assumption].
  - intros Hlt.
    rewrite (split_pdf_unfold st cb self r pps outs rs h Hr Hrs).
    set (k := List.length outs) in *.
    assert (Hsplit : rs = firstn k rs ++ skipn k rs)
      by (symmetry; apply firstn_skipn).
    destruct (skipn k rs) as [|range post] eqn:Hskip.
    { apply (f_equal (@List.length _)) in Hskip.
      rewrite length_skipn in Hskip. simpl in Hskip. lia. }
    assert (Hk : List.length (firstn k rs) = k)
      by (rewrite length_firstn; lia).
    assert (Hitems : enumerate rs
                     = enumerate (firstn k rs)
                         ++ (Z.of_nat k, range)
                         :: enumerate_from (Z.of_nat k + 1) post).
    { rewrite Hsplit at 1. unfold enumerate. rewrite enumerate_from_app.
      cbn [enumerate_from]. unfold len. rewrite Hk. reflexivity. }
    assert (Hfail : exists x,
               snd (turn st r (len rs) outs cb (Z.of_nat k, range)) = Raise x).
    { destruct range as [s e].
      pose proof (turn_without_output st r (len rs) cb outs (Z.of_nat k) s e)
        as Hno.
      destruct (snd (turn st r (len rs) outs cb (Z.of_nat k, (s, e))))
        as [[]|x]; [|eauto].
      exfalso. apply Hno; [unfold len; lia | reflexivity]. }
    destruct Hfail as [x Hx].
    destruct (turns_outcome st r (len rs) cb outs (enumerate (firstn k rs)))
      as [Hok | (p1 & y & p2 & x' & Hpre & Hp1 & Hy)].
    + rewrite Hitems.
      rewrite (for_each_abort st r _ cb outs _ _ _ x h Hok Hx).
      eexists. split; [reflexivity|]. intros _.
      rewrite !written_app, (turn_raise_written st r _ cb outs _ x Hx).
      cbn [written]. rewrite !app_nil_r.
      rewrite (enumerate_getitem_firstn outs (firstn k rs) _
                 (flat_map_written_ok st r _ cb outs _ Hok)).
      rewrite Hk. apply firstn_all.
    + rewrite Hitems, Hpre, <- app_assoc, <- app_comm_cons.
      rewrite (for_each_abort st r _ cb outs _ _ _ x' h Hp1 Hy).
      eexists. split; [reflexivity|]. intros Hok. exfalso.
      apply Forall_app in Hok. destruct Hok as [_ Hok].
      inversion Hok as [|? ? Hy' _]; subst. congruence.
Qed.

Lemma split_without_length_check_witness :
  (exists trace,
     PDFSplitter.split_pdf sound_storage doc20 8
       [doc_part "doc_part_001.pdf"] false [] = (trace, Ok false) /\
     written trace = [doc_part "doc_part_001.pdf"]) /\
  PDFSplitter.split_pdf sound_storage doc20 8
    (three_parts ++ [doc_part "surplus.pdf"]) false []
  = PDFSplitter.split_pdf sound_storage doc20 8 three_parts false [].
Proof.
  split.
  - destruct (proj2 (split_without_length_check sound_storage doc20
                       (PDFSplitter.mkReader (good_pages 20) false) 8
                       [doc_part "doc_part_001.pdf"] false []
                       [(1, 8); (9, 16); (17, 20)] eq_refl eq_refl))
      as (trace & H & Hw).
    + simpl; lia.
    + exists trace. split; [exact H|]. apply Hw. repeat constructor.
  - apply (proj1 (split_without_length_check sound_storage doc20
                    (PDFSplitter.mkReader (good_pages 20) false) 8
                    (three_parts ++ [doc_part "surplus.pdf"]) false []
                    [(1, 8); (9, 16); (17, 20)] eq_refl eq_refl)).
    simpl; lia.
Defined.

(** ** Batch printing *)

Section Dict.

Context {V : Type}.
Implicit Types (d : PrinterManager.dict V) (k : string) (v : V).





End Dict.

Section AssignAll.

Implicit Types (results : PrinterManager.dict (bool * string)).






End AssignAll.

Section PrintFile.

Variable w : PrinterManager.World.
Variable self : PrinterManager.t.
Variable printer_name : option string.
Variable print_options : option (PrinterManager.dict string).

Lemma printed_app t t' : printed (t ++ t') = printed t ++ printed t'.
Proof.
  induction t as [|ev t IH]; simpl; [reflexivity|].
  destruct ev; simpl; now rewrite ?IH.
Qed.

Lemma submitted_app t t' : submitted (t ++ t') = submitted t ++ submitted t'.
Proof.
  induction t as [|ev t IH]; simpl; [reflexivity|].
  destruct ev; simpl; now rewrite ?IH.
Qed.

Lemma try_except_any {A} (m : M A) (handler : exn -> A) h :
  try_except m any_exception (fun e => ret (handler e)) h
  = (fst (m h),
     Ok (match snd (m h) with Ok a => a | Raise e => handler e end)).
Proof.
  unfold try_except, any_exception, ret.
  destruct (m h) as [t [a|e]]; simpl; now rewrite ?app_nil_r.
Qed.

Lemma _print_linux_events p h :
  fst (PrinterManager._print_linux w p printer_name print_options h)
  = [IoRun (PrinterManager.lpr_cmd p printer_name print_options)].
Proof.
  unfold PrinterManager._print_linux, try_except, IO.bind,
    PrinterManager.call, ret.
  destruct (PrinterManager.respond w h _) as [[]|e]; simpl; [reflexivity|].
  destruct e; reflexivity.
Qed.

Lemma _print_mac_events p h :
  fst (PrinterManager._print_mac w p printer_name print_options h)
  = [IoRun (PrinterManager.lpr_cmd p printer_name print_options)].
Proof.
  unfold PrinterManager._print_mac, try_except, IO.bind,
    PrinterManager.call, ret.
  destruct (PrinterManager.respond w h _) as [[]|e]; simpl; [reflexivity|].
  destruct e; reflexivity.
Qed.

Lemma _print_windows_printed p h :
  printed (fst (PrinterManager._print_windows w p printer_name print_options h))
  = [].
Proof.
  unfold PrinterManager._print_windows, try_except, IO.bind, when, lift,
    PrinterManager.call, ret.
  destruct (PrinterManager.win32_importable w); simpl.
  - destruct (PrinterManager.given printer_name); simpl.
    + destruct (PrinterManager.respond w _ (IoSetDefaultPrinter _)) as [[]|e];
        simpl.
      * destruct (PrinterManager.respond w _ (IoShellExecutePrint _))
          as [[]|e]; simpl; [reflexivity|].
        destruct e; simpl; try reflexivity.
        destruct (PrinterManager.respond w _ (IoRun _)) as [[]|e]; simpl;
          [reflexivity | destruct e; reflexivity].
      * destruct e; simpl; try reflexivity.
        destruct (PrinterManager.respond w _ (IoRun _)) as [[]|e]; simpl;
          [reflexivity | destruct e; reflexivity].
    + destruct (PrinterManager.respond w _ (IoShellExecutePrint _))
        as [[]|e]; simpl; [reflexivity|].
      destruct e; simpl; try reflexivity.
      destruct (PrinterManager.respond w _ (IoRun _)) as [[]|e]; simpl;
        [reflexivity | destruct e; reflexivity].
  - destruct (PrinterManager.respond w _ (IoRun _)) as [[]|e]; simpl;
      [reflexivity | destruct e; reflexivity].
Qed.

(** [print_file] never raises. *)
Lemma print_file_ok p h :
  exists o,
    snd (PrinterManager.print_file w self p printer_name print_options h) = Ok o.
Proof.
  unfold PrinterManager.print_file.
  destruct (negb (PrinterManager.file_exists w p)); [eexists; reflexivity|].
  destruct (negb (String.eqb (lower (suffix p)) ".pdf"));
    [eexists; reflexivity|].
  rewrite (try_except_any _ (fun e => (false, "Print error: " +++ exn_str e))).
  eexists; reflexivity.
Qed.

(** [print_file] prints nothing itself. *)
Lemma print_file_printed p h :
  printed (fst (PrinterManager.print_file w self p printer_name print_options h))
  = [].
Proof.
  unfold PrinterManager.print_file.
  destruct (negb (PrinterManager.file_exists w p)); [reflexivity|].
  destruct (negb (String.eqb (lower (suffix p)) ".pdf")); [reflexivity|].
  rewrite (try_except_any _ (fun e => (false, "Print error: " +++ exn_str e))).
  cbn [fst].
  destruct (String.eqb (PrinterManager.system self) "Windows");
    [apply _print_windows_printed|].
  destruct (String.eqb (PrinterManager.system self) "Darwin");
    [now rewrite _print_mac_events|].
  destruct (String.eqb (PrinterManager.system self) "Linux");
    [now rewrite _print_linux_events | reflexivity].
Qed.

(** On Linux and on macOS [print_file] submits the [lpr] command of a
    printable path, once, and nothing for another path. *)
Lemma print_file_submitted p h :
  PrinterManager.system self = "Linux" \/ PrinterManager.system self = "Darwin" ->
  submitted
    (fst (PrinterManager.print_file w self p printer_name print_options h))
  = if printable w p
    then [PrinterManager.lpr_cmd p printer_name print_options]
    else [].
Proof.
  intros Hsys. unfold PrinterManager.print_file, printable.
  destruct (PrinterManager.file_exists w p); [|reflexivity].
  destruct (String.eqb (lower (suffix p)) ".pdf"); [|reflexivity].
  cbn [negb andb].
  rewrite (try_except_any _ (fun e => (false, "Print error: " +++ exn_str e))).
  cbn [fst].
  destruct Hsys as [-> | ->]; cbn [String.eqb Ascii.eqb Bool.eqb].
  - now rewrite _print_linux_events.
  - now rewrite _print_mac_events.
Qed.

End PrintFile.

Section PrintLoop.

Variable w : PrinterManager.World.
Variable self : PrinterManager.t.
Variable n_files : Z.
Variable printer_name : option string.
Variable print_options : option (PrinterManager.dict string).
Variable progress_callback : bool.

(** One turn of the printing loop: the progress event, the call of
    [print_file], the assignment to the dictionary, the report line, and
    then the rest of the loop, whatever the outcome was. *)
Lemma print_loop_cons i p rest results h :
  let prog := if progress_callback
              then [IoProgress (i + 1) n_files ("Printing " +++ name p)]
              else [] in
  exists ev o,
    PrinterManager.print_file w self p printer_name print_options (h ++ prog)
    = (ev, Ok o) /\
    PrinterManager.print_loop w self n_files printer_name print_options
      progress_callback ((i, p) :: rest) results h
    = let t := prog ++ ev ++ [IoPrint (PrinterManager.report_line p o)] in
      let (t', res) :=
        PrinterManager.print_loop w self n_files printer_name print_options
          progress_callback rest
          (PrinterManager.dict_set results (str p) o) (h ++ t) in
      (t ++ t', res).
Proof.
  intros prog.
  destruct (PrinterManager.print_file w self p printer_name print_options
              (h ++ prog)) as [ev res] eqn:E.
  destruct (print_file_ok w self printer_name print_options p (h ++ prog))
    as [o Ho].
  rewrite E in Ho. cbn [snd] in Ho. subst res.
  exists ev, o. split; [reflexivity|].
  cbn [PrinterManager.print_loop]. unfold IO.bind, when, emit, ret.
  subst prog. destruct progress_callback; cbn [app].
  - rewrite E. cbn [app].
    rewrite <- !app_assoc. cbn [app].
    destruct (PrinterManager.print_loop w self n_files printer_name
                print_options true rest _ _) as [t' res].
    now rewrite <- !app_assoc.
  - rewrite !app_nil_r in *. rewrite E. rewrite <- !app_assoc. cbn [app].
    destruct (PrinterManager.print_loop w self n_files printer_name
                print_options false rest _ _) as [t' res].
    now rewrite <- !app_assoc.
Qed.

Lemma print_loop_spec items : forall results h,
  exists outcomes,
    snd (PrinterManager.print_loop w self n_files printer_name print_options
           progress_callback items results h)
    = Ok (assign_all (map snd items) outcomes results) /\
    List.length outcomes = List.length items /\
    printed (fst (PrinterManager.print_loop w self n_files printer_name
                    print_options progress_callback items results h))
    = map (fun po => PrinterManager.report_line (fst po) (snd po))
          (combine (map snd items) outcomes) /\
    Forall2 (fun p o =>
               exists t,
                 snd (PrinterManager.print_file w self p printer_name
                        print_options (h ++ t)) = Ok o)
            (map snd items) outcomes /\
    (PrinterManager.system self = "Linux"
     \/ PrinterManager.system self = "Darwin" ->
     submitted (fst (PrinterManager.print_loop w self n_files printer_name
                       print_options progress_callback items results h))
     = map (fun p => PrinterManager.lpr_cmd p printer_name print_options)
           (filter (printable w) (map snd items))).
Proof.
  induction items as [|[i p] rest IH]; intros results h.
  - exists []. repeat split; try reflexivity. constructor.
  - destruct (print_loop_cons i p rest results h) as (ev & o & Hpf & ->).
    cbv zeta.
    set (prog := if progress_callback
                 then [IoProgress (i + 1) n_files ("Printing " +++ name p)]
                 else []) in *.
    set (t := prog ++ ev ++ [IoPrint (PrinterManager.report_line p o)]).
    destruct (IH (PrinterManager.dict_set results (str p) o) (h ++ t))
      as (outcomes & Hres & Hlen & Hprinted & Hcalls & Hsub).
    destruct (PrinterManager.print_loop w self n_files printer_name
                print_options progress_callback rest
                (PrinterManager.dict_set results (str p) o) (h ++ t))
      as [t' res].
    cbn [fst snd] in *. exists (o :: outcomes).
    assert (Hev : ev = fst (PrinterManager.print_file w self p printer_name
                              print_options (h ++ prog)))
      by now rewrite Hpf.
    split; [|split; [|split; [|split]]].
    + rewrite Hres. reflexivity.
    + simpl. now rewrite Hlen.
    + unfold t. rewrite !printed_app, Hprinted, Hev, print_file_printed.
      subst prog. destruct progress_callback; reflexivity.
    + cbn [map snd]. constructor.
      * exists prog. now rewrite Hpf.
      * eapply Forall2_impl; [|exact Hcalls].
        intros q oq [t1 Ht1]. exists (t ++ t1). now rewrite app_assoc.
    + intros Hsys. unfold t. rewrite !submitted_app, (Hsub Hsys), Hev.
      rewrite (print_file_submitted w self printer_name print_options p _ Hsys).
      cbn [map filter snd].
      subst prog.
      destruct progress_callback; destruct (printable w p); reflexivity.
Qed.

End PrintLoop.

Lemma enumerate_from_snd {A} i (l : list A) : map snd (enumerate_from i l) = l.
Proof. revert i; induction l; intros; simpl; congruence. Qed.

(** ** Claim about batch printing *)



(** ** More about the splitter *)

Section Slices.

Context {A : Type}.
Implicit Types (l : list A).

Lemma firstn_then_firstn l (n m : nat) :
  firstn n l ++ firstn m (skipn n l) = firstn (n + m) l.
Proof.
  revert l; induction n as [|n IH]; intros l; [reflexivity|].
  destruct l as [|a l]; simpl.
  - now rewrite firstn_nil.
  - f_equal. apply IH.
Qed.

Lemma skipn_skipn_add l (n m : nat) : skipn m (skipn n l) = skipn (n + m) l.
Proof.
  revert l; induction n as [|n IH]; intros l; [reflexivity|].
  destruct l as [|a l]; cbn [Nat.add skipn]; [now rewrite skipn_nil | apply IH].
Qed.

Lemma slice_app l (lo b hi : Z) :
  1 <= lo -> lo <= b + 1 -> b <= hi ->
  slice l lo b ++ slice l (b + 1) hi = slice l lo hi.
Proof.
  intros Hlo Hb Hhi. unfold slice.
  replace (Z.to_nat (b + 1 - 1))
    with (Z.to_nat (lo - 1) + Z.to_nat (b - lo + 1))%nat by lia.
  rewrite <- skipn_skipn_add, firstn_then_firstn. f_equal. lia.
Qed.

Lemma slice_all l : slice l 1 (len l) = l.
Proof.
  unfold slice, len. cbn [Z.sub Z.to_nat Z.add Z.opp Z.pos_sub skipn].
  replace (Z.to_nat (Z.of_nat (List.length l) - 1 + 1)) with (List.length l)
    by lia.
  apply firstn_all.
Qed.

Lemma slice_length l (start stop : Z) :
  1 <= start -> start <= stop + 1 -> stop <= len l ->
  len (slice l start stop) = stop - start + 1.
Proof.
  intros H1 H2 H3. unfold slice, len in *.
  rewrite length_firstn, length_skipn. lia.
Qed.

(** The slices of ranges that tile an interval, put end to end, are the
    slice of the interval. *)
Lemma concat_slices l (rs : list (Z * Z)) : forall lo hi,
  tiles lo rs hi -> 1 <= lo ->
  List.concat (map (fun r => slice l (fst r) (snd r)) rs) = slice l lo hi.
Proof.
  induction rs as [|[a b] rs IH]; intros lo hi Ht Hlo; simpl in Ht.
  - subst lo. unfold slice.
    now replace (Z.to_nat (hi - (hi + 1) + 1)) with 0%nat by lia.
  - destruct Ht as (-> & Hab & Ht).
    pose proof (tiles_le _ _ _ Ht).
    cbn [map List.concat fst snd]. rewrite (IH (b + 1) hi Ht) by lia.
    apply slice_app; lia.
Qed.

End Slices.

Section ReadablePages.

Variable ps : list Page.
Variable encrypted : bool.

Lemma getitem_readable (n : Z) :
  0 <= n < len ps ->
  Py.bind (getitem (map (@Ok Page) ps) n) (fun p => p)
  = Ok (nth (Z.to_nat n) ps (page "")).
Proof.
  intros Hn. unfold getitem, len in *.
  destruct (Z.ltb_spec n 0); [lia|]. destruct (Z.ltb_spec n 0); [lia|].
  rewrite nth_error_map.
  destruct (nth_error ps (Z.to_nat n)) as [p|] eqn:E.
  - simpl. f_equal. symmetry. now apply nth_error_nth.
  - apply nth_error_None in E. lia.
Qed.

Lemma add_pages_consecutive (k : nat) (a : Z) :
  0 <= a -> a + Z.of_nat k <= len ps ->
  PDFSplitter.add_pages (PDFSplitter.mkReader (map Ok ps) encrypted)
    (range_items k a 1)
  = Ok (firstn k (skipn (Z.to_nat a) ps)).
Proof.
  revert a. induction k as [|k IH]; intros a Ha Hk; [reflexivity|].
  cbn [range_items PDFSplitter.add_pages PDFSplitter.pages].
  rewrite getitem_readable by lia. cbn [Py.bind].
  rewrite IH by lia. cbn [Py.bind]. f_equal.
  replace (Z.to_nat (a + 1)) with (S (Z.to_nat a)) by lia.
  unfold len in Hk.
  assert (Hlt : (Z.to_nat a < List.length ps)%nat) by lia.
  clear - Hlt. revert Hlt. generalize (Z.to_nat a) as n.
  induction ps as [|p l IHl]; intros n Hn; [simpl in Hn; lia|].
  destruct n as [|n]; [reflexivity|].
  cbn [nth skipn]. rewrite <- IHl by (simpl in Hn; lia). reflexivity.
Qed.

Lemma range_len_step1 (a b : Z) : range_len a b 1 = Z.max 0 (b - a).
Proof.
  unfold range_len. change (0 <? 1) with true. cbv iota.
  destruct (Z.ltb_spec a b); cbv iota; [|lia].
  rewrite Z.div_1_r. lia.
Qed.

(** The pages read for the range [start..stop] are that slice of the
    document. *)
Lemma add_pages_slice (start stop : Z) :
  1 <= start -> stop <= len ps ->
  PDFSplitter.add_pages (PDFSplitter.mkReader (map Ok ps) encrypted)
    (range2 (start - 1) stop)
  = Ok (slice ps start stop).
Proof.
  intros H1 H2. unfold range2, slice. rewrite range_len_step1.
  destruct (Z_lt_le_dec stop start) as [Hlt | Hle].
  - replace (Z.to_nat (Z.max 0 (stop - (start - 1)))) with 0%nat by lia.
    now replace (Z.to_nat (stop - start + 1)) with 0%nat by lia.
  - rewrite add_pages_consecutive by lia.
    do 2 f_equal. lia.
Qed.

End ReadablePages.

Section Observables.

Lemma writes_app t t' : writes (t ++ t') = writes t ++ writes t'.
Proof.
  induction t as [|ev t IH]; simpl; [reflexivity|].
  destruct ev; simpl; now rewrite ?IH.
Qed.

Lemma opened_app t t' : opened (t ++ t') = opened t ++ opened t'.
Proof.
  induction t as [|ev t IH]; simpl; [reflexivity|].
  destruct ev; simpl; now rewrite ?IH.
Qed.

Lemma written_writes t : written t = map fst (writes t).
Proof.
  induction t as [|ev t IH]; simpl; [reflexivity|].
  destruct ev; simpl; now rewrite ?IH.
Qed.

Lemma getitem_in_range {A} (l : list A) (i : Z) :
  0 <= i < len l -> exists a, getitem l i = Ok a.
Proof.
  intros Hi. unfold getitem, len in *.
  destruct (Z.ltb_spec i 0); [lia|]. destruct (Z.ltb_spec i 0); [lia|].
  destruct (nth_error l (Z.to_nat i)) as [a|] eqn:E; [eauto|].
  apply nth_error_None in E. lia.
Qed.

Lemma enumerate_from_In_snd {A} k (l : list A) i a :
  In (i, a) (enumerate_from k l) -> In a l.
Proof.
  revert k; induction l as [|b l IH]; intros k H; [destruct H|].
  cbn [enumerate_from] in H. destruct H as [H | H].
  - injection H as _ ->. now left.
  - right. eapply IH; eauto.
Qed.

End Observables.

Section SplitReadable.

Variable ps : list Page.
Variable input_file : Path.
Variable st : PDFSplitter.Storage.
Variable cb : bool.
Hypothesis Hst : accepts_all st.

Let r := PDFSplitter.mkReader (map Ok ps) false.

Lemma turn_readable n outs i s e f :
  1 <= s -> e <= len ps -> getitem outs i = Ok f ->
  turn st r n outs cb (i, (s, e))
  = ((if cb
      then [IoProgress (i + 1) n ("Creating part " +++ str_int (i + 1))]
      else [])
       ++ [IoOpenWb f; IoWrite f (slice ps s e);
           IoPrint (PDFSplitter.created_line f s e)],
     Ok tt).
Proof.
  intros Hs He Hf. unfold turn. rewrite split_range_unfold. cbv zeta.
  unfold r. rewrite add_pages_slice by assumption. rewrite Hf.
  destruct Hst as [Hopen Hwrite]. now rewrite Hopen, Hwrite.
Qed.

(** Turns over ranges inside the document, each with an output path, all
    end well; they open the files they write, and write the slices of the
    ranges. *)
Lemma turns_readable n outs (items : list (Z * (Z * Z))) :
  (forall i s e, In (i, (s, e)) items ->
                 1 <= s /\ e <= len ps /\ exists f, getitem outs i = Ok f) ->
  Forall (fun item => snd (turn st r n outs cb item) = Ok tt) items /\
  map snd (writes (flat_map (fun item => fst (turn st r n outs cb item)) items))
  = map (fun item => slice ps (fst (snd item)) (snd (snd item))) items /\
  opened (flat_map (fun item => fst (turn st r n outs cb item)) items)
  = written (flat_map (fun item => fst (turn st r n outs cb item)) items).
Proof.
  induction items as [|[i [s e]] items IH]; intros H.
  - repeat split. constructor.
  - destruct (H i s e (or_introl eq_refl)) as (Hs & He & f & Hf).
    destruct IH as (IH1 & IH2 & IH3);
      [intros; apply H; now right|].
    pose proof (turn_readable n outs i s e f Hs He Hf) as E.
    split; [|split].
    + constructor; [now rewrite E | assumption].
    + cbn [flat_map map]. rewrite writes_app, map_app, IH2, E. cbn [fst snd].
      rewrite writes_app. now destruct cb.
    + cbn [flat_map]. rewrite opened_app, written_app, IH3, E. cbn [fst].
      rewrite opened_app, written_app. now destruct cb.
Qed.

End SplitReadable.

(** Splitting a readable document into a storage that accepts every file. *)
Lemma split_pdf_readable
    (input_file : Path) (ps : list Page) (st : PDFSplitter.Storage)
    (pps : Z) (outs : list Path) (cb : bool) (h : list IOEvent) :
  0 < len ps -> 0 < pps -> accepts_all st ->
  (List.length (plan (len ps) pps) <= List.length outs)%nat ->
  exists trace,
    PDFSplitter.split_pdf st (loaded input_file ps) pps outs cb h
    = (trace, Ok true) /\
    map fst (writes trace) = firstn (List.length (plan (len ps) pps)) outs /\
    opened trace = map fst (writes trace) /\
    map snd (writes trace)
    = map (fun rg => slice ps (fst rg) (snd rg)) (plan (len ps) pps) /\
    List.concat (map snd (writes trace)) = ps.
Proof.
  intros Hps Hpps Hst Hlen.
  set (rs := plan (len ps) pps) in *.
  set (r := PDFSplitter.mkReader (map Ok ps) false).
  assert (Hrs : PDFSplitter._get_page_ranges (loaded input_file ps) pps = Ok rs)
    by (now rewrite _get_page_ranges_plan).
  pose proof (plan_tiles (len ps) pps Hpps Hps) as Htiles. fold rs in Htiles.
  rewrite (split_pdf_unfold st cb (loaded input_file ps) r pps outs rs h
             eq_refl Hrs).
  destruct (turns_readable ps st cb Hst (len rs) outs (enumerate rs))
    as (Hok & Hcontent & Hopened).
  { intros i s e Hin. pose proof (enumerate_from_In _ _ _ _ Hin) as Hi.
    apply enumerate_from_In_snd in Hin. apply In_nth_error in Hin.
    destruct Hin as [k Hk].
    pose proof (tiles_nth_bounds _ _ _ _ _ Htiles Hk) as Hb. cbn [fst snd] in Hb.
    split; [lia|]. split; [lia|].
    apply getitem_in_range. unfold len in *. lia. }
  fold r in Hok, Hcontent, Hopened.
  rewrite (for_each_all_ok st r (len rs) cb outs _ h Hok).
  eexists. split; [reflexivity|].
  assert (Hpaths : map fst (writes
            (flat_map (fun item => fst (turn st r (len rs) outs cb item))
                      (enumerate rs)))
          = firstn (List.length rs) outs).
  { rewrite <- written_writes.
    apply enumerate_getitem_firstn. now apply flat_map_written_ok. }
  split; [exact Hpaths|]. split; [now rewrite Hopened, written_writes|].
  assert (Hslices : map (fun item : Z * (Z * Z) =>
                           slice ps (fst (snd item)) (snd (snd item)))
                        (enumerate rs)
                    = map (fun rg => slice ps (fst rg) (snd rg)) rs).
  { unfold enumerate. rewrite <- (enumerate_from_snd 0 rs) at 2.
    now rewrite map_map. }
  split; [now rewrite Hcontent|].
  rewrite Hcontent, Hslices, (concat_slices ps rs 1 (len ps) Htiles) by lia.
  apply slice_all.
Qed.


(** X1. On a loaded document whose pages can all be read, with a storage
    that accepts every file, a positive cap and at least as many output
    paths as ranges, [split_pdf] answers [True]; it opens and writes the
    first output paths, one for each range and in order; each file holds
    the pages of its range; and the files put end to end hold the pages of
    the document, each once and in order. *)
Theorem split_pdf_writes_every_page
    (input_file : Path) (ps : list Page) (st : PDFSplitter.Storage)
    (pps : Z) (outs : list Path) (cb : bool) (h : list IOEvent) :
  0 < len ps -> 0 < pps -> accepts_all st ->
  (List.length (plan (len ps) pps) <= List.length outs)%nat ->
  exists trace,
    PDFSplitter.split_pdf st (loaded input_file ps) pps outs cb h
    = (trace, Ok true) /\
    map fst (writes trace) = firstn (List.length (plan (len ps) pps)) outs /\
    opened trace = map fst (writes trace) /\
    map snd (writes trace)
    = map (fun rg => slice ps (fst rg) (snd rg)) (plan (len ps) pps) /\
    List.concat (map snd (writes trace)) = ps.
Proof.
  intros Hps Hpps Hst Hlen.
  destruct (split_pdf_readable input_file ps st pps outs cb h Hps Hpps Hst Hlen)
    as (trace & Hrun & Hpaths & Hopened & Hcontent & Hall).
  exists trace. repeat split; assumption.
Qed.

Lemma split_pdf_writes_every_page_witness :
  exists trace,
    PDFSplitter.split_pdf sound_storage
      (loaded (mkPath "" ["in"; "doc.pdf"])
              [page "a"; page "b"; page "c"; page "d"; page "e"])
      2 three_parts true []
    = (trace, Ok true) /\
    writes trace
    = [(doc_part "doc_part_001.pdf", [page "a"; page "b"]);
       (doc_part "doc_part_002.pdf", [page "c"; page "d"]);
       (doc_part "doc_part_003.pdf", [page "e"])].
Proof.
  destruct (split_pdf_writes_every_page (mkPath "" ["in"; "doc.pdf"])
              [page "a"; page "b"; page "c"; page "d"; page "e"]
              sound_storage 2 three_parts true [])
    as (trace & H & _).
  - reflexivity.
  - reflexivity.
  - split; reflexivity.
  - simpl; lia.
  - exists trace. split; [exact H|].
    vm_compute in H. injection H as <-. reflexivity.
Defined.

(** X2. [split_pdf] opens and writes no file when the document is not
    loaded or the cap is not positive.  It answers [False] when no document
    is loaded and when the cap is 0 (the [ValueError] of [range] is
    caught), but [True], without a line printed, when the cap is
    negative. *)
Theorem split_pdf_degenerate
    (st : PDFSplitter.Storage) (self : PDFSplitter.t) (pps : Z)
    (outs : list Path) (cb : bool) (h : list IOEvent) :
  0 <= PDFSplitter.total_pages self ->
  (PDFSplitter.reader self = None ->
   PDFSplitter.split_pdf st self pps outs cb h
   = ([IoPrint "Error: PDF not loaded. Call load_pdf() first."], Ok false)) /\
  (PDFSplitter.reader self <> None -> pps = 0 ->
   PDFSplitter.split_pdf st self pps outs cb h
   = ([IoPrint ("Error during PDF splitting: "
                  +++ "range() arg 3 must not be zero")], Ok false)) /\
  (PDFSplitter.reader self <> None -> pps < 0 ->
   PDFSplitter.split_pdf st self pps outs cb h = ([], Ok true)).
Proof.
  intros Ht. split; [|split].
  - intros Hr. unfold PDFSplitter.split_pdf. now rewrite Hr.
  - intros Hr ->. destruct (PDFSplitter.reader self) as [r|] eqn:E;
      [|congruence].
    unfold PDFSplitter.split_pdf. rewrite E. reflexivity.
  - intros Hr Hp. destruct (PDFSplitter.reader self) as [r|] eqn:E;
      [|congruence].
    assert (Hrs : PDFSplitter._get_page_ranges self pps = Ok []).
    { unfold PDFSplitter._get_page_ranges, range3, range_len.
      destruct (Z.eqb_spec pps 0); [lia|].
      destruct (Z.ltb_spec 0 pps); [lia|].
      destruct (Z.ltb_spec (PDFSplitter.total_pages self) 0); [lia|].
      reflexivity. }
    rewrite (split_pdf_unfold st cb self r pps outs [] h E Hrs). reflexivity.
Qed.

Lemma split_pdf_degenerate_witness :
  PDFSplitter.split_pdf sound_storage doc20 (-8) three_parts true []
  = ([], Ok true).
Proof.
  apply (split_pdf_degenerate sound_storage doc20 (-8) three_parts true []).
  - simpl; lia.
  - discriminate.
  - lia.
Defined.

Section ExtractPageRange.

Variable st : PDFSplitter.Storage.

(** [extract_page_range] on a loaded splitter, step by step. *)
Lemma extract_page_range_unfold self r s e f h :
  PDFSplitter.reader self = Some r ->
  PDFSplitter.extract_page_range st self s e f h
  = if orb (orb (s <? 1) (e >? PDFSplitter.total_pages self)) (s >? e)
    then ([IoPrint ("Error: Invalid page range " +++ str_int s +++ "-"
                      +++ str_int e)], Ok false)
    else
      match PDFSplitter.add_pages r (range2 (s - 1) e) with
      | Raise x =>
          ([IoPrint ("Error extracting page range: " +++ exn_str x)], Ok false)
      | Ok w =>
          match PDFSplitter.open_wb st f with
          | Raise x =>
              ([IoPrint ("Error extracting page range: " +++ exn_str x)],
               Ok false)
          | Ok _ =>
              match PDFSplitter.write st f w with
              | Raise x =>
                  ([IoOpenWb f;
                    IoPrint ("Error extracting page range: " +++ exn_str x)],
                   Ok false)
              | Ok _ =>
                  ([IoOpenWb f; IoWrite f w;
                    IoPrint ("Extracted pages " +++ str_int s +++ "-"
                               +++ str_int e +++ " to: " +++ str f)],
                   Ok true)
              end
          end
      end.
Proof.
  intros Hr. unfold PDFSplitter.extract_page_range. rewrite Hr.
  unfold try_except, IO.bind, lift, emit, ret, any_exception.
  destruct (orb (orb (s <? 1) (e >? PDFSplitter.total_pages self)) (s >? e));
    [reflexivity|].
  destruct (PDFSplitter.add_pages r (range2 (s - 1) e)) as [w|x];
    [|reflexivity].
  destruct (PDFSplitter.open_wb st f) as [[]|x]; [|reflexivity].
  destruct (PDFSplitter.write st f w) as [[]|x]; reflexivity.
Qed.

End ExtractPageRange.

(** X3. [extract_page_range] never raises.  A range with [start < 1],
    [end > total_pages] or [start > end] is refused: the answer is
    [False] and no file is opened.  On a loaded document of readable pages
    and a storage that accepts the file, a range with
    [1 <= start <= end <= total_pages] is answered [True], and the one file
    written holds the [end - start + 1] pages from [start] to [end]. *)
Theorem extract_page_range_checked
    (st : PDFSplitter.Storage) (self : PDFSplitter.t)
    (s e : Z) (f : Path) (h : list IOEvent) :
  (exists b, snd (PDFSplitter.extract_page_range st self s e f h) = Ok b) /\
  (s < 1 \/ e > PDFSplitter.total_pages self \/ s > e ->
   snd (PDFSplitter.extract_page_range st self s e f h) = Ok false /\
   opened (fst (PDFSplitter.extract_page_range st self s e f h)) = []) /\
  (forall input_file ps,
     self = loaded input_file ps -> accepts_all st -> 1 <= s <= e -> e <= len ps ->
     snd (PDFSplitter.extract_page_range st self s e f h) = Ok true /\
     writes (fst (PDFSplitter.extract_page_range st self s e f h))
     = [(f, slice ps s e)] /\
     len (slice ps s e) = e - s + 1).
Proof.
  split; [|split].
  - destruct (PDFSplitter.reader self) as [r|] eqn:Hr.
    + rewrite (extract_page_range_unfold st self r s e f h Hr).
      destruct (orb _ _); [eexists; reflexivity|].
      destruct (PDFSplitter.add_pages r (range2 (s - 1) e)) as [w|x];
        [|eexists; reflexivity].
      destruct (PDFSplitter.open_wb st f) as [[]|x]; [|eexists; reflexivity].
      destruct (PDFSplitter.write st f w) as [[]|x]; eexists; reflexivity.
    + unfold PDFSplitter.extract_page_range. rewrite Hr.
      eexists; reflexivity.
  - intros Hbad. destruct (PDFSplitter.reader self) as [r|] eqn:Hr.
    + rewrite (extract_page_range_unfold st self r s e f h Hr).
      replace (orb (orb (s <? 1) (e >? PDFSplitter.total_pages self)) (s >? e))
        with true; [split; reflexivity|].
      symmetry. rewrite !orb_true_iff, Z.ltb_lt, !Z.gtb_ltb, !Z.ltb_lt. lia.
    + unfold PDFSplitter.extract_page_range. rewrite Hr. split; reflexivity.
  - intros input_file ps -> [Hopen Hwrite] Hse He.
    rewrite (extract_page_range_unfold st (loaded input_file ps)
               (PDFSplitter.mkReader (map Ok ps) false) s e f h eq_refl).
    cbn [loaded PDFSplitter.total_pages].
    replace (orb (orb (s <? 1) (e >? len ps)) (s >? e)) with false.
    + rewrite add_pages_slice by lia. rewrite Hopen, Hwrite.
      repeat split. apply slice_length; lia.
    + symmetry. rewrite !orb_false_iff, Z.ltb_ge, !Z.gtb_ltb, !Z.ltb_ge. lia.
Qed.

Lemma extract_page_range_checked_witness :
  snd (PDFSplitter.extract_page_range sound_storage doc20 5 21
         (doc_part "x.pdf") []) = Ok false /\
  opened (fst (PDFSplitter.extract_page_range sound_storage doc20 5 21
                 (doc_part "x.pdf") [])) = [].
Proof.
  apply (extract_page_range_checked sound_storage doc20 5 21
           (doc_part "x.pdf") []).
  right; left. simpl; lia.
Defined.

(** X4. One turn of [split_pdf] does to its output file what
    [extract_page_range] does for the same range and file: for a range
    inside the document and an output path at the turn's index, both open
    the same file, write the same pages, and the turn ends well exactly
    when the extraction answers [True], whatever the reader and the storage
    do. *)
Theorem split_turn_is_extraction
    (st : PDFSplitter.Storage) (self : PDFSplitter.t)
    (r : PDFSplitter.PdfReader) (n : Z) (outs : list Path) (cb : bool)
    (i s e : Z) (f : Path) (h : list IOEvent) :
  PDFSplitter.reader self = Some r ->
  1 <= s <= e -> e <= PDFSplitter.total_pages self ->
  getitem outs i = Ok f ->
  opened (fst (turn st r n outs cb (i, (s, e))))
  = opened (fst (PDFSplitter.extract_page_range st self s e f h)) /\
  writes (fst (turn st r n outs cb (i, (s, e))))
  = writes (fst (PDFSplitter.extract_page_range st self s e f h)) /\
  (snd (turn st r n outs cb (i, (s, e))) = Ok tt <->
   snd (PDFSplitter.extract_page_range st self s e f h) = Ok true).
Proof.
  intros Hr Hse He Hf.
  rewrite (extract_page_range_unfold st self r s e f h Hr).
  replace (orb (orb (s <? 1) (e >? PDFSplitter.total_pages self)) (s >? e))
    with false
    by (symmetry; rewrite !orb_false_iff, Z.ltb_ge, !Z.gtb_ltb, !Z.ltb_ge; lia).
  unfold turn. rewrite split_range_unfold. cbv zeta. rewrite Hf.
  destruct (PDFSplitter.add_pages r (range2 (s - 1) e)) as [w|x].
  - destruct (PDFSplitter.open_wb st f) as [[]|x].
    + destruct (PDFSplitter.write st f w) as [[]|x]; cbn [fst snd];
        rewrite ?opened_app, ?writes_app; destruct cb;
        repeat split; intros; try reflexivity; try discriminate.
    + destruct cb; repeat split; intros; try reflexivity; try discriminate.
  - destruct cb; repeat split; intros; try reflexivity; try discriminate.
Qed.

Lemma split_turn_is_extraction_witness :
  writes (fst (turn sound_storage
                 (PDFSplitter.mkReader (good_pages 20) false) 3 three_parts
                 true (1, (9, 16))))
  = writes (fst (PDFSplitter.extract_page_range sound_storage doc20 9 16
                   (doc_part "doc_part_002.pdf") [])).
Proof.
  apply (split_turn_is_extraction sound_storage doc20
           (PDFSplitter.mkReader (good_pages 20) false) 3 three_parts true
           1 9 16 (doc_part "doc_part_002.pdf") []).
  - reflexivity.
  - lia.
  - simpl; lia.
  - reflexivity.
Defined.

Section SplitInfo.

Lemma plan_empty cap : 0 < cap -> plan 0 cap = [].
Proof.
  intros Hc. unfold plan, range_len.
  destruct (Z.ltb_spec 0 cap); [|lia]. reflexivity.
Qed.

Lemma plan_count total cap :
  0 < cap -> 0 <= total -> len (plan total cap) = (total + cap - 1) / cap.
Proof.
  intros Hc Ht. destruct (Z.eq_dec total 0) as [->|Hne].
  - rewrite plan_empty by assumption. rewrite Z.div_small by lia. reflexivity.
  - apply plan_length; lia.
Qed.

Lemma tiles_pages_in lo rs hi : tiles lo rs hi -> pages_in rs = hi - lo + 1.
Proof.
  revert lo; induction rs as [|[a b] rs IH]; intros lo H; simpl in H.
  - subst lo. unfold pages_in; simpl. lia.
  - destruct H as (-> & Hab & H). apply IH in H.
    unfold pages_in in *. cbn [map fold_right]. rewrite H.
    unfold range_size; simpl. lia.
Qed.

Lemma plan_pages_in total cap :
  0 < cap -> 0 <= total -> pages_in (plan total cap) = total.
Proof.
  intros Hc Ht. destruct (Z.eq_dec total 0) as [->|Hne].
  - now rewrite plan_empty.
  - rewrite (tiles_pages_in 1 _ total); [lia|]. apply plan_tiles; lia.
Qed.

Lemma plan_In_bounds total cap rg :
  0 < cap -> 0 <= total -> In rg (plan total cap) ->
  1 <= fst rg /\ fst rg <= snd rg /\ snd rg <= total /\ range_size rg <= cap.
Proof.
  intros Hc Ht Hin. destruct (Z.eq_dec total 0) as [->|Hne].
  - rewrite plan_empty in Hin by assumption. destruct Hin.
  - assert (Hpos : 0 < total) by lia.
    apply In_nth_error in Hin. destruct Hin as [k Hk].
    pose proof (tiles_nth_bounds _ _ _ _ _ (plan_tiles total cap Hc Hpos) Hk)
      as Hb.
    assert (Hlt : (k < List.length (plan total cap))%nat)
      by (apply nth_error_Some; congruence).
    pose proof (plan_length total cap Hc Hpos) as Hlen. unfold len in Hlen.
    rewrite <- (Nat2Z.id k) in Hk.
    rewrite plan_nth in Hk by lia. injection Hk as <-.
    unfold range_size in *. cbn [fst snd] in *. lia.
Qed.

Lemma plan_single total cap :
  0 < total -> total <= cap -> plan total cap = [(1, total)].
Proof.
  intros Ht Hc. unfold plan. rewrite range_len_pos by lia.
  replace ((total + cap - 1) / cap) with 1.
  - simpl. unfold range_of. f_equal. f_equal. lia.
  - apply Z.div_unique with (r := total - 1); lia.
Qed.

Lemma calculate_split_info_plan self cap :
  0 < cap ->
  PDFSplitter.calculate_split_info self cap
  = Ok (PDFSplitter.mkInfo (PDFSplitter.total_pages self) cap
          ((PDFSplitter.total_pages self + cap - 1) / cap)
          (if PDFSplitter.total_pages self mod cap =? 0 then cap
           else PDFSplitter.total_pages self mod cap)
          (plan (PDFSplitter.total_pages self) cap)).
Proof.
  intros Hc. unfold PDFSplitter.calculate_split_info, floordiv, modulo.
  rewrite _get_page_ranges_plan by assumption.
  destruct (Z.eqb_spec cap 0); [lia|]. reflexivity.
Qed.

End SplitInfo.

(** X5. For a positive cap and any page count, [calculate_split_info]
    reports as [num_splits] the number of ranges it lists; the ranges lie
    inside the document, none holds more than the cap, and together they
    hold [total_pages] pages.  When the cap is at least the page count of a
    document with pages, the plan is the single range from 1 to the last
    page and [last_split_pages] is the page count. *)
Theorem calculate_split_info_counts (self : PDFSplitter.t) (cap : Z) :
  0 < cap -> 0 <= PDFSplitter.total_pages self ->
  exists info,
    PDFSplitter.calculate_split_info self cap = Ok info /\
    PDFSplitter.num_splits info = len (PDFSplitter.ranges info) /\
    pages_in (PDFSplitter.ranges info) = PDFSplitter.total_pages self /\
    (forall rg, In rg (PDFSplitter.ranges info) ->
       1 <= fst rg /\ fst rg <= snd rg /\
       snd rg <= PDFSplitter.total_pages self /\ range_size rg <= cap) /\
    (0 < PDFSplitter.total_pages self -> PDFSplitter.total_pages self <= cap ->
     PDFSplitter.ranges info = [(1, PDFSplitter.total_pages self)] /\
     PDFSplitter.num_splits info = 1 /\
     PDFSplitter.last_split_pages info = PDFSplitter.total_pages self).
Proof.
  intros Hc Ht. rewrite calculate_split_info_plan by assumption.
  eexists. split; [reflexivity|].
  cbn [PDFSplitter.num_splits PDFSplitter.ranges PDFSplitter.last_split_pages].
  split; [now rewrite plan_count|].
  split; [now apply plan_pages_in|].
  split; [intros rg; now apply plan_In_bounds|].
  intros Hpos Hle. split; [now apply plan_single|]. split.
  - symmetry. apply Z.div_unique with (r := PDFSplitter.total_pages self - 1); lia.
  - destruct (Z.eq_dec (PDFSplitter.total_pages self) cap) as [E|E].
    + rewrite E, Z_mod_same_full. reflexivity.
    + rewrite Z.mod_small by lia.
      destruct (Z.eqb_spec (PDFSplitter.total_pages self) 0); [lia|reflexivity].
Qed.

Lemma calculate_split_info_counts_witness :
  exists info,
    PDFSplitter.calculate_split_info doc20 25 = Ok info /\
    PDFSplitter.ranges info = [(1, 20)] /\
    PDFSplitter.last_split_pages info = 20.
Proof.
  destruct (calculate_split_info_counts doc20 25) as (info & H & _ & _ & _ & Hs);
    [lia | simpl; lia |].
  exists info. split; [exact H|].
  destruct Hs as (H1 & _ & H3); [simpl; lia | simpl; lia |].
  split; [exact H1 | exact H3].
Defined.

Section Preview.

Lemma for_each_print {A} (g : A -> string) (items : list A) h :
  for_each items (fun item => emit (IoPrint (g item))) h
  = (map (fun item => IoPrint (g item)) items, Ok tt).
Proof.
  revert h. induction items as [|a items IH]; intros h; [reflexivity|].
  cbn [for_each]. unfold IO.bind, emit at 1. now rewrite IH.
Qed.

Lemma printed_prints (ls : list string) : printed (map IoPrint ls) = ls.
Proof. induction ls; simpl; congruence. Qed.

Lemma opened_prints (ls : list string) : opened (map IoPrint ls) = [].
Proof. induction ls; simpl; congruence. Qed.

Lemma writes_prints (ls : list string) : writes (map IoPrint ls) = [].
Proof. induction ls; simpl; congruence. Qed.

Lemma preview_split_unfold self r pps h :
  PDFSplitter.reader self = Some r ->
  PDFSplitter.preview_split self pps h
  = match PDFSplitter.calculate_split_info self pps with
    | Raise x => ([], Raise x)
    | Ok info => (map IoPrint (preview_lines self info), Ok tt)
    end.
Proof.
  intros Hr. unfold PDFSplitter.preview_split. rewrite Hr.
  unfold IO.bind at 1. unfold lift at 1.
  destruct (PDFSplitter.calculate_split_info self pps) as [info|x];
    [|reflexivity].
  unfold IO.bind. cbv beta. unfold emit at 1 2 3 4 5 6 7. cbv beta iota.
  rewrite for_each_print. unfold emit.
  unfold preview_lines. rewrite !map_app, map_map. reflexivity.
Qed.

End Preview.

(** X6. [preview_split] opens and writes no file, whatever it is given.
    On a loaded splitter with a positive cap it ends well having printed
    seven heading lines, one line for each range of the plan in order, and
    the closing line; with a cap of 0 it raises [ZeroDivisionError] before
    printing anything. *)
Theorem preview_split_only_prints
    (self : PDFSplitter.t) (pps : Z) (h : list IOEvent) :
  opened (fst (PDFSplitter.preview_split self pps h)) = [] /\
  writes (fst (PDFSplitter.preview_split self pps h)) = [] /\
  (PDFSplitter.reader self <> None -> pps = 0 ->
   PDFSplitter.preview_split self pps h = ([], Raise ZeroDivisionError)) /\
  (PDFSplitter.reader self <> None -> 0 < pps ->
   exists info,
     PDFSplitter.calculate_split_info self pps = Ok info /\
     PDFSplitter.preview_split self pps h
     = (map IoPrint (preview_lines self info), Ok tt) /\
     PDFSplitter.ranges info = plan (PDFSplitter.total_pages self) pps /\
     List.length (preview_lines self info)
     = (8 + List.length (plan (PDFSplitter.total_pages self) pps))%nat).
Proof.
  destruct (PDFSplitter.reader self) as [r|] eqn:Hr.
  - rewrite (preview_split_unfold self r pps h Hr).
    split; [|split; [|split]].
    + destruct (PDFSplitter.calculate_split_info self pps); cbn [fst];
        [apply opened_prints | reflexivity].
    + destruct (PDFSplitter.calculate_split_info self pps); cbn [fst];
        [apply writes_prints | reflexivity].
    + intros _ ->. reflexivity.
    + intros _ Hp. rewrite calculate_split_info_plan by assumption.
      eexists. split; [reflexivity|]. split; [reflexivity|].
      split; [reflexivity|].
      unfold preview_lines. cbn [PDFSplitter.ranges].
      rewrite !length_app, length_map. unfold enumerate.
      rewrite enumerate_from_length. simpl. lia.
  - unfold PDFSplitter.preview_split. rewrite Hr.
    repeat split; try reflexivity; intros; congruence.
Qed.

Lemma preview_split_only_prints_witness :
  exists info,
    PDFSplitter.calculate_split_info doc20 8 = Ok info /\
    PDFSplitter.preview_split doc20 8 []
    = (map IoPrint (preview_lines doc20 info), Ok tt) /\
    List.length (preview_lines doc20 info) = 11%nat.
Proof.
  destruct (preview_split_only_prints doc20 8 []) as (_ & _ & _ & H).
  destruct H as (info & H1 & H2 & _ & H4); [discriminate | lia |].
  exists info. split; [exact H1|]. split; [exact H2|].
  rewrite H4. reflexivity.
Defined.

Section LoadPdf.


Lemma load_pdf_unfold opened self h :
  PDFSplitter.load_pdf opened self h
  = match opened with
    | Ok r =>
        if len (PDFSplitter.pages r) =? 0 then
          ([IoPrint ("Error: PDF file '" +++ str (PDFSplitter.input_file self)
                       +++ "' has no pages.")],
           Ok (false, PDFSplitter.mk (PDFSplitter.input_file self) (Some r)
                        (len (PDFSplitter.pages r))))
        else
          ([IoPrint ("Successfully loaded PDF: "
                       +++ str_int (len (PDFSplitter.pages r)) +++ " pages")],
           Ok (true, PDFSplitter.mk (PDFSplitter.input_file self) (Some r)
                       (len (PDFSplitter.pages r))))
    | Raise e =>
        ([IoPrint ("Error loading PDF file '"
                     +++ str (PDFSplitter.input_file self) +++ "': "
                     +++ exn_str e)],
         Ok (false, self))
    end.
Proof.
  unfold PDFSplitter.load_pdf. destruct opened as [r|e]; [|reflexivity].
  cbn [PDFSplitter.total_pages].
  destruct (len (PDFSplitter.pages r) =? 0); reflexivity.
Qed.

End LoadPdf.



(** ** More about the file manager *)

Section ResolvedFree.

Variable exists_ : Path -> bool.

Lemma resolved_from_free p r : resolved_from exists_ p r -> exists_ r = false.
Proof. intros [[E ->] | [_ (k & _ & _ & E & _)]]; assumption. Qed.

Lemma handle_filename_conflicts_fixed fuel files :
  (0 < fuel)%nat -> Forall (fun p => exists_ p = false) files ->
  FileManager.handle_filename_conflicts fuel exists_ files = Some files.
Proof.
  intros Hfuel H. induction H as [|p files Hp H IH]; [reflexivity|].
  cbn [FileManager.handle_filename_conflicts].
  destruct fuel as [|fuel]; [lia|].
  cbn [FileManager.resolve_loop]. rewrite Hp. now rewrite IH.
Qed.

End ResolvedFree.

(** X8. No path [handle_filename_conflicts] returns exists according to the
    storage predicate, so a file written under a returned path overwrites
    nothing the predicate knows of; the list returned is as long as the list
    given; paths that do not exist are returned unchanged; and resolving the
    returned list again returns it unchanged. *)
Theorem resolved_paths_are_free
    (exists_ : Path -> bool) (fuel : nat) (files rs : list Path) :
  FileManager.handle_filename_conflicts fuel exists_ files = Some rs ->
  Forall (fun r => exists_ r = false) rs /\
  List.length rs = List.length files /\
  (Forall (fun p => exists_ p = false) files -> rs = files) /\
  FileManager.handle_filename_conflicts fuel exists_ rs = Some rs.
Proof.
  intros H.
  pose proof (handle_filename_conflicts_sound exists_ fuel files rs H) as HF.
  assert (Hfree : Forall (fun r => exists_ r = false) rs).
  { clear H. induction HF as [|p r ps rs' Hr _ IH]; constructor; auto.
    now apply (resolved_from_free exists_ p). }
  split; [exact Hfree|]. split; [symmetry; eapply Forall2_length; eauto|].
  split.
  - intros Hnone. clear H Hfree.
    induction HF as [|p r ps rs' Hr _ IH]; [reflexivity|].
    inversion Hnone as [|? ? Hp Hps]; subst.
    rewrite IH by assumption. f_equal.
    destruct Hr as [[_ ->] | [E _]]; [reflexivity | congruence].
  - destruct fuel as [|fuel].
    + destruct files as [|p files]; [injection H as <-; reflexivity|].
      discriminate H.
    + apply handle_filename_conflicts_fixed; [lia | exact Hfree].
Qed.

Lemma resolved_paths_are_free_witness :
  Forall (fun r =>
            FileManager.exists_in [doc_part "doc_part_001.pdf"] r = false)
         [doc_part "doc_part_001_1.pdf"; doc_part "doc_part_002.pdf"].
Proof.
  apply (resolved_paths_are_free
           (FileManager.exists_in [doc_part "doc_part_001.pdf"]) 3
           [doc_part "doc_part_001.pdf"; doc_part "doc_part_002.pdf"]).
  reflexivity.
Defined.

(** X9. Conflict resolution looks at the storage only, not at the paths it
    has already returned: for a path that exists and whose first renaming
    does not, the list of the path followed by that renaming is resolved to
    the renaming twice. *)
Theorem conflict_resolution_can_collide
    (exists_ : Path -> bool) (fuel : nat) (p : Path) :
  (2 <= fuel)%nat ->
  exists_ p = true -> exists_ (FileManager.renamed p 1) = false ->
  FileManager.handle_filename_conflicts fuel exists_
    [p; FileManager.renamed p 1]
  = Some [FileManager.renamed p 1; FileManager.renamed p 1] /\
  p <> FileManager.renamed p 1.
Proof.
  intros Hfuel Hp Hr. split.
  - destruct fuel as [|[|fuel]]; [lia | lia |].
    cbn [FileManager.handle_filename_conflicts FileManager.resolve_loop].
    rewrite Hp, Hr. reflexivity.
  - intros E. rewrite <- E in Hr. congruence.
Qed.

Lemma conflict_resolution_can_collide_witness :
  FileManager.handle_filename_conflicts 2
    (FileManager.exists_in [doc_part "a.pdf"])
    [doc_part "a.pdf"; doc_part "a_1.pdf"]
  = Some [doc_part "a_1.pdf"; doc_part "a_1.pdf"].
Proof.
  exact (proj1 (conflict_resolution_can_collide
                  (FileManager.exists_in [doc_part "a.pdf"]) 2
                  (doc_part "a.pdf") (le_n 2) eq_refl eq_refl)).
Defined.

Section Cleanup.

Variable unlink_error : Path -> option exn.

Lemma exists_in_iff disk p : FileManager.exists_in disk p = true <-> In p disk.
Proof.
  unfold FileManager.exists_in.
  destruct (in_dec Path_eq_dec p disk); split; auto; discriminate.
Qed.

Lemma cleanup_temp_files_disk file_list : forall disk p,
  In p (snd (FileManager.cleanup_temp_files unlink_error file_list disk))
  <-> In p disk /\ (~ In p file_list \/ unlink_error p <> None).
Proof.
  induction file_list as [|f rest IH]; intros disk p;
    cbn [FileManager.cleanup_temp_files].
  - simpl. intuition.
  - destruct (FileManager.exists_in disk f) eqn:E.
    + apply exists_in_iff in E.
      destruct (unlink_error f) as [e|] eqn:U.
      * destruct (FileManager.cleanup_temp_files unlink_error rest disk)
          as [t d] eqn:C.
        cbn [snd]. specialize (IH disk p). rewrite C in IH. cbn [snd] in IH.
        rewrite IH. simpl. split.
        -- intros [Hp [Hn | Hu]]; split; auto.
           destruct (Path_eq_dec f p) as [->|Hne]; [right; congruence|].
           left. intros [? | ?]; auto.
        -- intros [Hp [Hn | Hu]]; split; auto.
      * destruct (FileManager.cleanup_temp_files unlink_error rest
                    (remove Path_eq_dec f disk)) as [t d] eqn:C.
        cbn [snd]. specialize (IH (remove Path_eq_dec f disk) p).
        rewrite C in IH. cbn [snd] in IH. rewrite IH. simpl. split.
        -- intros [Hp Hrest]. apply in_remove in Hp. destruct Hp as [Hp Hne].
           split; [assumption|].
           destruct Hrest as [Hn | Hu]; [left | right; assumption].
           intros [? | ?]; [congruence | auto].
        -- intros [Hp Hrest].
           assert (Hne : p <> f).
           { intros ->. destruct Hrest as [Hn | Hu]; [apply Hn; now left|].
             congruence. }
           split; [now apply in_in_remove|].
           destruct Hrest as [Hn | Hu]; [left; intros ?; apply Hn; now right|].
           now right.
    + assert (Hf : ~ In f disk).
      { intros Hin. apply exists_in_iff in Hin. congruence. }
      rewrite IH. simpl. split.
      * intros [Hp [Hn | Hu]]; split; auto.
        left. intros [-> | ?]; auto.
      * intros [Hp [Hn | Hu]]; split; auto.
Qed.

End Cleanup.

(** X10. After [cleanup_temp_files] the paths that exist are those that
    existed before and either were not in the list or could not be
    unlinked: a failure to remove one file does not stop the removal of the
    others, and a path outside the list is never removed.  When every
    unlink succeeds, no listed path exists afterwards. *)
Theorem cleanup_temp_files_removes_listed
    (unlink_error : Path -> option exn) (file_list disk : list Path) :
  (forall p,
     In p (snd (FileManager.cleanup_temp_files unlink_error file_list disk))
     <-> In p disk /\ (~ In p file_list \/ unlink_error p <> None)) /\
  ((forall p, unlink_error p = None) ->
   forall p, In p file_list ->
     ~ In p (snd (FileManager.cleanup_temp_files unlink_error file_list disk))).
Proof.
  split; [apply cleanup_temp_files_disk|].
  intros Hok p Hp Hin. apply cleanup_temp_files_disk in Hin.
  destruct Hin as [_ [Hn | Hu]]; [contradiction|]. now apply Hu.
Qed.

Lemma cleanup_temp_files_removes_listed_witness :
  snd (FileManager.cleanup_temp_files
         (fun p => if Path_eq_dec p (doc_part "b.pdf")
                   then Some (OSError "busy") else None)
         [doc_part "a.pdf"; doc_part "b.pdf"; doc_part "a.pdf";
          doc_part "missing.pdf"]
         [doc_part "keep.pdf"; doc_part "b.pdf"; doc_part "a.pdf"])
  = [doc_part "keep.pdf"; doc_part "b.pdf"] /\
  ~ In (doc_part "a.pdf")
       (snd (FileManager.cleanup_temp_files (fun _ => None)
               [doc_part "a.pdf"] [doc_part "keep.pdf"; doc_part "a.pdf"])).
Proof.
  split; [vm_compute; reflexivity|].
  apply (proj2 (cleanup_temp_files_removes_listed (fun _ => None)
                  [doc_part "a.pdf"] [doc_part "keep.pdf"; doc_part "a.pdf"])).
  - reflexivity.
  - now left.
Defined.

(** ** From the names to the files *)

Section Pipeline.

Variable fm : FileManager.t.

Lemma resolved_generated_range_NoDup (exists_ : Path -> bool) (fuel : nat)
    (m : Z) (rs : list Path) :
  FileManager.handle_filename_conflicts fuel exists_
    (map (fun i => generated fm (i + 1)) (range1 m)) = Some rs ->
  NoDup rs.
Proof.
  intros Hrs. apply handle_filename_conflicts_sound in Hrs.
  rewrite <- (map_map (fun i => i + 1) (generated fm)) in Hrs.
  apply (resolved_generated_NoDup fm exists_) in Hrs; [assumption| |].
  - intros i Hi. apply in_map_iff in Hi. destruct Hi as (x & <- & Hx).
    apply range1_In in Hx. lia.
  - apply map_NoDup_on; [intros; lia | apply range_items_NoDup].
Qed.

(** For a positive cap the file manager generates as many names as the
    splitter computes ranges. *)
Lemma generated_count_is_plan_count total pps :
  0 < pps -> 0 <= total ->
  List.length (map (fun i => generated fm (i + 1))
                   (range1 ((total + pps - 1) / pps)))
  = List.length (plan total pps).
Proof.
  intros Hp Ht. rewrite length_map.
  pose proof (range1_length ((total + pps - 1) / pps)) as H1.
  pose proof (plan_count total pps Hp Ht) as H2.
  unfold len in *.
  assert (0 <= (total + pps - 1) / pps) by (apply Z.div_pos; lia).
  lia.
Qed.

End Pipeline.

(** The steps of [main] from the names to the files, for a document of
    readable pages. *)
Lemma names_to_files_steps
    (fm : FileManager.t) (input_file : Path) (ps : list Page)
    (st : PDFSplitter.Storage) (pps : Z) (storage : list Path) (fuel : nat)
    (cb : bool) (h : list IOEvent) :
  fst (PDFSplitter.validate_split_parameters (loaded input_file ps) pps) = true ->
  accepts_all st ->
  (List.length storage + 2 <= fuel)%nat ->
  exists gen outs trace,
    FileManager.generate_output_filenames fm
      (PDFSplitter.get_total_pages (loaded input_file ps)) pps = Ok gen /\
    FileManager.handle_filename_conflicts fuel
      (FileManager.exists_in storage) gen = Some outs /\
    PDFSplitter.split_pdf st (loaded input_file ps) pps outs cb h
    = (trace, Ok true) /\
    map fst (writes trace) = outs /\
    List.length outs = List.length (plan (len ps) pps) /\
    NoDup outs /\
    (forall f, In f outs -> ~ In f storage) /\
    List.concat (map snd (writes trace)) = ps.
Proof.
  intros Hvalid Hst Hfuel.
  unfold PDFSplitter.validate_split_parameters in Hvalid.
  cbn [loaded PDFSplitter.total_pages] in Hvalid.
  destruct (Z.leb_spec pps 0); [discriminate|].
  destruct (Z.geb_spec pps (len ps)); [discriminate|].
  assert (Hp : 0 < pps) by lia. assert (Ht : 0 < len ps) by lia.
  unfold PDFSplitter.get_total_pages. cbn [loaded PDFSplitter.total_pages].
  rewrite generate_output_filenames_ok by lia.
  set (gen := map (fun i => generated fm (i + 1))
                  (range1 ((len ps + pps - 1) / pps))).
  destruct (handle_filename_conflicts_terminates storage fuel gen Hfuel)
    as [outs Houts].
  pose proof (handle_filename_conflicts_sound _ _ _ _ Houts) as HF.
  assert (Hlen : List.length outs = List.length (plan (len ps) pps)).
  { rewrite <- (Forall2_length HF). unfold gen.
    apply generated_count_is_plan_count; lia. }
  destruct (split_pdf_readable input_file ps st pps outs cb h Ht Hp Hst)
    as (trace & Hrun & Hpaths & _ & _ & Hall); [lia|].
  exists gen, outs, trace.
  split; [reflexivity|]. split; [exact Houts|]. split; [exact Hrun|].
  split; [rewrite Hpaths, <- Hlen; apply firstn_all|].
  split; [exact Hlen|].
  split; [exact (resolved_generated_range_NoDup fm _ _ _ _ Houts)|].
  split; [|exact Hall].
  intros f Hf Hin. apply exists_in_true in Hin.
  assert (Hfree : Forall (fun r => FileManager.exists_in storage r = false) outs).
  { clear - HF. induction HF as [|p r ps' rs' Hr _ IH]; constructor; auto.
    now apply (resolved_from_free _ p). }
  rewrite Forall_forall in Hfree. specialize (Hfree f Hf). congruence.
Qed.

(** X11. The steps of [main] from the names to the files fit together.
    For a loaded document of readable pages, a cap that
    [validate_split_parameters] accepts, a storage snapshot and a storage
    that accepts every file: [generate_output_filenames] for the page count
    of the splitter returns names, [handle_filename_conflicts] resolves
    them, and [split_pdf] given the resolved paths answers [True], writing
    each resolved path once and in order, as many files as there are
    ranges.  The paths written are pairwise different, none of them is in
    the snapshot, and the files put end to end hold the pages of the
    document. *)
Theorem names_to_files
    (fm : FileManager.t) (input_file : Path) (ps : list Page)
    (st : PDFSplitter.Storage) (pps : Z) (storage : list Path) (fuel : nat)
    (cb : bool) (h : list IOEvent) :
  fst (PDFSplitter.validate_split_parameters (loaded input_file ps) pps) = true ->
  accepts_all st ->
  (List.length storage + 2 <= fuel)%nat ->
  exists gen outs trace,
    FileManager.generate_output_filenames fm
      (PDFSplitter.get_total_pages (loaded input_file ps)) pps = Ok gen /\
    FileManager.handle_filename_conflicts fuel
      (FileManager.exists_in storage) gen = Some outs /\
    PDFSplitter.split_pdf st (loaded input_file ps) pps outs cb h
    = (trace, Ok true) /\
    map fst (writes trace) = outs /\
    List.length outs = List.length (plan (len ps) pps) /\
    NoDup outs /\
    (forall f, In f outs -> ~ In f storage) /\
    List.concat (map snd (writes trace)) = ps.
Proof.
  intros Hvalid Hst Hfuel.
  destruct (names_to_files_steps fm input_file ps st pps storage fuel cb h
              Hvalid Hst Hfuel)
    as (gen & outs & trace & Hgen & Houts & Hrun & Hpaths & Hlen & Hnd
        & Hfree & Hall).
  exists gen, outs, trace. repeat split; assumption.
Qed.

Lemma names_to_files_witness :
  exists gen outs trace,
    FileManager.generate_output_filenames doc_manager 5 2 = Ok gen /\
    FileManager.handle_filename_conflicts 3
      (FileManager.exists_in [doc_part "doc_part_002.pdf"]) gen = Some outs /\
    PDFSplitter.split_pdf sound_storage
      (loaded (mkPath "" ["in"; "doc.pdf"])
              [page "a"; page "b"; page "c"; page "d"; page "e"])
      2 outs false []
    = (trace, Ok true) /\
    map fst (writes trace) = outs /\
    NoDup outs.
Proof.
  destruct (names_to_files doc_manager (mkPath "" ["in"; "doc.pdf"])
              [page "a"; page "b"; page "c"; page "d"; page "e"]
              sound_storage 2 [doc_part "doc_part_002.pdf"] 3 false [])
    as (gen & outs & trace & H1 & H2 & H3 & H4 & _ & H6 & _).
  - reflexivity.
  - split; reflexivity.
  - simpl; lia.
  - exists gen, outs, trace. repeat split; assumption.
Defined.

(** ** More about printing *)

Section PrintFileMore.

Variable w : PrinterManager.World.
Variable printer_name : option string.
Variable print_options : option (PrinterManager.dict string).

Lemma print_file_printable self p h :
  printable w p = true ->
  PrinterManager.print_file w self p printer_name print_options h
  = try_except
      (if String.eqb (PrinterManager.system self) "Windows" then
         PrinterManager._print_windows w p printer_name print_options
       else if String.eqb (PrinterManager.system self) "Darwin" then
         PrinterManager._print_mac w p printer_name print_options
       else if String.eqb (PrinterManager.system self) "Linux" then
         PrinterManager._print_linux w p printer_name print_options
       else ret (false, "Printing not supported on "
                          +++ PrinterManager.system self))
      any_exception
      (fun e => ret (false, "Print error: " +++ exn_str e)) h.
Proof.
  unfold printable, PrinterManager.print_file. intros H.
  apply andb_true_iff in H. destruct H as [-> ->]. reflexivity.
Qed.


Lemma print_file_lpr self p h :
  PrinterManager.system self = "Linux" \/ PrinterManager.system self = "Darwin" ->
  printable w p = true ->
  PrinterManager.print_file w self p printer_name print_options h
  = ([IoRun (PrinterManager.lpr_cmd p printer_name print_options)],
     Ok (lpr_outcome (PrinterManager.system self) printer_name
           (PrinterManager.respond w h
              (IoRun (PrinterManager.lpr_cmd p printer_name print_options))))).
Proof.
  intros Hsys Hp. rewrite print_file_printable by assumption.
  unfold try_except, any_exception, ret, lpr_outcome, lpr_platform.
  destruct Hsys as [-> | ->]; cbn [String.eqb Ascii.eqb Bool.eqb].
  - unfold PrinterManager._print_linux, try_except, IO.bind,
      PrinterManager.call, ret.
    destruct (PrinterManager.respond w h _) as [[]|e]; [reflexivity|].
    destruct e; reflexivity.
  - unfold PrinterManager._print_mac, try_except, IO.bind,
      PrinterManager.call, ret.
    destruct (PrinterManager.respond w h _) as [[]|e]; [reflexivity|].
    destruct e; reflexivity.
Qed.


End PrintFileMore.



(** X13. On Linux and macOS, for a file that exists with the suffix
    [.pdf], [print_file] submits one command: [lpr], then [-P] and the
    printer when one is named, then [-o key=value] for each option in the
    order of the dictionary, then the path.  It answers success when the
    command runs, [Linux print failed] or [Mac print failed] with the
    error when the command exits with a failure, and [Print error] with the
    exception for any other exception. *)
Theorem print_file_on_lpr
    (w : PrinterManager.World) (self : PrinterManager.t) (p : Path)
    (printer_name : option string)
    (print_options : option (PrinterManager.dict string)) (h : list IOEvent) :
  PrinterManager.system self = "Linux" \/ PrinterManager.system self = "Darwin" ->
  printable w p = true ->
  PrinterManager.print_file w self p printer_name print_options h
  = ([IoRun (PrinterManager.lpr_cmd p printer_name print_options)],
     Ok (lpr_outcome (PrinterManager.system self) printer_name
           (PrinterManager.respond w h
              (IoRun (PrinterManager.lpr_cmd p printer_name print_options))))) /\
  hd "" (PrinterManager.lpr_cmd p printer_name print_options) = "lpr" /\
  last (PrinterManager.lpr_cmd p printer_name print_options) "" = str p /\
  List.length (PrinterManager.lpr_cmd p printer_name print_options)
  = (2 + (if PrinterManager.given printer_name then 2 else 0)
       + 2 * match print_options with
             | Some opts => List.length opts
             | None => 0
             end)%nat.
Proof.
  intros Hsys Hp. split; [now apply print_file_lpr|].
  unfold PrinterManager.lpr_cmd. split; [reflexivity|]. split.
  - rewrite !app_assoc. apply last_last.
  - rewrite !length_app. cbn [List.length].
    assert (Hargs : List.length (PrinterManager.printer_args printer_name)
                    = if PrinterManager.given printer_name then 2%nat else 0%nat).
    { unfold PrinterManager.printer_args, PrinterManager.given.
      destruct printer_name as [s|]; [|reflexivity].
      destruct (String.eqb s ""); reflexivity. }
    assert (Hopts : List.length (PrinterManager.option_args print_options)
                    = (2 * match print_options with
                           | Some opts => List.length opts
                           | None => 0
                           end)%nat).
    { unfold PrinterManager.option_args.
      destruct print_options as [opts|]; [|reflexivity].
      induction opts as [|kv opts IH]; [reflexivity|].
      cbn [flat_map List.length app]. rewrite length_app in *.
      cbn [List.length] in *. lia. }
    rewrite Hargs, Hopts. lia.
Qed.

Lemma print_file_on_lpr_witness :
  PrinterManager.print_file rejecting_second linux
    (doc_part "doc_part_002.pdf") (Some "HP") (Some [("sides", "two-sided")]) []
  = ([IoRun ["lpr"; "-P"; "HP"; "-o"; "sides=two-sided";
             "out/doc_part_002.pdf"]],
     Ok (false, "Linux print failed: lpr returned non-zero exit status 1")).
Proof.
  exact (proj1 (print_file_on_lpr rejecting_second linux
                  (doc_part "doc_part_002.pdf") (Some "HP")
                  (Some [("sides", "two-sided")]) []
                  (or_introl eq_refl) eq_refl)).
Defined.



(** ** Splitting and stripping text *)

Section Text.


Lemma split_on_absent c s : has_char c s = false -> split_on c s = [s].
Proof.
  induction s as [|a s IH]; simpl; [reflexivity|].
  intros H. apply orb_false_iff in H. destruct H as [Ha Hs].
  rewrite Ha, (IH Hs). reflexivity.
Qed.

Lemma split_on_append c a b :
  has_char c a = false ->
  split_on c (a +++ String c b) = a :: split_on c b.
Proof.
  induction a as [|x a IH]; simpl.
  - intros _. now rewrite Ascii.eqb_refl.
  - intros H. apply orb_false_iff in H. destruct H as [Hx Ha].
    rewrite Hx, (IH Ha). reflexivity.
Qed.

Lemma split_on_join c (l : list string) :
  l <> [] -> Forall (fun x => has_char c x = false) l ->
  split_on c (join c l) = l.
Proof.
  intros Hne H. induction H as [|x l Hx H IH]; [congruence|].
  destruct l as [|y l].
  - simpl. now apply split_on_absent.
  - change (join c (x :: y :: l)) with (x +++ String c (join c (y :: l))).
    rewrite split_on_append by assumption. f_equal. apply IH. discriminate.
Qed.



Lemma prefix_append p s : String.prefix p (p +++ s) = true.
Proof.
  induction p as [|a p IH]; simpl; [now destruct s|].
  destruct (ascii_dec a a); [assumption | congruence].
Qed.

Lemma contains_of_prefix sub t : String.prefix sub t = true -> contains sub t = true.
Proof. intros H. destruct t; cbn [contains]; now rewrite H. Qed.

Lemma contains_prefixed sub s : contains sub (sub +++ s) = true.
Proof. apply contains_of_prefix, prefix_append. Qed.




Lemma rstrip_cons a s :
  rstrip (String a s)
  = match rstrip s with
    | EmptyString => if isspace a then EmptyString else String a EmptyString
    | r => String a r
    end.
Proof. reflexivity. Qed.




Lemma strip_leading_space sp s : isspace sp = true -> strip (String sp s) = strip s.
Proof.
  intros Hsp. unfold strip. rewrite rstrip_cons.
  destruct (rstrip s) as [|b r]; [now rewrite Hsp|].
  cbn [lstrip]. now rewrite Hsp.
Qed.

End Text.

(** ** Listing printers *)

Section Listing.




Lemma getitem_only_IndexError {A} (l : list A) i e :
  getitem l i = Raise e -> e = IndexError.
Proof.
  unfold getitem. destruct (_ <? 0); [congruence|].
  destruct (nth_error l _); congruence.
Qed.



Lemma collect_printers_only_IndexError lines e :
  PrinterManager.collect_printers lines = Raise e -> e = IndexError.
Proof.
  induction lines as [|line rest IH]; cbn [PrinterManager.collect_printers];
    [discriminate|].
  destruct (startswith line "printer "); [|exact IH].
  destruct (getitem (split_ws line) 1) eqn:G; cbn [Py.bind].
  - destruct (PrinterManager.collect_printers rest); cbn [Py.bind];
      [discriminate | auto].
  - intros H. injection H as <-. eapply getitem_only_IndexError; eauto.
Qed.

(** A line that starts like a printer line and has no second word makes
    the loop raise, whatever the other lines are. *)
Lemma collect_printers_bad pre bad post :
  startswith bad "printer " = true ->
  (List.length (split_ws bad) < 2)%nat ->
  PrinterManager.collect_printers (pre ++ bad :: post) = Raise IndexError.
Proof.
  intros Hs Hw. induction pre as [|line pre IH].
  - rewrite app_nil_l. cbn [PrinterManager.collect_printers]. rewrite Hs.
    assert (G : getitem (split_ws bad) 1 = Raise IndexError).
    { unfold getitem. change (1 <? 0) with false. cbv iota.
      change (Z.to_nat 1) with 1%nat.
      destruct (nth_error (split_ws bad) 1) eqn:N; [|reflexivity].
      assert (nth_error (split_ws bad) 1 <> None) as N' by congruence.
      apply nth_error_Some in N'. lia. }
    now rewrite G.
  - rewrite <- app_comm_cons. cbn [PrinterManager.collect_printers].
    rewrite IH. destruct (startswith line "printer "); [|reflexivity].
    destruct (getitem (split_ws line) 1) eqn:G; [reflexivity|].
    cbn [Py.bind]. f_equal. eapply getitem_only_IndexError; eauto.
Qed.

Variable sh : PrinterManager.Shell.

(** A handler that prints and returns a value makes of [except Exception]
    a computation that always returns. *)
Lemma try_except_any_emit {A} (m : M A) (line : exn -> string) (v : A) h :
  try_except m any_exception (fun e => emit (IoPrint (line e)) ;;; ret v) h
  = match m h with
    | (t, Ok a) => (t, Ok a)
    | (t, Raise e) => (t ++ [IoPrint (line e)], Ok v)
    end.
Proof.
  unfold try_except, any_exception, IO.bind, emit, ret.
  destruct (m h) as [t [a|e]]; reflexivity.
Qed.

Lemma lpstat_listing_unfold (platform : string) h :
  try_except
    (stdout <- PrinterManager.run sh ["lpstat"; "-p"] ;;
     lift (PrinterManager.collect_printers (split_on (ascii_of_nat 10) stdout)))
    is_CalledProcessError
    (fun e =>
       emit (IoPrint ("Error getting " +++ platform +++ " printers: "
                        +++ exn_str e)) ;;;
       ret []) h
  = match PrinterManager.run_stdout sh h ["lpstat"; "-p"] with
    | Ok stdout =>
        ([IoRun ["lpstat"; "-p"]],
         PrinterManager.collect_printers (split_on LF stdout))
    | Raise e =>
        if is_CalledProcessError e then
          ([IoRun ["lpstat"; "-p"];
            IoPrint ("Error getting " +++ platform +++ " printers: "
                       +++ exn_str e)], Ok [])
        else ([IoRun ["lpstat"; "-p"]], Raise e)
    end.
Proof.
  unfold try_except, IO.bind, PrinterManager.run, lift, emit, ret.
  destruct (PrinterManager.run_stdout sh h ["lpstat"; "-p"]) as [out|e].
  - fold LF.
    destruct (PrinterManager.collect_printers (split_on LF out)) as [l|e] eqn:C;
      [reflexivity|].
    apply collect_printers_only_IndexError in C. subst e. reflexivity.
  - destruct (is_CalledProcessError e); reflexivity.
Qed.

Lemma list_printers_lpr self h :
  PrinterManager.system self = "Linux" \/ PrinterManager.system self = "Darwin" ->
  PrinterManager.list_printers sh self h
  = match PrinterManager.run_stdout sh h ["lpstat"; "-p"] with
    | Ok stdout =>
        match PrinterManager.collect_printers (split_on LF stdout) with
        | Ok printers => ([IoRun ["lpstat"; "-p"]], Ok printers)
        | Raise e =>
            ([IoRun ["lpstat"; "-p"];
              IoPrint ("Error listing printers: " +++ exn_str e)], Ok [])
        end
    | Raise e =>
        if is_CalledProcessError e then
          ([IoRun ["lpstat"; "-p"];
            IoPrint ("Error getting "
                       +++ (if String.eqb (PrinterManager.system self) "Darwin"
                            then "Mac" else "Linux")
                       +++ " printers: " +++ exn_str e)], Ok [])
        else
          ([IoRun ["lpstat"; "-p"];
            IoPrint ("Error listing printers: " +++ exn_str e)], Ok [])
    end.
Proof.
  intros Hsys. unfold PrinterManager.list_printers.
  rewrite (try_except_any_emit _ (fun e => "Error listing printers: " +++ exn_str e)).
  destruct Hsys as [-> | ->]; cbn [String.eqb Ascii.eqb Bool.eqb].
  - unfold PrinterManager._list_linux_printers.
    rewrite (lpstat_listing_unfold "Linux").
    destruct (PrinterManager.run_stdout sh h ["lpstat"; "-p"]) as [out|e].
    + destruct (PrinterManager.collect_printers (split_on LF out)); reflexivity.
    + destruct (is_CalledProcessError e); reflexivity.
  - unfold PrinterManager._list_mac_printers.
    rewrite (lpstat_listing_unfold "Mac").
    destruct (PrinterManager.run_stdout sh h ["lpstat"; "-p"]) as [out|e].
    + destruct (PrinterManager.collect_printers (split_on LF out)); reflexivity.
    + destruct (is_CalledProcessError e); reflexivity.
Qed.


End Listing.



(** X16. [list_printers] never raises.  On Linux and macOS it returns the
    empty list when [lpstat] cannot be run or fails, and also when some
    output line starts with [printer ] but has no second word: the
    [IndexError] is caught by the outer handler, [Error listing printers:
    list index out of range] is printed, and the printers named by the
    other lines are lost. *)
Theorem list_printers_failures
    (sh : PrinterManager.Shell) (self : PrinterManager.t) (h : list IOEvent) :
  (exists printers,
     snd (PrinterManager.list_printers sh self h) = Ok printers) /\
  (PrinterManager.system self = "Linux" \/ PrinterManager.system self = "Darwin" ->
   (forall e, PrinterManager.run_stdout sh h ["lpstat"; "-p"] = Raise e ->
      snd (PrinterManager.list_printers sh self h) = Ok []) /\
   (forall pre bad post,
      Forall (fun line => has_char LF line = false) (pre ++ bad :: post) ->
      startswith bad "printer " = true ->
      (List.length (split_ws bad) < 2)%nat ->
      PrinterManager.run_stdout sh h ["lpstat"; "-p"]
      = Ok (join LF (pre ++ bad :: post)) ->
      PrinterManager.list_printers sh self h
      = ([IoRun ["lpstat"; "-p"];
          IoPrint "Error listing printers: list index out of range"],
         Ok []))).
Proof.
  split.
  - unfold PrinterManager.list_printers.
    rewrite (try_except_any_emit _
               (fun e => "Error listing printers: " +++ exn_str e)).
    match goal with |- context [match ?m h with _ => _ end] =>
      destruct (m h) as [t [a|e]] end; eexists; reflexivity.
  - intros Hsys. rewrite (list_printers_lpr sh self h Hsys). split.
    + intros e ->. destruct (is_CalledProcessError e); reflexivity.
    + intros pre bad post Hlines Hs Hw ->.
      rewrite split_on_join; [|now destruct pre | exact Hlines].
      now rewrite collect_printers_bad.
Qed.

Lemma list_printers_failures_witness :
  PrinterManager.list_printers
    (PrinterManager.mkShell false (fun _ => Ok []) (fun _ => Ok "")
       (fun _ _ => Ok ("printer HP is idle." +++ nl +++ "printer ")))
    linux []
  = ([IoRun ["lpstat"; "-p"];
      IoPrint "Error listing printers: list index out of range"],
     Ok []).
Proof.
  apply (proj2 (proj2 (list_printers_failures
           (PrinterManager.mkShell false (fun _ => Ok []) (fun _ => Ok "")
              (fun _ _ => Ok ("printer HP is idle." +++ nl +++ "printer ")))
           linux []) (or_introl eq_refl))
         ["printer HP is idle."] "printer " []).
  - repeat constructor.
  - reflexivity.
  - simpl; lia.
  - reflexivity.
Defined.

Section StrippedLines.


End StrippedLines.



Section DefaultPrinter.

Variable sh : PrinterManager.Shell.





End DefaultPrinter.



(** X19. [check_printer_status] makes no external call on a system other
    than Linux and macOS and reports any printer name as available with the
    status [unknown].  On Linux and macOS it runs [lpstat -p] for the name:
    the printer is reported unavailable exactly when the output, in lower
    case, contains [disabled], which goes before [idle]; a failing command
    gives [not found] and unavailable; any other exception is not caught
    and escapes. *)
Theorem check_printer_status_cases
    (sh : PrinterManager.Shell) (self : PrinterManager.t)
    (printer_name : string) (h : list IOEvent) :
  (PrinterManager.system self <> "Darwin" ->
   PrinterManager.system self <> "Linux" ->
   PrinterManager.check_printer_status sh self printer_name h
   = ([], Ok (PrinterManager.mkStatus printer_name true "unknown"))) /\
  (PrinterManager.system self = "Darwin" \/ PrinterManager.system self = "Linux" ->
   fst (PrinterManager.check_printer_status sh self printer_name h)
   = [IoRun ["lpstat"; "-p"; printer_name]] /\
   (forall stdout,
      PrinterManager.run_stdout sh h ["lpstat"; "-p"; printer_name] = Ok stdout ->
      snd (PrinterManager.check_printer_status sh self printer_name h)
      = Ok (PrinterManager.mkStatus printer_name
              (negb (contains "disabled" (lower stdout)))
              (if contains "disabled" (lower stdout) then "disabled"
               else if contains "idle" (lower stdout) then "idle"
               else "unknown"))) /\
   (forall e,
      PrinterManager.run_stdout sh h ["lpstat"; "-p"; printer_name] = Raise e ->
      snd (PrinterManager.check_printer_status sh self printer_name h)
      = if is_CalledProcessError e
        then Ok (PrinterManager.mkStatus printer_name false "not found")
        else Raise e)).
Proof.
  unfold PrinterManager.check_printer_status. split.
  - intros Hd Hl.
    destruct (String.eqb_spec (PrinterManager.system self) "Darwin");
      [contradiction|].
    destruct (String.eqb_spec (PrinterManager.system self) "Linux");
      [contradiction|].
    reflexivity.
  - intros Hsys.
    assert (Hb : orb (String.eqb (PrinterManager.system self) "Darwin")
                     (String.eqb (PrinterManager.system self) "Linux") = true)
      by (destruct Hsys as [-> | ->]; reflexivity).
    rewrite Hb.
    unfold try_except, IO.bind, PrinterManager.run, ret.
    destruct (PrinterManager.run_stdout sh h ["lpstat"; "-p"; printer_name])
      as [out|e].
    + split; [|split].
      * destruct (contains "disabled" (lower out));
          [|destruct (contains "idle" (lower out))]; reflexivity.
      * intros stdout [= <-].
        destruct (contains "disabled" (lower out));
          [|destruct (contains "idle" (lower out))]; reflexivity.
      * intros ? [=].
    + destruct (is_CalledProcessError e) eqn:E;
        (split; [reflexivity|]); (split; [intros ? [=]|]);
        intros ? [= <-]; rewrite E; reflexivity.
Qed.

Lemma check_printer_status_cases_witness :
  PrinterManager.check_printer_status
    (PrinterManager.mkShell false (fun _ => Ok []) (fun _ => Ok "")
       (fun _ _ => Raise (CalledProcessError "unknown printer")))
    (PrinterManager.mk "Windows") "No such printer" []
  = ([], Ok (PrinterManager.mkStatus "No such printer" true "unknown")).
Proof.
  apply (proj1 (check_printer_status_cases
           (PrinterManager.mkShell false (fun _ => Ok []) (fun _ => Ok "")
              (fun _ _ => Raise (CalledProcessError "unknown printer")))
           (PrinterManager.mk "Windows") "No such printer" []));
    discriminate.
Defined.

(** ** The print options of the command line *)

Section Options.

Lemma unpack2_only_ValueError parts e :
  Main.unpack2 parts = Raise e -> Main.is_ValueError e = true.
Proof.
  destruct parts as [|a [|b [|c l]]]; simpl; intros H;
    try discriminate; injection H as <-; reflexivity.
Qed.

Lemma parse_options_only_ValueError options : forall d e,
  Main.parse_options options d = Raise e -> Main.is_ValueError e = true.
Proof.
  induction options as [|o rest IH]; intros d e; cbn [Main.parse_options];
    [discriminate|].
  destruct (Main.unpack2 (split_on "=" o)) as [kv|x] eqn:U; cbn [Py.bind].
  - apply IH.
  - intros [= <-]. eapply unpack2_only_ValueError; eauto.
Qed.






End Options.



(** ** The dictionary of print results *)

Section ResultsOrder.



End ResultsOrder.



(** * The file effects of computations *)

Section Effects.

Lemma quiet_opened t : quiet t -> opened t = [].
Proof.
  induction 1 as [|ev t Hev _ IH]; [reflexivity|].
  destruct ev; try discriminate; exact IH.
Qed.

Lemma quiet_writes t : quiet t -> writes t = [].
Proof.
  induction 1 as [|ev t Hev _ IH]; [reflexivity|].
  destruct ev; try discriminate; exact IH.
Qed.

Lemma harmless_keeps_to allowed ev : harmless ev -> keeps_to allowed ev.
Proof. destruct ev; intros H; try discriminate; exact I. Qed.

Lemma keeps_to_opened allowed t :
  Forall (keeps_to allowed) t -> Forall allowed (opened t).
Proof.
  induction 1 as [|ev t Hev _ IH]; [constructor|].
  destruct ev; cbn [opened]; try exact IH. now constructor.
Qed.

Lemma keeps_to_writes allowed t :
  Forall (keeps_to allowed) t -> Forall allowed (map fst (writes t)).
Proof.
  induction 1 as [|ev t Hev _ IH]; [constructor|].
  destruct ev; cbn [writes map fst]; try exact IH. now constructor.
Qed.

Lemma created_opened t : Main.created t = opened t.
Proof.
  induction t as [|ev t IH]; [reflexivity|].
  destruct ev; cbn [Main.created opened]; now rewrite ?IH.
Qed.

Context {A B : Type}.
Variable P : IOEvent -> Prop.

Lemma within_ret (a : A) : within P (ret a).
Proof. intros h. constructor. Qed.

Lemma within_raise (e : exn) : within P (@raise A e).
Proof. intros h. constructor. Qed.

Lemma within_lift (r : result A) : within P (lift r).
Proof. intros h. constructor. Qed.

Lemma within_oracle (f : list IOEvent -> result A) :
  within P (fun h => ([], f h)).
Proof. intros h. constructor. Qed.

Lemma within_emit (ev : IOEvent) : P ev -> within P (emit ev).
Proof. intros Hev h. now repeat constructor. Qed.

Lemma within_bind (m : M A) (k : A -> M B) :
  within P m -> (forall a, within P (k a)) -> within P (x <- m ;; k x).
Proof.
  intros Hm Hk h. unfold IO.bind. specialize (Hm h).
  destruct (m h) as [t [a|e]]; cbn [fst] in *; [|exact Hm].
  specialize (Hk a (h ++ t)).
  destruct (k a (h ++ t)) as [t' r]. cbn [fst] in *.
  apply Forall_app. now split.
Qed.

Lemma within_try_except (m : M A) catches (handler : exn -> M A) :
  within P m -> (forall e, within P (handler e)) ->
  within P (try_except m catches handler).
Proof.
  intros Hm Hh h. unfold try_except. specialize (Hm h).
  destruct (m h) as [t [a|e]]; cbn [fst] in *; [exact Hm|].
  destruct (catches e); [|exact Hm].
  specialize (Hh e (h ++ t)).
  destruct (handler e (h ++ t)) as [t' r]. cbn [fst] in *.
  apply Forall_app. now split.
Qed.

Lemma within_for_each (l : list A) (body : A -> M unit) :
  (forall a, within P (body a)) -> within P (for_each l body).
Proof.
  intros Hb. induction l as [|a l IH]; cbn [for_each].
  - intros h. constructor.
  - intros h. unfold IO.bind. pose proof (Hb a h) as Ha.
    destruct (body a h) as [t [[]|e]]; cbn [fst] in *; [|exact Ha].
    specialize (IH (h ++ t)).
    destruct (for_each l body (h ++ t)) as [t' r]. cbn [fst] in *.
    apply Forall_app. now split.
Qed.

Lemma within_bind_lift (r : result A) (k : A -> M B) :
  (forall a, r = Ok a -> within P (k a)) -> within P (x <- lift r ;; k x).
Proof.
  intros Hk h. unfold IO.bind, lift.
  destruct r as [a|e]; [|constructor].
  specialize (Hk a eq_refl (h ++ [])).
  destruct (k a (h ++ [])) as [t' r]. exact Hk.
Qed.

Lemma within_bind_post (R : A -> Prop) (m : M A) (k : A -> M B) :
  within P m -> (forall h a, snd (m h) = Ok a -> R a) ->
  (forall a, R a -> within P (k a)) -> within P (x <- m ;; k x).
Proof.
  intros Hm HR Hk h. unfold IO.bind. specialize (Hm h). specialize (HR h).
  destruct (m h) as [t [a|e]]; cbn [fst snd] in *; [|exact Hm].
  specialize (Hk a (HR a eq_refl) (h ++ t)).
  destruct (k a (h ++ t)) as [t' r]. cbn [fst] in *.
  apply Forall_app. now split.
Qed.

Lemma within_weaken (Q : IOEvent -> Prop) (m : M A) :
  (forall ev, Q ev -> P ev) -> within Q m -> within P m.
Proof. intros HQ Hm h. eapply Forall_impl; [exact HQ | apply Hm]. Qed.

Lemma within_anything (m : M A) : (forall ev, P ev) -> within P m.
Proof. intros HP h. apply Forall_forall. auto. Qed.

Lemma total_ret (a : A) : total (ret a).
Proof. intros h. now exists a. Qed.

Lemma total_bind (m : M A) (k : A -> M B) :
  total m -> (forall a, total (k a)) -> total (x <- m ;; k x).
Proof.
  intros Hm Hk h. unfold IO.bind. destruct (Hm h) as [a Ha].
  destruct (m h) as [t r]. cbn [snd] in Ha. subst r.
  destruct (Hk a (h ++ t)) as [b Hb].
  destruct (k a (h ++ t)) as [t' r]. cbn [snd] in *. now exists b.
Qed.

Lemma total_try_except_any (m : M A) (handler : exn -> M A) :
  (forall e, total (handler e)) -> total (try_except m any_exception handler).
Proof.
  intros Hh h. unfold try_except.
  destruct (m h) as [t [a|e]]; [now exists a|].
  cbn [any_exception].
  destruct (Hh e (h ++ t)) as [a Ha].
  destruct (handler e (h ++ t)) as [t' r]. cbn [snd] in *. now exists a.
Qed.

Lemma total_for_each (l : list A) (body : A -> M unit) :
  (forall a, total (body a)) -> total (for_each l body).
Proof.
  intros Hb. induction l as [|a l IH]; cbn [for_each].
  - intros h. now exists tt.
  - intros h. unfold IO.bind. destruct (Hb a h) as [[] Ha].
    destruct (body a h) as [t r]. cbn [snd] in Ha. subst r.
    destruct (IH (h ++ t)) as [[] Hu].
    destruct (for_each l body (h ++ t)) as [t' r]. cbn [snd] in *.
    now exists tt.
Qed.

Lemma yields_ret (a : A) (R : A -> Prop) : R a -> yields (ret a) R.
Proof. intros Ha h. now exists a. Qed.

Lemma yields_bind (m : M A) (k : A -> M B) (R : A -> Prop) (S : B -> Prop) :
  yields m R -> (forall a, R a -> yields (k a) S) -> yields (x <- m ;; k x) S.
Proof.
  intros Hm Hk h. unfold IO.bind. destruct (Hm h) as (a & Ha & HR).
  destruct (m h) as [t r]. cbn [snd] in Ha. subst r.
  destruct (Hk a HR (h ++ t)) as (b & Hb & HS).
  destruct (k a (h ++ t)) as [t' r]. cbn [snd] in *. now exists b.
Qed.

Lemma yields_weaken (m : M A) (R R' : A -> Prop) :
  (forall a, R a -> R' a) -> yields m R -> yields m R'.
Proof. intros HR Hm h. destruct (Hm h) as (a & Ha & Hr). eauto. Qed.

Lemma total_yields (m : M A) : total m -> yields m (fun _ => True).
Proof. intros Hm h. destruct (Hm h) as [a Ha]. eauto. Qed.

Lemma yields_total (m : M A) R : yields m R -> total m.
Proof. intros Hm h. destruct (Hm h) as (a & Ha & _). eauto. Qed.

(** What a sequence does to files when its first part touches none. *)
Lemma outcome_bind (m : M A) (k : A -> M B) h
    (Q : list Path * list (Path * list Page) * result B -> Prop) :
  quiet (fst (m h)) ->
  (forall a, snd (m h) = Ok a -> Q (outcome (k a) (h ++ fst (m h)))) ->
  (forall e, snd (m h) = Raise e -> Q ([], [], Raise e)) ->
  Q (outcome (x <- m ;; k x) h).
Proof.
  intros Hq Hok Hraise. unfold outcome, IO.bind in *.
  destruct (m h) as [t [a|e]]; cbn [fst snd] in *.
  - specialize (Hok a eq_refl).
    destruct (k a (h ++ t)) as [t' r]. cbn [fst snd] in *.
    now rewrite opened_app, writes_app, (quiet_opened t Hq), (quiet_writes t Hq).
  - specialize (Hraise e eq_refl).
    now rewrite (quiet_opened t Hq), (quiet_writes t Hq).
Qed.

(** The same when the first part is known to return. *)
Lemma outcome_bind_yields (m : M A) (k : A -> M B) (R : A -> Prop) h
    (Q : list Path * list (Path * list Page) * result B -> Prop) :
  silent m -> yields m R ->
  (forall a h', R a -> Q (outcome (k a) h')) ->
  Q (outcome (x <- m ;; k x) h).
Proof.
  intros Hs Hy Hk. apply outcome_bind; [apply Hs| |].
  - intros a Ha. destruct (Hy h) as (a' & Ha' & HR).
    rewrite Ha in Ha'. injection Ha' as <-. now apply Hk.
  - intros e He. destruct (Hy h) as (a' & Ha' & _). congruence.
Qed.

(** What a sequence does to files when all that follows its first part
    touches none and returns. *)
Lemma outcome_bind_last (m : M A) (k : A -> M B) (S : B -> Prop) h t a :
  m h = (t, Ok a) -> silent (k a) -> yields (k a) S ->
  exists b, outcome (x <- m ;; k x) h = (opened t, writes t, Ok b) /\ S b.
Proof.
  intros Hm Hs Hy. unfold outcome, IO.bind. rewrite Hm.
  specialize (Hs (h ++ t)). destruct (Hy (h ++ t)) as (b & Hb & HS).
  destruct (k a (h ++ t)) as [t' r]. cbn [fst snd] in *. subst r.
  exists b. split; [|exact HS].
  now rewrite opened_app, writes_app, (quiet_opened t' Hs),
    (quiet_writes t' Hs), !app_nil_r.
Qed.

End Effects.

Lemma yields_emit ev : yields (emit ev) (fun _ => True).
Proof. intros h. now exists tt. Qed.

Lemma yields_when b (m : M unit) :
  yields m (fun _ => True) -> yields (when b m) (fun _ => True).
Proof. intros Hm. destruct b; [exact Hm|]. intros h. now exists tt. Qed.

Lemma total_emit (ev : IOEvent) : total (emit ev).
Proof. intros h. now exists tt. Qed.

Lemma total_when b (m : M unit) : total m -> total (when b m).
Proof. intros Hm. destruct b; [exact Hm|]. intros h. now exists tt. Qed.

Lemma within_when P b (m : M unit) : within P m -> within P (when b m).
Proof. intros Hm. destruct b; [exact Hm|]. apply within_ret. Qed.

Lemma within_print P line : (forall ev, harmless ev -> P ev) ->
  within P (emit (IoPrint line)).
Proof. intros HP. apply within_emit, HP. reflexivity. Qed.

Lemma silent_within {A} P (m : M A) :
  (forall ev, harmless ev -> P ev) -> silent m -> within P m.
Proof. intros HP. now apply within_weaken. Qed.

(** Steps through a computation built from the operations of the monad,
    leaving the parts it does not know. *)
Ltac within_step :=
  first
    [ apply within_ret | apply within_raise | apply within_lift
    | apply within_oracle
    | apply within_emit; reflexivity | apply within_emit; exact I
    | apply within_when | apply within_for_each; intros
    | apply within_bind_lift; intros
    | apply within_bind; [|intros] | apply within_try_except; [|intros]
    | match goal with
      | |- within _ (if ?b then _ else _) => destruct b eqn:?
      | |- within _ (match ?x with _ => _ end) => destruct x eqn:?
      end ].

Ltac silence := unfold silent; repeat within_step.

Ltac totality :=
  repeat first
    [ apply total_ret | apply total_emit | apply total_when
    | apply total_for_each; intros | apply total_try_except_any; intros
    | apply total_bind; [|intros]
    | match goal with
      | |- total (if ?b then _ else _) => destruct b
      | |- total (match ?x with _ => _ end) => destruct x
      end ].

(** * The parts of [main] that touch no file *)

Section Stages.

Variable env : Main.Env.

Lemma silent_validate_input kind_of fm :
  silent (FileManager.validate_input kind_of fm).
Proof. unfold FileManager.validate_input. silence. Qed.

Lemma silent_create_output_directory mkdir fm :
  silent (FileManager.create_output_directory mkdir fm).
Proof. unfold FileManager.create_output_directory. silence. Qed.

Lemma silent_load_pdf opened_pdf self :
  silent (PDFSplitter.load_pdf opened_pdf self).
Proof. unfold PDFSplitter.load_pdf. silence. Qed.

Lemma silent_preview_split self pps :
  silent (PDFSplitter.preview_split self pps).
Proof. unfold PDFSplitter.preview_split. silence. Qed.

Lemma silent_verbose_header args p : silent (Main.verbose_header args p).
Proof. unfold Main.verbose_header. silence. Qed.

Lemma silent_pdf_information self : silent (Main.pdf_information env self).
Proof. unfold Main.pdf_information. silence. Qed.

Lemma silent_read_input prompt : silent (Main.read_input env prompt).
Proof. intros h. constructor. Qed.

Lemma silent_confirm_overwrite outs : silent (Main.confirm_overwrite env outs).
Proof.
  unfold Main.confirm_overwrite. silence.
Qed.

Lemma silent_run sh cmd : silent (PrinterManager.run sh cmd).
Proof. intros h. now repeat constructor. Qed.

Lemma silent_list_printers sh self : silent (PrinterManager.list_printers sh self).
Proof.
  unfold PrinterManager.list_printers, PrinterManager._list_windows_printers,
    PrinterManager._list_mac_printers, PrinterManager._list_linux_printers,
    PrinterManager.import_win32print.
  silence; try apply silent_run.
Qed.

Lemma total_list_printers sh self : total (PrinterManager.list_printers sh self).
Proof. unfold PrinterManager.list_printers. totality. Qed.

Lemma silent_get_default_printer sh self :
  silent (PrinterManager.get_default_printer sh self).
Proof.
  unfold PrinterManager.get_default_printer,
    PrinterManager._get_windows_default_printer,
    PrinterManager._get_unix_default_printer, PrinterManager.import_win32print.
  silence; try apply silent_run.
Qed.

Lemma total_get_default_printer sh self :
  total (PrinterManager.get_default_printer sh self).
Proof. unfold PrinterManager.get_default_printer. totality. Qed.

Lemma silent_print_available_printers :
  silent (Main.print_available_printers env).
Proof.
  unfold Main.print_available_printers. silence;
    apply silent_run.
Qed.

Lemma total_print_available_printers :
  total (Main.print_available_printers env).
Proof.
  unfold Main.print_available_printers. totality.
Qed.

Lemma silent_call w ev :
  touches_file ev = false -> silent (PrinterManager.call w ev).
Proof. intros Hev h. now repeat constructor. Qed.

Lemma silent_print_file w self p printer_name print_options :
  silent (PrinterManager.print_file w self p printer_name print_options).
Proof.
  unfold PrinterManager.print_file, PrinterManager._print_windows,
    PrinterManager._print_mac, PrinterManager._print_linux.
  silence; try now apply silent_call.
Qed.

Lemma silent_print_loop w self n printer_name print_options cb items :
  forall results,
    silent (PrinterManager.print_loop w self n printer_name print_options cb
              items results).
Proof.
  induction items as [|[i p] items IH]; intros results;
    cbn [PrinterManager.print_loop].
  - intros h. constructor.
  - silence; [apply silent_print_file | apply IH].
Qed.

Lemma silent_parse_print_options arg : silent (Main.parse_print_options arg).
Proof. unfold Main.parse_print_options. silence. Qed.

Lemma silent_print_outputs args outs : silent (Main.print_outputs env args outs).
Proof.
  unfold Main.print_outputs, Main.history, PrinterManager.print_multiple_files.
  silence;
    try first [ apply silent_parse_print_options | apply silent_list_printers
          | apply silent_read_input | apply silent_run
          | apply silent_print_loop ].
Qed.

End Stages.

(** * [main] and the files *)

Section SplitKeepsTo.

Lemma getitem_In {A} (l : list A) i a : getitem l i = Ok a -> In a l.
Proof.
  unfold getitem. destruct (_ <? 0); [discriminate|].
  destruct (nth_error l _) as [x|] eqn:E; [|discriminate].
  intros [= <-]. eapply nth_error_In; eauto.
Qed.

Variable st : PDFSplitter.Storage.
Variable outs : list Path.

Lemma split_range_keeps_to r n cb item :
  within (keeps_to (fun f => In f outs))
    (PDFSplitter.split_range st r n outs cb item).
Proof.
  destruct item as [i [s e]]. unfold PDFSplitter.split_range.
  repeat within_step;
    apply within_emit; cbn [keeps_to]; eapply getitem_In; eassumption.
Qed.

Lemma split_pdf_keeps_to self pps cb :
  within (keeps_to (fun f => In f outs))
    (PDFSplitter.split_pdf st self pps outs cb).
Proof.
  unfold PDFSplitter.split_pdf. repeat within_step.
  apply split_range_keeps_to.
Qed.

End SplitKeepsTo.

Lemma resolved_free storage fuel files rs :
  FileManager.handle_filename_conflicts fuel (FileManager.exists_in storage)
    files = Some rs ->
  Forall (free storage) rs.
Proof.
  intros H. apply handle_filename_conflicts_sound in H.
  induction H as [|p r ps rs' Hr _ IH]; constructor; auto.
  now apply (resolved_from_free _ p).
Qed.

(** The fuel [main] gives to [handle_filename_conflicts] is enough. *)
Lemma main_resolution_returns env files :
  FileManager.handle_filename_conflicts
    (S (S (List.length (Main.existing env))))
    (FileManager.exists_in (Main.existing env)) files <> None.
Proof.
  destruct (handle_filename_conflicts_terminates (Main.existing env)
              (S (S (List.length (Main.existing env)))) files)
    as [rs Hrs]; [lia|].
  rewrite Hrs. discriminate.
Qed.

Lemma silent_print_multiple_files w self files printer_name print_options cb :
  silent (PrinterManager.print_multiple_files w self files printer_name
            print_options cb).
Proof. apply silent_print_loop. Qed.

Lemma main_keeps_to_free env args :
  within (keeps_to (free (Main.existing env))) (Main.main env args).
Proof.
  unfold Main.main.
  repeat within_step.
  all: try (apply silent_within; [apply harmless_keeps_to|];
            first [ apply silent_validate_input | apply silent_load_pdf
                  | apply silent_preview_split
                  | apply silent_create_output_directory
                  | apply silent_confirm_overwrite
                  | apply silent_parse_print_options
                  | apply silent_print_multiple_files ]).
  match goal with
  | E : FileManager.handle_filename_conflicts _ _ _ = Some ?l |- _ =>
      apply resolved_free in E;
      apply (within_weaken _ (keeps_to (fun f => In f l)));
      [|apply split_pdf_keeps_to]
  end.
  rewrite Forall_forall in *.
  intros [] Hev; cbn [keeps_to] in *; auto.
Qed.

(** * What the parts of [main] return *)

Section StagesReturn.

Variable env : Main.Env.

Lemma yields_validate_input kind_of fm :
  kind_of (FileManager.input_file fm) = Some FileManager.RegularFile ->
  yields (FileManager.validate_input kind_of fm) (eq true).
Proof.
  intros Hk h. unfold FileManager.validate_input. rewrite Hk.
  exists true. destruct (negb _); split; reflexivity.
Qed.

Lemma yields_load_pdf r self :
  len (PDFSplitter.pages r) <> 0 ->
  yields (PDFSplitter.load_pdf (Ok r) self)
    (eq (true, PDFSplitter.mk (PDFSplitter.input_file self) (Some r)
                 (len (PDFSplitter.pages r)))).
Proof.
  intros Hn h. rewrite load_pdf_unfold.
  destruct (Z.eqb_spec (len (PDFSplitter.pages r)) 0); [contradiction|].
  eexists. split; reflexivity.
Qed.

Lemma total_verbose_header args p : total (Main.verbose_header args p).
Proof. unfold Main.verbose_header. totality. Qed.

Lemma total_pdf_information self size :
  Main.file_size_text env = Ok size -> total (Main.pdf_information env self).
Proof.
  intros Hs. unfold Main.pdf_information. rewrite Hs.
  apply total_bind; [intros h; now exists size|intros]. totality.
Qed.

Lemma yields_create_output_directory fm :
  yields (FileManager.create_output_directory FileManager.MkdirDone fm) (eq true).
Proof. intros h. exists true. split; reflexivity. Qed.

Lemma total_preview_split self r pps :
  PDFSplitter.reader self = Some r -> pps <> 0 ->
  total (PDFSplitter.preview_split self pps).
Proof.
  intros Hr Hp h. rewrite (preview_split_unfold self r pps h Hr).
  unfold PDFSplitter.calculate_split_info, PDFSplitter._get_page_ranges,
    floordiv, modulo, range3.
  destruct (Z.eqb_spec pps 0); [contradiction|]. cbn [Py.bind].
  now exists tt.
Qed.

Lemma total_print_file w self p printer_name print_options :
  total (PrinterManager.print_file w self p printer_name print_options).
Proof. unfold PrinterManager.print_file. totality. Qed.

Lemma total_print_loop w self n printer_name print_options cb items :
  forall results,
    total (PrinterManager.print_loop w self n printer_name print_options cb
             items results).
Proof.
  induction items as [|[i p] items IH]; intros results;
    cbn [PrinterManager.print_loop].
  - apply total_ret.
  - totality; [apply total_print_file | apply IH].
Qed.

Lemma total_parse_print_options arg : total (Main.parse_print_options arg).
Proof.
  unfold Main.parse_print_options.
  destruct arg as [a|]; [|apply total_ret].
  destruct (String.eqb a ""); [apply total_ret|].
  intros h. unfold try_except, lift.
  destruct (Main.parse_options _ _) as [d|e] eqn:E; [now exists d|].
  apply parse_options_only_ValueError in E. rewrite E. now eexists.
Qed.

(** The printing part returns as long as the user answers its question. *)
Lemma total_print_outputs args outs :
  (forall h prompt, exists s, Main.input env h prompt = Ok s) ->
  total (Main.print_outputs env args outs).
Proof.
  intros Hin. unfold Main.print_outputs.
  assert (Hread : forall prompt, total (Main.read_input env prompt)).
  { intros prompt h. unfold Main.read_input. cbn [snd]. apply Hin. }
  totality;
    try first [ apply total_parse_print_options | apply total_list_printers
              | apply Hread | apply total_print_loop
              | (intros h; now eexists) ].
Qed.

(** The question about existing files is not asked when none exists. *)
Lemma confirm_overwrite_none outs :
  Forall (free (Main.existing env)) outs ->
  yields (Main.confirm_overwrite env outs) (eq true).
Proof.
  intros Hfree h. unfold Main.confirm_overwrite.
  replace (filter _ outs) with (@nil Path); [now exists true|].
  symmetry. induction Hfree as [|p ps Hp _ IH]; [reflexivity|].
  cbn [filter]. unfold free in Hp. now rewrite Hp.
Qed.

Lemma confirm_overwrite_answered outs answer :
  (forall h prompt, Main.input env h prompt = Ok answer) ->
  Exists (fun p => FileManager.exists_in (Main.existing env) p = true) outs ->
  yields (Main.confirm_overwrite env outs)
    (eq (negb (Main.declined (lower (strip answer))))).
Proof.
  intros Hin Hex. unfold Main.confirm_overwrite.
  destruct (filter _ outs) as [|f fs] eqn:E.
  - exfalso. apply Exists_exists in Hex. destruct Hex as (p & Hp & Hx).
    assert (Hf : In p (filter (FileManager.exists_in (Main.existing env)) outs))
      by (apply filter_In; now split).
    rewrite E in Hf. destruct Hf.
  - eapply yields_bind; [apply total_yields, total_emit|intros _ _].
    eapply yields_bind; [apply total_yields; totality|intros _ _].
    eapply yields_bind; [apply total_yields; totality|intros _ _].
    eapply (yields_bind _ _ (eq answer)).
    + intros h. exists answer. split; [apply Hin | reflexivity].
    + intros a <-. destruct (Main.declined _).
      * eapply yields_bind; [apply yields_emit|intros _ _].
        now apply yields_ret.
      * now apply yields_ret.
Qed.

End StagesReturn.

(** * Runs of [main] *)

Lemma len_map_Ok (ps : list Page) : len (map (@Ok Page) ps) = len ps.
Proof. unfold len. now rewrite length_map. Qed.

Lemma splitter_of_readable p ps : splitter_of p (readable ps) = loaded p ps.
Proof.
  unfold splitter_of, readable, loaded. cbn [PDFSplitter.pages].
  now rewrite len_map_Ok.
Qed.

Lemma validate_accepts p r cap :
  0 < cap < len (PDFSplitter.pages r) ->
  PDFSplitter.validate_split_parameters (splitter_of p r) cap = (true, "").
Proof.
  intros Hcap. unfold PDFSplitter.validate_split_parameters.
  cbn [splitter_of PDFSplitter.total_pages].
  destruct (Z.leb_spec cap 0); [lia|].
  destruct (Z.geb_spec cap (len (PDFSplitter.pages r))); [lia|]. reflexivity.
Qed.

(** One step of a run: a part that touches no file and returns. *)
Ltac pass Hs Hy :=
  eapply outcome_bind_yields; [Hs | Hy | cbv beta; intros ? ? ?].

(** The same when the value the part returns is known. *)
Ltac pass_eq Hs Hy :=
  eapply outcome_bind_yields; [Hs | Hy | cbv beta; intros ? ? <-].

(** A run that gets past the checks, up to the check of the cap. *)
Ltac past_checks Hvalidated args p r :=
  let Hlp := fresh "Hlp" in
  let Hin := fresh "Hin" in
  let Hk := fresh "Hk" in
  let Hopen := fresh "Hopen" in
  let Hsize := fresh "Hsize" in
  destruct Hvalidated as (Hlp & Hin & Hk & Hopen & Hcap & Hsize);
  unfold Main.main; rewrite Hlp, Hin, Hk, Hopen;
  pass ltac:(apply within_when, silent_verbose_header)
       ltac:(apply yields_when, total_yields, total_verbose_header);
  pass_eq ltac:(apply silent_validate_input)
          ltac:(apply yields_validate_input; exact Hk);
  cbn [negb];
  pass ltac:(now apply within_emit) ltac:(apply yields_emit);
  pass_eq ltac:(apply silent_load_pdf)
          ltac:(apply yields_load_pdf; lia);
  cbn [negb fst snd PDFSplitter.init PDFSplitter.input_file];
  fold (splitter_of p r);
  pass ltac:(apply within_when, silent_pdf_information)
       ltac:(destruct (Main.verbose args);
             [ destruct (Hsize eq_refl) as [size Hsz];
               apply total_yields, (total_pdf_information _ _ size Hsz)
             | apply yields_ret; exact I ]);
  rewrite (validate_accepts p r (Main.pages args) Hcap); cbn [negb fst snd].

Section Runs.

Variable env : Main.Env.
Variable args : Main.Args.
Variable p : Path.
Variable r : PDFSplitter.PdfReader.

Lemma main_preview_outcome h :
  validated env args p r -> Main.preview args = true ->
  outcome (Main.main env args) h = ([], [], Ok 0).
Proof.
  intros Hvalidated Hpreview. past_checks Hvalidated args p r.
  rewrite Hpreview.
  pass ltac:(apply silent_preview_split)
       ltac:(apply total_yields, (total_preview_split _ r);
             [reflexivity | lia]).
  reflexivity.
Qed.


Lemma confirm_goes_on gen answer :
  goes_on env args answer -> Main.force args = false ->
  yields (Main.confirm_overwrite env gen) (eq true).
Proof.
  intros [Hf | [Hin Hyes]] Hforce; [congruence|].
  destruct (Exists_dec
              (fun f => FileManager.exists_in (Main.existing env) f = true) gen)
    as [Hex | Hnone].
  - intros f. destruct (FileManager.exists_in (Main.existing env) f);
      [now left | now right].
  - pose proof (confirm_overwrite_answered env gen answer Hin Hex) as Hy.
    now rewrite Hyes in Hy.
  - apply confirm_overwrite_none. apply Forall_forall. intros f Hf.
    unfold free. destruct (FileManager.exists_in (Main.existing env) f) eqn:E;
      [|reflexivity].
    exfalso. apply Hnone, Exists_exists. eauto.
Qed.

(** What follows the split in [main] touches no file. *)
Lemma silent_after_split outs :
  silent
    (emit (IoPrint (nl +++ PrinterManager.check_mark +++ " Successfully created "
                      +++ str_int (len outs) +++ " PDF files")) ;;;
     sent <- (if Main.print_ args then Main.print_outputs env args outs
              else ret (Some 0)) ;;
     match sent with
     | None => ret 0
     | Some successful_prints =>
         emit (IoPrint (nl +++ "--- Summary ---")) ;;;
         emit (IoPrint ("Input file: " +++ str p)) ;;;
         emit (IoPrint ("Output files: " +++ str_int (len outs))) ;;;
         emit (IoPrint ("Output directory: "
                          +++ str (FileManager.output_dir
                                     (FileManager.init p (Main.output args))))) ;;;
         when (Main.print_ args)
           (emit (IoPrint ("Print jobs sent: " +++ str_int successful_prints
                             +++ "/" +++ str_int (len outs)))) ;;;
         ret 0
     end).
Proof.
  apply within_bind; [now apply within_emit|intros _].
  apply within_bind.
  - destruct (Main.print_ args); [apply silent_print_outputs | apply within_ret].
  - intros [n|]; silence.
Qed.

(** It returns 0 when nothing is printed or the user answers the question
    of the printing part. *)
Lemma yields_after_split outs :
  Main.print_ args = false \/
  (forall h prompt, exists s, Main.input env h prompt = Ok s) ->
  yields
    (emit (IoPrint (nl +++ PrinterManager.check_mark +++ " Successfully created "
                      +++ str_int (len outs) +++ " PDF files")) ;;;
     sent <- (if Main.print_ args then Main.print_outputs env args outs
              else ret (Some 0)) ;;
     match sent with
     | None => ret 0
     | Some successful_prints =>
         emit (IoPrint (nl +++ "--- Summary ---")) ;;;
         emit (IoPrint ("Input file: " +++ str p)) ;;;
         emit (IoPrint ("Output files: " +++ str_int (len outs))) ;;;
         emit (IoPrint ("Output directory: "
                          +++ str (FileManager.output_dir
                                     (FileManager.init p (Main.output args))))) ;;;
         when (Main.print_ args)
           (emit (IoPrint ("Print jobs sent: " +++ str_int successful_prints
                             +++ "/" +++ str_int (len outs)))) ;;;
         ret 0
     end)
    (eq 0).
Proof.
  intros Hprint.
  eapply yields_bind; [apply yields_emit|intros _ _].
  eapply yields_bind.
  - apply total_yields. destruct (Main.print_ args) eqn:E.
    + destruct Hprint as [Hp | Hin]; [discriminate|].
      now apply total_print_outputs.
    + apply total_ret.
  - intros [n|] _; [|now apply yields_ret].
    repeat (eapply yields_bind; [apply yields_emit|intros _ _]).
    eapply yields_bind; [apply yields_when, yields_emit|intros _ _].
    now apply yields_ret.
Qed.

End Runs.

(** A run of [main] that splits the document. *)
Lemma main_run env args p ps h answer :
  validated env args p (readable ps) -> Main.preview args = false ->
  Main.mkdir env = FileManager.MkdirDone ->
  accepts_all (Main.storage env) ->
  goes_on env args answer ->
  Main.print_ args = false \/
  (forall h prompt, exists s, Main.input env h prompt = Ok s) ->
  exists outs ws,
    resolved env args p (len ps) = Some outs /\
    outcome (Main.main env args) h = (outs, ws, Ok 0) /\
    map fst ws = outs /\
    List.concat (map snd ws) = ps /\
    List.length outs = List.length (plan (len ps) (Main.pages args)) /\
    NoDup outs /\
    Forall (free (Main.existing env)) outs.
Proof.
  intros Hvalidated Hpreview Hmkdir Hst Hgo Hprint.
  pose proof Hvalidated as (_ & _ & _ & _ & Hcap0 & _).
  cbn [readable PDFSplitter.pages] in Hcap0. rewrite len_map_Ok in Hcap0.
  assert (Hvalid : fst (PDFSplitter.validate_split_parameters (loaded p ps)
                          (Main.pages args)) = true).
  { rewrite <- splitter_of_readable, validate_accepts; [reflexivity|].
    cbn [readable PDFSplitter.pages]. now rewrite len_map_Ok. }
  destruct (names_to_files_steps (FileManager.init p (Main.output args)) p ps
              (Main.storage env) (Main.pages args) (Main.existing env)
              (S (S (List.length (Main.existing env)))) (Main.verbose args) h
              Hvalid Hst ltac:(lia))
    as (gen & outs & _ & Hgen & Houts & _ & _ & Hlen & Hnd & Hfree & _).
  unfold PDFSplitter.get_total_pages in Hgen.
  cbn [loaded PDFSplitter.total_pages] in Hgen.
  exists outs.
  assert (Hres : resolved env args p (len ps) = Some outs).
  { unfold resolved, requested. now rewrite Hgen. }
  assert (HQ : exists ws,
             outcome (Main.main env args) h = (outs, ws, Ok 0) /\
             map fst ws = outs /\ List.concat (map snd ws) = ps).
  { past_checks Hvalidated args p (readable ps).
    rewrite splitter_of_readable, Hpreview, Hmkdir.
    pass_eq ltac:(apply silent_create_output_directory)
            ltac:(apply yields_create_output_directory).
    cbn [negb].
    unfold PDFSplitter.get_total_pages. cbn [loaded PDFSplitter.total_pages].
    rewrite Hgen.
    pass_eq ltac:(apply within_lift)
            ltac:(apply (yields_ret gen (eq gen)); reflexivity).
    pass_eq ltac:(destruct (Main.force args);
                  [apply within_ret | apply silent_confirm_overwrite])
            ltac:(destruct (Main.force args) eqn:Hforce;
                  [ apply (yields_ret true (eq true)); reflexivity
                  | apply (confirm_goes_on env args gen answer Hgo Hforce) ]).
    cbn [negb]. rewrite Houts.
    pass ltac:(now apply within_emit) ltac:(apply yields_emit).
    match goal with
    | |- context [outcome (IO.bind ?m ?k) ?h0] =>
        destruct (split_pdf_readable p ps (Main.storage env) (Main.pages args)
                    outs (Main.verbose args) h0 ltac:(lia) ltac:(lia) Hst
                    ltac:(lia))
          as (trace & Hrun & Hpaths & Hopened & _ & Hall);
        destruct (outcome_bind_last m k (eq 0) h0 trace true Hrun)
          as (b & Hout & <-);
        [ apply silent_after_split
        | apply (yields_after_split env args p outs Hprint) |]
    end.
    rewrite <- Hlen, firstn_all in Hpaths.
    exists (writes trace). rewrite Hopened, Hpaths in Hout.
    split; [exact Hout|]. split; [exact Hpaths | exact Hall]. }
  destruct HQ as (ws & Hout & Hpaths & Hall).
  exists ws. repeat split; try assumption.
  apply Forall_forall. intros f Hf. unfold free.
  destruct (FileManager.exists_in (Main.existing env) f) eqn:E; [|reflexivity].
  exfalso. apply (Hfree f Hf). now apply exists_in_true.
Qed.


(** * What [main] checks before it writes *)

Section Checks.

Variable env : Main.Env.
Variable args : Main.Args.

Lemma validate_input_true kind_of fm h :
  snd (FileManager.validate_input kind_of fm h) = Ok true ->
  kind_of (FileManager.input_file fm) = Some FileManager.RegularFile.
Proof.
  unfold FileManager.validate_input.
  destruct (kind_of (FileManager.input_file fm)) as [[]|];
    [reflexivity | discriminate | discriminate].
Qed.

Lemma load_pdf_true opened_pdf self h a :
  snd (PDFSplitter.load_pdf opened_pdf self h) = Ok a -> fst a = true ->
  exists r,
    opened_pdf = Ok r /\ len (PDFSplitter.pages r) <> 0 /\
    snd a = PDFSplitter.mk (PDFSplitter.input_file self) (Some r)
              (len (PDFSplitter.pages r)).
Proof.
  rewrite load_pdf_unfold. destruct opened_pdf as [r|e].
  - destruct (Z.eqb_spec (len (PDFSplitter.pages r)) 0);
      cbn [snd]; intros [= <-]; cbn [fst snd]; [discriminate|].
    intros _. now exists r.
  - cbn [snd]. intros [= <-]. discriminate.
Qed.

Lemma create_output_directory_true mkdir fm h :
  snd (FileManager.create_output_directory mkdir fm h) = Ok true ->
  mkdir = FileManager.MkdirDone.
Proof. destruct mkdir; [reflexivity | discriminate | discriminate]. Qed.

(** Every event of [main] that touches a file comes after the checks. *)
Lemma main_checks_first :
  within (fun ev => harmless ev \/ checks_passed env args) (Main.main env args).
Proof.
  assert (Hs : forall A (m : M A), silent m ->
             within (fun ev => harmless ev \/ checks_passed env args) m).
  { intros A m. apply within_weaken. now left. }
  unfold Main.main.
  destruct (Main.list_printers args) eqn:Hlp.
  { apply Hs. apply within_bind;
      [apply silent_print_available_printers | intros; apply within_ret]. }
  destruct (Main.input_file args) as [p|] eqn:Hin; [|apply within_ret].
  destruct (Main.kind_of env p) as [k|] eqn:Hk; [|apply Hs; silence].
  apply within_bind; [apply Hs, within_when, silent_verbose_header|intros _].
  apply (within_bind_post _
           (fun a => a = true ->
                     Main.kind_of env p = Some FileManager.RegularFile)).
  { apply Hs, silent_validate_input. }
  { intros h a Ha ->. now apply validate_input_true in Ha. }
  intros [|] Hkind; [specialize (Hkind eq_refl)|apply within_ret].
  cbn [negb].
  apply within_bind; [apply Hs; now apply within_emit|intros _].
  apply (within_bind_post _
           (fun a => fst a = true ->
                     exists r, Main.opened_pdf env = Ok r /\
                               len (PDFSplitter.pages r) <> 0 /\
                               snd a = PDFSplitter.mk p (Some r)
                                         (len (PDFSplitter.pages r)))).
  { apply Hs, silent_load_pdf. }
  { intros h a Ha Hfst. exact (load_pdf_true _ _ h a Ha Hfst). }
  intros [[|] self] Hload; [|apply within_ret].
  destruct (Hload eq_refl) as (r & Hopen & Hn & Hself).
  cbn [negb fst snd] in *. subst self.
  apply within_bind; [apply Hs, within_when, silent_pdf_information|intros _].
  destruct (fst (PDFSplitter.validate_split_parameters _ _)) eqn:Hv;
    cbn [negb]; [|apply Hs; silence].
  assert (Hcap : 0 < Main.pages args < len (PDFSplitter.pages r)).
  { unfold PDFSplitter.validate_split_parameters in Hv.
    cbn [PDFSplitter.total_pages] in Hv.
    destruct (Z.leb_spec (Main.pages args) 0); [discriminate|].
    destruct (Z.geb_spec (Main.pages args) (len (PDFSplitter.pages r)));
      [discriminate|]. lia. }
  destruct (Main.preview args) eqn:Hpreview.
  { apply Hs. apply within_bind;
      [apply silent_preview_split | intros; apply within_ret]. }
  apply (within_bind_post _
           (fun a => a = true -> Main.mkdir env = FileManager.MkdirDone)).
  { apply Hs, silent_create_output_directory. }
  { intros h a Ha ->. now apply create_output_directory_true in Ha. }
  intros [|] Hmkdir; [specialize (Hmkdir eq_refl)|apply within_ret].
  apply within_anything. intros ev. right.
  split; [exact Hlp|]. split; [exact Hpreview|].
  exists p, r. repeat split; try assumption; lia.
Qed.

Lemma touched_after_checks (C : Prop) t :
  Forall (fun ev => harmless ev \/ C) t -> opened t <> [] -> C.
Proof.
  induction 1 as [|ev t [Hev | HC] _ IH];
    [intros Hne; now contradiction Hne | | auto].
  destruct ev; try discriminate; exact IH.
Qed.

End Checks.

(** * A split that fails *)

Section FailedSplit.

Variable st : PDFSplitter.Storage.

Lemma for_each_turns_history_free r n cb outs items : forall h,
  for_each items (PDFSplitter.split_range st r n outs cb) h
  = for_each items (PDFSplitter.split_range st r n outs cb) [].
Proof.
  induction items as [|item rest IH]; intros h; [reflexivity|].
  rewrite (for_each_turns st r n cb outs (item :: rest) h),
    (for_each_turns st r n cb outs (item :: rest) []).
  destruct (turn st r n outs cb item) as [t [[]|x]]; [|reflexivity].
  now rewrite (IH (h ++ t)), (IH ([] ++ t)).
Qed.

(** [split_pdf] does not look at what happened before it. *)
Lemma split_pdf_history_free self pps outs cb h :
  PDFSplitter.split_pdf st self pps outs cb h
  = PDFSplitter.split_pdf st self pps outs cb [].
Proof.
  destruct (PDFSplitter.reader self) as [r|] eqn:Hr.
  - destruct (PDFSplitter._get_page_ranges self pps) as [rs|x] eqn:Hrs.
    + rewrite !(split_pdf_unfold st cb self r pps outs rs _ Hr Hrs).
      now rewrite for_each_turns_history_free.
    + unfold PDFSplitter.split_pdf. rewrite Hr.
      unfold try_except, IO.bind, lift. now rewrite Hrs.
  - unfold PDFSplitter.split_pdf. now rewrite Hr.
Qed.

End FailedSplit.

Lemma main_failed_split_outcome env args p r h answer outs t :
  validated env args p r -> Main.preview args = false ->
  Main.mkdir env = FileManager.MkdirDone ->
  goes_on env args answer ->
  resolved env args p (len (PDFSplitter.pages r)) = Some outs ->
  PDFSplitter.split_pdf (Main.storage env) (splitter_of p r) (Main.pages args)
    outs (Main.verbose args) [] = (t, Ok false) ->
  outcome (Main.main env args) h = (opened t, writes t, Ok 1).
Proof.
  intros Hvalidated Hpreview Hmkdir Hgo Hres Hsplit.
  unfold resolved in Hres.
  destruct (requested args p (len (PDFSplitter.pages r))) as [gen|] eqn:Hgen;
    [|discriminate].
  past_checks Hvalidated args p r.
  rewrite Hpreview, Hmkdir.
  pass_eq ltac:(apply silent_create_output_directory)
          ltac:(apply yields_create_output_directory).
  cbn [negb].
  unfold PDFSplitter.get_total_pages.
  cbn [splitter_of PDFSplitter.total_pages].
  fold (requested args p (len (PDFSplitter.pages r))). rewrite Hgen.
  fold (splitter_of p r).
  pass_eq ltac:(apply within_lift)
          ltac:(apply (yields_ret gen (eq gen)); reflexivity).
  pass_eq ltac:(destruct (Main.force args);
                [apply within_ret | apply silent_confirm_overwrite])
          ltac:(destruct (Main.force args) eqn:Hforce;
                [ apply (yields_ret true (eq true)); reflexivity
                | apply (confirm_goes_on env args gen answer Hgo Hforce) ]).
  cbn [negb]. rewrite Hres.
  pass ltac:(now apply within_emit) ltac:(apply yields_emit).
  match goal with
  | |- outcome (IO.bind ?m ?k) ?h0 = _ =>
      destruct (outcome_bind_last m k (eq 1) h0 t false) as (b & Hout & <-);
      [ rewrite split_pdf_history_free; exact Hsplit
      | cbn [negb]; silence
      | cbn [negb]; eapply yields_bind; [apply yields_emit|intros _ _];
        now apply yields_ret
      | exact Hout ]
  end.
Qed.

(** * Properties of [main] *)

(** X22. Whatever the arguments and whatever the program meets outside, it
    never opens or writes a file at a path that existed before the split,
    with [--force] or without: every file it creates is at a path free in
    the snapshot of the storage. *)
Theorem program_never_overwrites
    (env : Main.Env) (args : Main.Args) (h : list IOEvent) :
  Forall (free (Main.existing env))
         (opened (fst (Main.program env args h))) /\
  Forall (free (Main.existing env))
         (map fst (writes (fst (Main.program env args h)))).
Proof.
  assert (H : within (keeps_to (free (Main.existing env)))
                (Main.program env args)).
  { unfold Main.program. apply within_try_except.
    - apply main_keeps_to_free.
    - intros e. repeat within_step. }
  split; [apply keeps_to_opened | apply keeps_to_writes]; apply H.
Qed.

(** X23. [main] creates a file only after all its checks: when a run opens
    a file for writing, the run is not one of [--list-printers] or
    [--preview], the input file is named and is a regular file, the PDF
    opened, the cap is positive and below the page count, and the output
    directory could be made. *)
Theorem main_checks_before_writing
    (env : Main.Env) (args : Main.Args) (h : list IOEvent) :
  opened (fst (Main.main env args h)) <> [] -> checks_passed env args.
Proof.
  intros Hopened.
  apply (touched_after_checks _ (fst (Main.main env args h)));
    [|exact Hopened].
  apply main_checks_first.
Qed.

Lemma main_checks_before_writing_witness :
  checks_passed desk (desk_args false false false true).
Proof.
  apply (main_checks_before_writing desk (desk_args false false false true) []).
  vm_compute. discriminate.
Defined.

(** X24. With [--list-printers], [main] returns 0 and touches no file,
    whatever the other arguments are and whatever the listing of the
    printers meets: a failure of the listing is never raised. *)
Theorem main_list_printers_only
    (env : Main.Env) (args : Main.Args) (h : list IOEvent) :
  Main.list_printers args = true ->
  outcome (Main.main env args) h = ([], [], Ok 0).
Proof.
  intros Hlp. unfold Main.main. rewrite Hlp.
  pass ltac:(apply silent_print_available_printers)
       ltac:(apply total_yields, total_print_available_printers).
  reflexivity.
Qed.

Lemma main_list_printers_only_witness :
  outcome (Main.main desk (desk_args true false true true)) []
  = ([], [], Ok 0).
Proof.
  apply (main_list_printers_only desk (desk_args true false true true) []).
  reflexivity.
Defined.

(** X25. With [--preview], a run that gets past the checks returns 0 and
    touches no file, whatever [--force] and [--print] say. *)
Theorem main_preview_writes_nothing
    (env : Main.Env) (args : Main.Args) (p : Path) (r : PDFSplitter.PdfReader)
    (h : list IOEvent) :
  validated env args p r -> Main.preview args = true ->
  outcome (Main.main env args) h = ([], [], Ok 0).
Proof.
  intros Hvalidated Hpreview.
  rewrite (main_preview_outcome env args p r h Hvalidated Hpreview).
  reflexivity.
Qed.

Lemma main_preview_writes_nothing_witness :
  outcome (Main.main desk (desk_args true true false true)) []
  = ([], [], Ok 0).
Proof.
  apply (main_preview_writes_nothing desk (desk_args true true false true)
           (mkPath "" ["in"; "doc.pdf"]) (readable twenty) []).
  - repeat split; try reflexivity. discriminate.
  - reflexivity.
Defined.



(** X27. A run of [main] without [--print] that gets past the checks, on
    a document whose pages can all be read, with the output directory made,
    a storage that accepts every file, and [--force] or a user who answers
    yes: [main] returns 0; the files it opens and writes are the resolved
    output paths, each once and in order, as many as there are page ranges;
    the paths are pairwise different and none existed before; and the files
    put end to end hold the pages of the document. *)
Theorem main_splits_document
    (env : Main.Env) (args : Main.Args) (p : Path) (ps : list Page)
    (h : list IOEvent) (answer : string) :
  validated env args p (readable ps) -> Main.preview args = false ->
  Main.mkdir env = FileManager.MkdirDone ->
  accepts_all (Main.storage env) ->
  goes_on env args answer ->
  Main.print_ args = false ->
  exists outs ws,
    resolved env args p (len ps) = Some outs /\
    outcome (Main.main env args) h = (outs, ws, Ok 0) /\
    map fst ws = outs /\
    List.concat (map snd ws) = ps /\
    List.length outs = List.length (plan (len ps) (Main.pages args)) /\
    NoDup outs /\
    Forall (free (Main.existing env)) outs.
Proof.
  intros Hvalidated Hpreview Hmkdir Hst Hgo Hprint.
  apply (main_run env args p ps h answer); auto.
Qed.

Lemma main_splits_document_witness :
  exists outs ws,
    resolved desk (desk_args false false false true)
      (mkPath "" ["in"; "doc.pdf"]) (len twenty) = Some outs /\
    outcome (Main.main desk (desk_args false false false true)) []
    = (outs, ws, Ok 0) /\
    map fst ws = outs /\
    List.concat (map snd ws) = twenty /\
    List.length outs = List.length (plan (len twenty) 8) /\
    NoDup outs /\
    Forall (free (Main.existing desk)) outs.
Proof.
  apply (main_splits_document desk (desk_args false false false true)
           (mkPath "" ["in"; "doc.pdf"]) twenty [] "").
  - repeat split; try reflexivity. discriminate.
  - reflexivity.
  - reflexivity.
  - split; reflexivity.
  - left. reflexivity.
  - reflexivity.
Defined.

(** X28. The exit status does not tell whether printing worked.  A run
    with [--print] that splits the document as in X27, with a user who
    answers every question, returns 0 and leaves the same files, whatever
    the listing of the printers and the print service answer: also when
    every print job fails, and when the user cancels the printing. *)
Theorem main_status_ignores_printing
    (env : Main.Env) (args : Main.Args) (p : Path) (ps : list Page)
    (h : list IOEvent) (answer : string) :
  validated env args p (readable ps) -> Main.preview args = false ->
  Main.mkdir env = FileManager.MkdirDone ->
  accepts_all (Main.storage env) ->
  goes_on env args answer ->
  Main.print_ args = true ->
  (forall h prompt, exists s, Main.input env h prompt = Ok s) ->
  exists outs ws,
    resolved env args p (len ps) = Some outs /\
    outcome (Main.main env args) h = (outs, ws, Ok 0) /\
    map fst ws = outs /\
    List.concat (map snd ws) = ps.
Proof.
  intros Hvalidated Hpreview Hmkdir Hst Hgo Hprint Hin.
  destruct (main_run env args p ps h answer Hvalidated Hpreview Hmkdir Hst Hgo
              (or_intror Hin))
    as (outs & ws & Hres & Hout & Hpaths & Hall & _).
  exists outs, ws. repeat split; assumption.
Qed.

Lemma main_status_ignores_printing_witness :
  exists outs ws,
    resolved desk_no_printing (desk_args true false false true)
      (mkPath "" ["in"; "doc.pdf"]) (len twenty) = Some outs /\
    outcome (Main.main desk_no_printing (desk_args true false false true)) []
    = (outs, ws, Ok 0) /\
    map fst ws = outs /\
    List.concat (map snd ws) = twenty.
Proof.
  apply (main_status_ignores_printing desk_no_printing
           (desk_args true false false true)
           (mkPath "" ["in"; "doc.pdf"]) twenty [] "").
  - repeat split; try reflexivity. discriminate.
  - reflexivity.
  - reflexivity.
  - split; reflexivity.
  - left. reflexivity.
  - reflexivity.
  - intros h prompt. exists "n". reflexivity.
Defined.

(** X29. [main] does not clean up after a split that fails.  On a run that
    gets past the checks and goes on to the split, when [split_pdf] answers
    [False] for the resolved output paths, [main] returns 1 and what it did
    to files is what the split did: the files written before the failure,
    and a file opened when the failure came, stay. *)
Theorem main_failed_split_keeps_files
    (env : Main.Env) (args : Main.Args) (p : Path) (r : PDFSplitter.PdfReader)
    (h : list IOEvent) (answer : string) (outs : list Path)
    (t : list IOEvent) :
  validated env args p r -> Main.preview args = false ->
  Main.mkdir env = FileManager.MkdirDone ->
  goes_on env args answer ->
  resolved env args p (len (PDFSplitter.pages r)) = Some outs ->
  PDFSplitter.split_pdf (Main.storage env) (splitter_of p r) (Main.pages args)
    outs (Main.verbose args) [] = (t, Ok false) ->
  outcome (Main.main env args) h = (opened t, writes t, Ok 1).
Proof.
  intros Hvalidated Hpreview Hmkdir Hgo Hres Hsplit.
  rewrite (main_failed_split_outcome env args p r h answer outs t); auto.
Qed.

Lemma main_failed_split_keeps_files_witness :
  outcome (Main.main desk_damaged (desk_args false false false true)) []
  = ([doc_part "doc_part_001_1.pdf"],
     [(doc_part "doc_part_001_1.pdf",
       map (fun i => page (str_int i)) (range1 8))],
     Ok 1).
Proof.
  apply (main_failed_split_keeps_files desk_damaged
           (desk_args false false false true)
           (mkPath "" ["in"; "doc.pdf"])
           (PDFSplitter.mkReader
              (good_pages 8 ++ [Raise (OtherException "damaged page")]
                 ++ good_pages 11) false)
           [] ""
           [doc_part "doc_part_001_1.pdf"; doc_part "doc_part_002.pdf";
            doc_part "doc_part_003.pdf"]
           [IoOpenWb (doc_part "doc_part_001_1.pdf");
            IoWrite (doc_part "doc_part_001_1.pdf")
              (map (fun i => page (str_int i)) (range1 8));
            IoPrint "Created: out/doc_part_001_1.pdf (pages 1-8)";
            IoPrint "Error during PDF splitting: damaged page"]).
  - repeat split; try reflexivity. discriminate.
  - reflexivity.
  - reflexivity.
  - left. reflexivity.
  - reflexivity.
  - reflexivity.
Defined.

(** * The printer named on the command line *)

Section NamedPrinter.

Variable env : Main.Env.
Variable args : Main.Args.

Lemma created_app t t' : Main.created (t ++ t') = Main.created t ++ Main.created t'.
Proof. now rewrite !created_opened, opened_app. Qed.

Lemma submitted_prints {A} (g : A -> string) (l : list A) :
  submitted (map (fun a => IoPrint (g a)) l) = [].
Proof. induction l; [reflexivity | assumption]. Qed.

Lemma failed_prints_trace {A B} c line (g : A -> string) (l : list A) (v : B) h :
  (when c (emit (IoPrint line) ;;;
           for_each l (fun a => emit (IoPrint (g a)))) ;;; ret v) h
  = (if c then IoPrint line :: map (fun a => IoPrint (g a)) l else [], Ok v).
Proof.
  destruct c; cbn [when]; [|reflexivity].
  unfold IO.bind at 1. unfold IO.bind at 1. unfold emit at 1. cbv iota beta.
  rewrite for_each_print. unfold ret. cbn [app]. now rewrite app_nil_r.
Qed.

(** The printing part of [main] when the named printer is not listed and
    the user goes on. *)
Lemma print_outputs_named h outs nm stdout printers answer :
  Main.platform_system env = "Linux" \/ Main.platform_system env = "Darwin" ->
  Main.printer args = Some nm -> nm <> "" ->
  Main.print_options args = None ->
  (forall h, PrinterManager.run_stdout (Main.shell env) h ["lpstat"; "-p"]
             = Ok stdout) ->
  PrinterManager.collect_printers (split_on LF stdout) = Ok printers ->
  existsb (String.eqb nm) printers = false ->
  (forall h prompt, Main.input env h prompt = Ok answer) ->
  Main.declined (lower (strip answer)) = false ->
  submitted (fst (Main.print_outputs env args outs h))
  = ["lpstat"; "-p"]
    :: map (fun f => ["lpr"; "-P"; nm; str f])
         (filter (fun f =>
                    andb (FileManager.exists_in
                            (Main.existing env ++ Main.created h) f)
                         (String.eqb (lower (suffix f)) ".pdf"))
                 outs).
Proof.
  intros Hsys Hprinter Hnm Hopts Hrun Hcollect Hnot Hin Hyes.
  unfold Main.print_outputs. rewrite Hprinter, Hopts.
  assert (Hgiven : PrinterManager.given (Some nm) = true).
  { cbn [PrinterManager.given]. now destruct (String.eqb_spec nm ""). }
  assert (Hor : PrinterManager.or_default (Some nm) = nm).
  { cbn [PrinterManager.or_default]. now destruct (String.eqb_spec nm ""). }
  rewrite Hgiven, Hor. cbn [Main.parse_print_options].
  unfold IO.bind at 1. unfold emit at 1. cbv iota beta.
  unfold IO.bind at 1. unfold ret at 1. cbv iota beta.
  unfold IO.bind at 1. unfold IO.bind at 1.
  rewrite list_printers_lpr by exact Hsys. rewrite Hrun, Hcollect, Hnot.
  unfold IO.bind at 1. unfold emit at 1. cbv iota beta.
  unfold IO.bind at 1. unfold emit at 1. cbv iota beta.
  unfold IO.bind at 1. unfold Main.read_input at 1. cbv iota beta.
  rewrite Hin, Hyes. unfold ret at 1. cbv iota beta. cbn [negb].
  unfold IO.bind at 1. unfold emit at 1. cbv iota beta.
  unfold IO.bind at 1. unfold Main.history at 1. cbv iota beta.
  rewrite !created_app. cbn [Main.created]. rewrite !app_nil_r.
  set (w := PrinterManager.mkWorld _ _ _).
  set (pm := PrinterManager.mk _).
  unfold IO.bind at 1.
  lazymatch goal with
  | |- context [PrinterManager.print_multiple_files w pm outs ?pn ?po ?cb ?h0] =>
      destruct (print_loop_spec w pm (len outs) pn po cb (enumerate outs) [] h0)
        as (outcomes & Hres & _ & _ & _ & Hsub);
      specialize (Hsub Hsys);
      fold (PrinterManager.print_multiple_files w pm outs pn po cb) in Hres, Hsub;
      destruct (PrinterManager.print_multiple_files w pm outs pn po cb h0)
        as [t res]
  end.
  cbn [fst snd] in Hres, Hsub. subst res.
  unfold enumerate in Hsub. rewrite enumerate_from_snd in Hsub.
  cbv iota beta.
  unfold IO.bind at 1. unfold emit at 1. cbv iota beta.
  rewrite failed_prints_trace. cbn [fst].
  rewrite !submitted_app. cbn [submitted]. rewrite Hsub.
  match goal with
  | |- context [submitted (if ?c then ?a else ?b)] =>
      replace (submitted (if c then a else b)) with (@nil (list string))
        by (destruct c; [cbn [submitted]; now rewrite submitted_prints
                        | reflexivity])
  end.
  rewrite !app_nil_r.
  repeat (rewrite app_nil_l || rewrite <- app_comm_cons). f_equal.
  apply map_ext. intros f. unfold PrinterManager.lpr_cmd.
  cbn [PrinterManager.printer_args PrinterManager.option_args flat_map].
  now destruct (String.eqb_spec nm "").
Qed.
End NamedPrinter.

(** X30. Going on [with default printer] does not change the printer.  On
    Linux and macOS, when the printer named with [--printer] is not among
    the printers listed and the user answers yes to the question whether to
    continue with the default printer, the printing part of [main] still
    submits every print job to the named printer: after the listing
    command, one [lpr -P name file] for each output file that exists and
    ends in [.pdf], in order. *)
Theorem print_continues_with_named_printer
    (env : Main.Env) (args : Main.Args) (h : list IOEvent) (outs : list Path)
    (nm stdout : string) (printers : list string) (answer : string) :
  Main.platform_system env = "Linux" \/ Main.platform_system env = "Darwin" ->
  Main.printer args = Some nm -> nm <> "" ->
  Main.print_options args = None ->
  (forall h, PrinterManager.run_stdout (Main.shell env) h ["lpstat"; "-p"]
             = Ok stdout) ->
  PrinterManager.collect_printers (split_on LF stdout) = Ok printers ->
  existsb (String.eqb nm) printers = false ->
  (forall h prompt, Main.input env h prompt = Ok answer) ->
  Main.declined (lower (strip answer)) = false ->
  submitted (fst (Main.print_outputs env args outs h))
  = ["lpstat"; "-p"]
    :: map (fun f => ["lpr"; "-P"; nm; str f])
         (filter (fun f =>
                    andb (FileManager.exists_in
                            (Main.existing env ++ Main.created h) f)
                         (String.eqb (lower (suffix f)) ".pdf"))
                 outs).
Proof.
  intros Hsys Hprinter Hnm Hopts Hrun Hcollect Hnot Hin Hyes.
  rewrite (print_outputs_named env args h outs nm stdout printers answer);
    auto.
Qed.

Lemma print_continues_with_named_printer_witness :
  submitted (fst (Main.print_outputs desk_yes desk_args_printer
                    [doc_part "doc_part_001_1.pdf"; doc_part "notes.txt";
                     doc_part "doc_part_002.pdf"]
                    [IoOpenWb (doc_part "doc_part_001_1.pdf");
                     IoOpenWb (doc_part "notes.txt");
                     IoOpenWb (doc_part "doc_part_002.pdf")]))
  = [["lpstat"; "-p"];
     ["lpr"; "-P"; "HP"; "out/doc_part_001_1.pdf"];
     ["lpr"; "-P"; "HP"; "out/doc_part_002.pdf"]].
Proof.
  apply (print_continues_with_named_printer desk_yes desk_args_printer
           [IoOpenWb (doc_part "doc_part_001_1.pdf");
            IoOpenWb (doc_part "notes.txt");
            IoOpenWb (doc_part "doc_part_002.pdf")]
           [doc_part "doc_part_001_1.pdf"; doc_part "notes.txt";
            doc_part "doc_part_002.pdf"]
           "HP" "" [] " Y ").
  - left. reflexivity.
  - reflexivity.
  - discriminate.
  - reflexivity.
  - reflexivity.
  - reflexivity.
  - reflexivity.
  - reflexivity.
  - reflexivity.
Defined.
